(** * Superglue core: request execution, synthesis loops and the job queue

    A shallow embedding of the TypeScript sources of the core package
    (api.ts, extract.ts, transform.ts, schema.ts, llm-client.ts and the
    Queue class) together with the properties that the specification
    states about them.

    Conventions.
    - JavaScript values are the inductive type [JsVal]: JSON values plus
      [undefined].  Numbers are exact decimals [m * 10^e]; the rounding
      of IEEE doubles is outside the model.  Strings are byte strings.
    - Objects are association lists in insertion order.  Only own
      properties are modelled, not the members inherited from prototypes.
    - Everything that leaves the process (HTTP, the LLM, the clock, the
      random source, the environment variables) is an explicit argument.
    - A [throw] is the [Threw] constructor of the result type. *)

From Stdlib Require Import ZArith QArith Qminmax String Ascii List Bool Lia.
From stdpp Require Import base option list gmap strings pretty.

Set Warnings "-register-all".

(* ===================================================================== *)
(** * JavaScript values and the built-ins the sources call               *)
(* ===================================================================== *)

Module Js.

Inductive JsVal : Type :=
| VUndefined
| VNull
| VBool (b : bool)
| VNum (m e : Z)
| VStr (s : string)
| VArr (xs : list JsVal)
| VObj (fields : list (string * JsVal)).

Definition VInt (n : Z) : JsVal := VNum n 0.

(** Thrown values.  The message texts of [TypeError] and [SyntaxError]
    are engine specific; the ones produced here are representative. *)
Inductive JsError : Type :=
| Error (message : string)
| TypeError (message : string)
| SyntaxError (message : string).

Definition message (e : JsError) : string :=
  match e with Error m | TypeError m | SyntaxError m => m end.

Inductive Completion (A : Type) : Type :=
| Threw (e : JsError)
| Normal (a : A).
Arguments Threw {A} e.
Arguments Normal {A} a.

Definition bind {A B} (c : Completion A) (k : A -> Completion B) : Completion B :=
  match c with Threw e => Threw e | Normal a => k a end.

(** ** Strings *)

Definition nl : string := String (ascii_of_nat 10) EmptyString.

Fixpoint join (sep : string) (l : list string) : string :=
  match l with
  | [] => ""
  | [s] => s
  | s :: rest => s +:+ sep +:+ join sep rest
  end.

(** [String.prototype.includes] *)
Fixpoint includes (hay needle : string) : bool :=
  String.prefix needle hay ||
  match hay with
  | EmptyString => false
  | String _ rest => includes rest needle
  end.

(** [String.prototype.startsWith] *)
Definition startsWith (s p : string) : bool := String.prefix p s.

(** [s.slice(0, n)] for a non-negative [n] *)
Definition slice0 (n : nat) (s : string) : string := substring 0 n s.

Definition is_js_space (c : ascii) : bool :=
  let n := nat_of_ascii c in
  (n =? 32)%nat || ((9 <=? n)%nat && (n <=? 13)%nat).

Definition nonempty {A} (l : list A) : bool :=
  match l with [] => false | _ :: _ => true end.

Fixpoint dropWhile {A} (p : A -> bool) (l : list A) : list A :=
  match l with
  | [] => []
  | x :: rest => if p x then dropWhile p rest else l
  end.

Fixpoint takeWhile {A} (p : A -> bool) (l : list A) : list A :=
  match l with
  | [] => []
  | x :: rest => if p x then x :: takeWhile p rest else []
  end.

(** [String.prototype.trim] *)
Definition trim (s : string) : string :=
  string_of_list_ascii
    (rev (dropWhile is_js_space (rev (dropWhile is_js_space (list_ascii_of_string s))))).

Definition lower_ascii (c : ascii) : ascii :=
  let n := nat_of_ascii c in
  if (65 <=? n)%nat && (n <=? 90)%nat then ascii_of_nat (n + 32) else c.

(** [String.prototype.toLowerCase] on ASCII letters *)
Fixpoint toLowerCase (s : string) : string :=
  match s with
  | EmptyString => EmptyString
  | String c rest => String (lower_ascii c) (toLowerCase rest)
  end.

(** [s.split('.')], written for any one-character separator *)
Fixpoint split_go (sep : ascii) (cur : string) (s : string) : list string :=
  match s with
  | EmptyString => [String.rev cur]
  | String c rest =>
      if Ascii.eqb c sep then String.rev cur :: split_go sep "" rest
      else split_go sep (String c cur) rest
  end.

Definition split (sep : ascii) (s : string) : list string := split_go sep "" s.

(** ** Numbers *)

Definition zeros (n : Z) : string :=
  string_of_list_ascii (repeat "0"%char (Z.to_nat n)).

Definition is_zero_digit (c : ascii) : bool := Ascii.eqb c "0".

(** [Number::toString] for the decimal [m * 10^e] *)
Definition number_to_string (m e : Z) : string :=
  if (m =? 0)%Z then "0" else
  let sign := if (m <? 0)%Z then "-" else "" in
  let all := list_ascii_of_string (pretty (Z.abs m)) in
  let rds := dropWhile is_zero_digit (rev all) in
  let t := Z.of_nat (length all - length rds) in
  let ds := rev rds in
  let s := string_of_list_ascii ds in
  let k := Z.of_nat (length ds) in
  let n := (k + e + t)%Z in
  if (k <=? n)%Z && (n <=? 21)%Z then sign +:+ s +:+ zeros (n - k)
  else if (0 <? n)%Z && (n <=? 21)%Z then
    sign +:+ string_of_list_ascii (take (Z.to_nat n) ds) +:+ "."
         +:+ string_of_list_ascii (drop (Z.to_nat n) ds)
  else if (-6 <? n)%Z && (n <=? 0)%Z then sign +:+ "0." +:+ zeros (- n) +:+ s
  else
    let ex := (n - 1)%Z in
    let es := (if (ex <? 0)%Z then "-" else "+") +:+ pretty (Z.abs ex) in
    if (k =? 1)%Z then sign +:+ s +:+ "e" +:+ es
    else sign +:+ string_of_list_ascii (take 1 ds) +:+ "."
              +:+ string_of_list_ascii (drop 1 ds) +:+ "e" +:+ es.

(** ** Truthiness, [||], [String(v)] *)

Definition truthy (v : JsVal) : bool :=
  match v with
  | VUndefined | VNull => false
  | VBool b => b
  | VNum m _ => negb (m =? 0)%Z
  | VStr s => negb (String.eqb s "")
  | VArr _ | VObj _ => true
  end.

(** [a || b] *)
Definition or_else (a b : JsVal) : JsVal := if truthy a then a else b.


Fixpoint toString (v : JsVal) : string :=
  match v with
  | VUndefined => "undefined"
  | VNull => "null"
  | VBool true => "true"
  | VBool false => "false"
  | VNum m e => number_to_string m e
  | VStr s => s
  | VArr xs =>
      join "," (List.map (fun x => match x with
                                   | VUndefined | VNull => ""
                                   | _ => toString x
                                   end) xs)
  | VObj _ => "[object Object]"
  end.

(** ** Property access *)

Fixpoint assoc {A} (k : string) (l : list (string * A)) : option A :=
  match l with
  | [] => None
  | (k', v) :: rest => if String.eqb k k' then Some v else assoc k rest
  end.

(** Assignment [o[k] = v]: an existing key keeps its position. *)
Fixpoint assoc_set {A} (k : string) (v : A) (l : list (string * A)) : list (string * A) :=
  match l with
  | [] => [(k, v)]
  | (k', v') :: rest =>
      if String.eqb k k' then (k, v) :: rest else (k', v') :: assoc_set k v rest
  end.

(** The array index denoted by a property key, if it is a canonical one. *)
Definition array_index (k : string) : option nat :=
  match k with
  | EmptyString => None
  | String c rest =>
      if Ascii.eqb c "0" && negb (String.eqb rest "") then None
      else if forallb (fun d => match Ascii.is_nat d with Some _ => true | None => false end)
                      (list_ascii_of_string k)
           then Some (fold_left (fun acc d => acc * 10 + default 0 (Ascii.is_nat d))
                                (list_ascii_of_string k) 0)
           else None
  end.

(** [v[k]]: own properties of objects, elements and [length] of arrays
    and strings.  Reading a property of [null] or [undefined] throws. *)
Definition getProp (v : JsVal) (k : string) : Completion JsVal :=
  match v with
  | VUndefined =>
      Threw (TypeError ("Cannot read properties of undefined (reading '" +:+ k +:+ "')"))
  | VNull =>
      Threw (TypeError ("Cannot read properties of null (reading '" +:+ k +:+ "')"))
  | VObj fs => Normal (default VUndefined (assoc k fs))
  | VArr xs =>
      if String.eqb k "length" then Normal (VInt (Z.of_nat (length xs)))
      else match array_index k with
           | Some i => Normal (default VUndefined (xs !! i))
           | None => Normal VUndefined
           end
  | VStr s =>
      if String.eqb k "length" then Normal (VInt (Z.of_nat (String.length s)))
      else match array_index k with
           | Some i => Normal (match String.get i s with
                               | Some c => VStr (String c "")
                               | None => VUndefined
                               end)
           | None => Normal VUndefined
           end
  | VBool _ | VNum _ _ => Normal VUndefined
  end.

(** [v?.k] *)
Definition getPropOpt (v : JsVal) (k : string) : JsVal :=
  match getProp v k with Normal x => x | Threw _ => VUndefined end.

(** ** [JSON.stringify] *)

Definition hex_digit (n : nat) : ascii :=
  if (n <? 10)%nat then ascii_of_nat (48 + n) else ascii_of_nat (87 + n).

Definition dquote : string := String (ascii_of_nat 34) EmptyString.
Definition bslash : string := String (ascii_of_nat 92) EmptyString.

Definition escape_char (c : ascii) : string :=
  let n := nat_of_ascii c in
  if (n =? 34)%nat then bslash +:+ dquote
  else if (n =? 92)%nat then bslash +:+ bslash
  else if (n =? 8)%nat then bslash +:+ "b"
  else if (n =? 12)%nat then bslash +:+ "f"
  else if (n =? 10)%nat then bslash +:+ "n"
  else if (n =? 13)%nat then bslash +:+ "r"
  else if (n =? 9)%nat then bslash +:+ "t"
  else if (n <? 32)%nat then
    bslash +:+ "u00" +:+ String (hex_digit (n / 16)) (String (hex_digit (n mod 16)) "")
  else String c "".

Fixpoint escape (s : string) : string :=
  match s with
  | EmptyString => ""
  | String c rest => escape_char c +:+ escape rest
  end.

Definition quote (s : string) : string := dquote +:+ escape s +:+ dquote.

(** [JSON.stringify(v)]; [None] is the result [undefined]. *)
Fixpoint stringify (v : JsVal) : option string :=
  match v with
  | VUndefined => None
  | VNull => Some "null"
  | VBool true => Some "true"
  | VBool false => Some "false"
  | VNum m e => Some (number_to_string m e)
  | VStr s => Some (quote s)
  | VArr xs =>
      Some ("[" +:+ join "," (List.map (fun x => default "null" (stringify x)) xs) +:+ "]")
  | VObj fs =>
      let members :=
        (fix go (l : list (string * JsVal)) : list string :=
           match l with
           | [] => []
           | (k, x) :: rest =>
               match stringify x with
               | Some s => (quote k +:+ ":" +:+ s) :: go rest
               | None => go rest
               end
           end) fs in
      Some ("{" +:+ join "," members +:+ "}")
  end.

(** The text that a template literal or [String(..)] shows for the result
    of [JSON.stringify]. *)
Definition stringify_text (v : JsVal) : string := default "undefined" (stringify v).

(** [String(x)] for a string that may be [undefined] *)
Definition String_opt (x : option string) : string := default "undefined" x.

(** [Object.keys(v)] for a value that is neither [null] nor [undefined] *)
Definition objectKeys (v : JsVal) : list string :=
  match v with
  | VObj fs => fs.*1
  | VArr xs => List.map (fun i => pretty i) (seq 0 (length xs))
  | VStr s => List.map (fun i => pretty i) (seq 0 (String.length s))
  | _ => []
  end.

(** The own enumerable properties of a value, as a spread copies them. *)
Definition ownProperties (v : JsVal) : list (string * JsVal) :=
  match v with
  | VObj fs => fs
  | VArr xs => List.map (fun '(i, x) => (pretty i, x)) (combine (seq 0 (length xs)) xs)
  | VStr s =>
      List.map (fun '(i, c) => (pretty i, VStr (String c EmptyString)))
               (combine (seq 0 (String.length s)) (list_ascii_of_string s))
  | _ => []
  end.

(** [{ ...target, ...source }] on the fields of [target] *)
Definition spread (target : list (string * JsVal)) (source : JsVal)
  : list (string * JsVal) :=
  fold_left (fun acc '(k, v) => assoc_set k v acc) (ownProperties source) target.

(** [s.replace(pattern, replacement)] for a string pattern: the first
    occurrence only.  The dollar patterns of the replacement are not
    modelled. *)
Fixpoint replace_first (pattern replacement s : string) : string :=
  if String.prefix pattern s
  then replacement +:+ substring (String.length pattern) (String.length s) s
  else match s with
       | EmptyString => EmptyString
       | String c rest => String c (replace_first pattern replacement rest)
       end.

(** ** [JSON.parse] *)

Definition is_json_ws (c : ascii) : bool :=
  let n := nat_of_ascii c in
  (n =? 32)%nat || (n =? 9)%nat || (n =? 10)%nat || (n =? 13)%nat.

Definition skip_ws (cs : list ascii) : list ascii := dropWhile is_json_ws cs.

Definition is_digit (c : ascii) : bool :=
  match Ascii.is_nat c with Some _ => true | None => false end.

Definition digits_value (ds : list ascii) : Z :=
  fold_left (fun acc d => (acc * 10 + Z.of_nat (default 0%nat (Ascii.is_nat d)))%Z) ds 0%Z.

Definition hex_value (c : ascii) : option nat :=
  let n := nat_of_ascii c in
  if (48 <=? n)%nat && (n <=? 57)%nat then Some (n - 48)
  else if (97 <=? n)%nat && (n <=? 102)%nat then Some (n - 87)
  else if (65 <=? n)%nat && (n <=? 70)%nat then Some (n - 55)
  else None.

(** The bytes of the UTF-8 encoding of a 16-bit code unit. *)
Definition utf8 (u : nat) : list ascii :=
  if (u <? 128)%nat then [ascii_of_nat u]
  else if (u <? 2048)%nat then
    [ascii_of_nat (192 + u / 64); ascii_of_nat (128 + u mod 64)]
  else
    [ascii_of_nat (224 + u / 4096); ascii_of_nat (128 + (u / 64) mod 64);
     ascii_of_nat (128 + u mod 64)].

(** The characters of a string literal after its opening quote; [acc]
    holds the decoded characters in reverse. *)
Fixpoint parse_string_body (cs : list ascii) (acc : list ascii)
  : option (string * list ascii) :=
  match cs with
  | [] => None
  | c :: rest =>
      let n := nat_of_ascii c in
      if (n =? 34)%nat then Some (string_of_list_ascii (rev acc), rest)
      else if (n =? 92)%nat then
        match rest with
        | [] => None
        | x :: rest' =>
            let k := nat_of_ascii x in
            if (k =? 117)%nat then
              match rest' with
              | h1 :: h2 :: h3 :: h4 :: rest'' =>
                  match hex_value h1, hex_value h2, hex_value h3, hex_value h4 with
                  | Some a, Some b, Some c', Some d =>
                      parse_string_body rest''
                        (rev (utf8 (((a * 16 + b) * 16 + c') * 16 + d)) ++ acc)
                  | _, _, _, _ => None
                  end
              | _ => None
              end
            else if (k =? 34)%nat || (k =? 92)%nat || (k =? 47)%nat then
              parse_string_body rest' (x :: acc)
            else if (k =? 98)%nat then parse_string_body rest' (ascii_of_nat 8 :: acc)
            else if (k =? 102)%nat then parse_string_body rest' (ascii_of_nat 12 :: acc)
            else if (k =? 110)%nat then parse_string_body rest' (ascii_of_nat 10 :: acc)
            else if (k =? 114)%nat then parse_string_body rest' (ascii_of_nat 13 :: acc)
            else if (k =? 116)%nat then parse_string_body rest' (ascii_of_nat 9 :: acc)
            else None
        end
      else if (n <? 32)%nat then None
      else parse_string_body rest (c :: acc)
  end.

Definition parse_exponent (cs : list ascii) : option (Z * list ascii) :=
  match cs with
  | c :: rest =>
      if Ascii.eqb c "e" || Ascii.eqb c "E" then
        let '(neg, rest1) :=
          match rest with
          | s :: r => if Ascii.eqb s "-" then (true, r)
                      else if Ascii.eqb s "+" then (false, r) else (false, rest)
          | [] => (false, rest)
          end in
        let ds := takeWhile is_digit rest1 in
        match ds with
        | [] => None
        | _ => Some (if neg then (- digits_value ds)%Z else digits_value ds,
                     dropWhile is_digit rest1)
        end
      else Some (0%Z, cs)
  | [] => Some (0%Z, cs)
  end.

Definition parse_number (cs : list ascii) : option (JsVal * list ascii) :=
  let '(neg, cs1) :=
    match cs with
    | c :: rest => if Ascii.eqb c "-" then (true, rest) else (false, cs)
    | [] => (false, cs)
    end in
  let ip := takeWhile is_digit cs1 in
  let cs2 := dropWhile is_digit cs1 in
  match ip with
  | [] => None
  | d :: more =>
      if Ascii.eqb d "0" && nonempty more then None
      else
        let '(fp, cs3, okf) :=
          match cs2 with
          | c :: rest =>
              if Ascii.eqb c "." then
                let f := takeWhile is_digit rest in
                (f, dropWhile is_digit rest, nonempty f)
              else ([], cs2, true)
          | [] => ([], cs2, true)
          end in
        if okf then
          match parse_exponent cs3 with
          | Some (ex, cs4) =>
              let mag := digits_value (ip ++ fp) in
              Some (VNum (if neg then (- mag)%Z else mag) (ex - Z.of_nat (length fp)), cs4)
          | None => None
          end
        else None
  end.

Definition strip_prefix (p : string) (cs : list ascii) : option (list ascii) :=
  let pl := list_ascii_of_string p in
  if bool_decide (take (length pl) cs = pl) then Some (drop (length pl) cs) else None.

Fixpoint parse_value (fuel : nat) (cs : list ascii) {struct fuel}
  : option (JsVal * list ascii) :=
  match fuel with
  | O => None
  | S f =>
      match skip_ws cs with
      | [] => None
      | c :: rest =>
          let n := nat_of_ascii c in
          if (n =? 123)%nat then
            match skip_ws rest with
            | c' :: rest' =>
                if (nat_of_ascii c' =? 125)%nat then Some (VObj [], rest')
                else parse_members f [] rest
            | [] => None
            end
          else if (n =? 91)%nat then
            match skip_ws rest with
            | c' :: rest' =>
                if (nat_of_ascii c' =? 93)%nat then Some (VArr [], rest')
                else parse_elems f [] rest
            | [] => None
            end
          else if (n =? 34)%nat then
            match parse_string_body rest [] with
            | Some (s, rest') => Some (VStr s, rest')
            | None => None
            end
          else
            match strip_prefix "true" (c :: rest), strip_prefix "false" (c :: rest),
                  strip_prefix "null" (c :: rest) with
            | Some r, _, _ => Some (VBool true, r)
            | _, Some r, _ => Some (VBool false, r)
            | _, _, Some r => Some (VNull, r)
            | None, None, None => parse_number (c :: rest)
            end
      end
  end
with parse_elems (fuel : nat) (acc : list JsVal) (cs : list ascii) {struct fuel}
  : option (JsVal * list ascii) :=
  match fuel with
  | O => None
  | S f =>
      match parse_value f cs with
      | Some (v, rest) =>
          match skip_ws rest with
          | c :: rest' =>
              if (nat_of_ascii c =? 44)%nat then parse_elems f (v :: acc) rest'
              else if (nat_of_ascii c =? 93)%nat then Some (VArr (rev (v :: acc)), rest')
              else None
          | [] => None
          end
      | None => None
      end
  end
with parse_members (fuel : nat) (acc : list (string * JsVal)) (cs : list ascii) {struct fuel}
  : option (JsVal * list ascii) :=
  match fuel with
  | O => None
  | S f =>
      match skip_ws cs with
      | q :: rest =>
          if (nat_of_ascii q =? 34)%nat then
            match parse_string_body rest [] with
            | Some (k, rest1) =>
                match skip_ws rest1 with
                | colon :: rest2 =>
                    if (nat_of_ascii colon =? 58)%nat then
                      match parse_value f rest2 with
                      | Some (v, rest3) =>
                          match skip_ws rest3 with
                          | c :: rest4 =>
                              if (nat_of_ascii c =? 44)%nat
                              then parse_members f (assoc_set k v acc) rest4
                              else if (nat_of_ascii c =? 125)%nat
                              then Some (VObj (assoc_set k v acc), rest4)
                              else None
                          | [] => None
                          end
                      | None => None
                      end
                    else None
                | [] => None
                end
            | None => None
            end
          else None
      | [] => None
      end
  end.

(** [JSON.parse(text)].  Every nested value, element and member costs one
    unit of fuel and at least every second one consumes a character, so
    twice the length of the text is enough. *)
Definition JSON_parse (text : string) : Completion JsVal :=
  let cs := list_ascii_of_string text in
  match parse_value (2 * length cs + 2) cs with
  | Some (v, rest) =>
      match skip_ws rest with
      | [] => Normal v
      | _ => Threw (SyntaxError "Unexpected non-whitespace character after JSON")
      end
  | None => Threw (SyntaxError "Unexpected token in JSON")
  end.

(** Test data is easier to read with apostrophes where JSON has double
    quotes; [dq] turns the former into the latter. *)
Definition dq (s : string) : string :=
  string_of_list_ascii
    (List.map (fun c => if Ascii.eqb c "'" then ascii_of_nat 34 else c)
              (list_ascii_of_string s)).

End Js.

(* ===================================================================== *)
(** * tools.ts: the helpers the executor imports                         *)
(* ===================================================================== *)

Module Tools.
Import Js.

(** [\w] of JavaScript regular expressions: [[A-Za-z0-9_]]. *)
Definition is_word (c : ascii) : bool :=
  let n := nat_of_ascii c in
  ((48 <=? n)%nat && (n <=? 57)%nat) || ((65 <=? n)%nat && (n <=? 90)%nat)
  || ((97 <=? n)%nat && (n <=? 122)%nat) || (n =? 95)%nat.

Definition lbrace : ascii := "{".
Definition rbrace : ascii := "}".

(** Modelled from the spec: replaceVariables of tools.ts is not among the
    sources.  Section 4.1: interpolate(template, vars) replaces every
    [{name}] (name matches [\w+]) by [vars[name]] stringified; unbound
    placeholders remain literal.  [pending] holds, in reverse, the word
    characters read since the last opening brace. *)
Fixpoint replace_go (vars : gmap string JsVal) (pending : option (list ascii))
    (cs : list ascii) : list ascii :=
  match cs with
  | [] =>
      match pending with
      | Some w => lbrace :: rev w
      | None => []
      end
  | c :: rest =>
      match pending with
      | None =>
          if Ascii.eqb c lbrace then replace_go vars (Some []) rest
          else c :: replace_go vars None rest
      | Some w =>
          if Ascii.eqb c rbrace && nonempty w then
            let name := string_of_list_ascii (rev w) in
            match vars !! name with
            | Some v => list_ascii_of_string (toString v) ++ replace_go vars None rest
            | None => (lbrace :: rev w) ++ rbrace :: replace_go vars None rest
            end
          else if is_word c then replace_go vars (Some (c :: w)) rest
          else if Ascii.eqb c lbrace then (lbrace :: rev w) ++ replace_go vars (Some []) rest
          else (lbrace :: rev w) ++ c :: replace_go vars None rest
      end
  end.

Definition replaceVariables (template : string) (vars : gmap string JsVal) : string :=
  string_of_list_ascii (replace_go vars None (list_ascii_of_string template)).

(** Modelled from the spec: composeUrl of tools.ts is not among the
    sources.  Section 3: urlHost (required) and urlPath (optional)
    together form the URL. *)
Definition composeUrl (urlHost : string) (urlPath : option string) : string :=
  urlHost +:+ default "" urlPath.

(** composeUrl applied to properties of a configuration object *)
Definition composeUrlOf (config : JsVal) : string :=
  composeUrl (if truthy (getPropOpt config "urlHost")
              then toString (getPropOpt config "urlHost") else "")
             (if truthy (getPropOpt config "urlPath")
              then Some (toString (getPropOpt config "urlPath")) else None).

End Tools.

(* ===================================================================== *)
(** * api.ts: the request executor                                       *)
(* ===================================================================== *)

Module Api.
Import Js Tools.

Inductive PaginationType := OFFSET_BASED | PAGE_BASED | DISABLED.
Inductive HttpMethod := GET | POST | PUT | DELETE | PATCH | HEAD | OPTIONS.
Inductive AuthType := NONE | HEADER | QUERY_PARAM | OAUTH2.

Record Pagination := {
  ptype : PaginationType;
  pageSize : option Z
}.

(** The fields of an ApiConfig that the executor reads, and its id. *)
Record ApiConfig := {
  id : string;
  urlHost : string;
  urlPath : option string;
  instruction : string;
  method : HttpMethod;
  queryParams : option (list (string * string));
  headers : option (list (string * string));
  body : option string;
  authentication : option AuthType;
  pagination : option Pagination;
  dataPath : option string
}.

Record RequestOptions := {
  timeout : option Z;
  retries : option Z;
  retryDelay : option Z
}.

Record AxiosRequestConfig := {
  rq_method : HttpMethod;
  rq_url : string;
  rq_headers : list (string * string);
  rq_data : JsVal;
  rq_params : list (string * string);
  rq_timeout : Z
}.

Record AxiosResponse := {
  status : Z;
  data : JsVal;
  rs_headers : list (string * string)
}.

(** What [await callAxios(config, options)] can do: reject, resolve to
    [undefined], or resolve to a response. *)
Inductive AxiosResult :=
| AxThrew (e : JsError)
| AxUndefined
| AxResponse (r : AxiosResponse).

(** callAxios of tools.ts is the boundary to the network: the result of
    the n-th call (counting from 0) for a request and its options. *)
Definition HttpCaller := nat -> AxiosRequestConfig -> option RequestOptions -> AxiosResult.

Definition method_name (m : HttpMethod) : string :=
  match m with
  | GET => "GET" | POST => "POST" | PUT => "PUT" | DELETE => "DELETE"
  | PATCH => "PATCH" | HEAD => "HEAD" | OPTIONS => "OPTIONS"
  end.

(** [x || d] for an optional integer: [undefined], [null] and [0] give [d]. *)
Definition int_or (x : option Z) (d : Z) : Z :=
  match x with
  | Some n => if (n =? 0)%Z then d else n
  | None => d
  end.

(** [Object.keys] of a variable map (the order plays no role below) *)
Definition keys (m : gmap string JsVal) : list string := (map_to_list m).*1.

(** The helper inside validateVariables: the names of the [{name}]
    patterns of a string, by the global match of [/\{(\w+)\}/g].
    [pending] holds, in reverse, the word characters read since the last
    opening brace. *)
Fixpoint scan_vars (pending : option (list ascii)) (cs : list ascii) : list string :=
  match cs with
  | [] => []
  | c :: rest =>
      if Ascii.eqb c lbrace then scan_vars (Some []) rest
      else match pending with
           | None => scan_vars None rest
           | Some w =>
               if is_word c then scan_vars (Some (c :: w)) rest
               else if Ascii.eqb c rbrace && nonempty w
               then string_of_list_ascii (rev w) :: scan_vars None rest
               else scan_vars None rest
           end
  end.

Definition findTemplateVars (str : string) : list string :=
  if String.eqb str "" then [] else scan_vars None (list_ascii_of_string str).

Definition includes_str (l : list string) (v : string) : bool := bool_decide (v ∈ l).

Definition validateVariables (generatedConfig : ApiConfig) (vars : list string) : list string :=
  let vars := vars ++ ["page"; "limit"; "offset"] in
  let varMatches :=
    flat_map findTemplateVars
      ([String_opt (urlPath generatedConfig)]
       ++ (default [] (queryParams generatedConfig)).*2
       ++ (default [] (headers generatedConfig)).*2
       ++ [String_opt (body generatedConfig)]) in
  List.filter (fun v => negb (includes_str vars v)) varMatches.

(** ** callEndpoint *)

(** A string-to-string record as a JavaScript object *)
Definition obj_of (l : list (string * string)) : JsVal :=
  VObj (List.map (fun '(k, v) => (k, VStr v)) l).

(** The local variables of the loop *)
Record LoopState := {
  allResults : list JsVal;
  page : Z;
  offset : Z;
  hasMore : bool;
  loopCounter : Z
}.

(** What a run did, for the statements about it: the pagination
    variables generated at the start of each iteration, the variables
    each iteration interpolates with, and the requests handed to
    callAxios, all in order. *)
Record Trace := {
  iterations : list (gmap string JsVal);
  bindings : list (gmap string JsVal);
  httpCalls : list AxiosRequestConfig
}.

Definition no_trace : Trace :=
  {| iterations := []; bindings := []; httpCalls := [] |}.

Definition log_iteration (pv rv : gmap string JsVal) (t : Trace) : Trace :=
  {| iterations := iterations t ++ [pv];
     bindings := bindings t ++ [rv];
     httpCalls := httpCalls t |}.

Definition log_call (rq : AxiosRequestConfig) (t : Trace) : Trace :=
  {| iterations := iterations t;
     bindings := bindings t;
     httpCalls := httpCalls t ++ [rq] |}.

Definition pagination_type (endpoint : ApiConfig) : option PaginationType :=
  ptype <$> pagination endpoint.

(** [endpoint.pagination?.pageSize] *)
Definition pagination_pageSize (endpoint : ApiConfig) : option Z :=
  pagination endpoint ≫= pageSize.

(** Lines 304-314: the pagination variables of this iteration and the
    updated counters. *)
Definition paginate (endpoint : ApiConfig) (st : LoopState)
  : gmap string JsVal * LoopState :=
  match pagination_type endpoint with
  | Some PAGE_BASED =>
      (<["page" := VInt (page st)]>
         (<["limit" := VInt (int_or (pagination_pageSize endpoint) 50)]> ∅),
       {| allResults := allResults st; page := page st + 1; offset := offset st;
          hasMore := hasMore st; loopCounter := loopCounter st |})
  | Some OFFSET_BASED =>
      (<["offset" := VInt (offset st)]>
         (<["limit" := VInt (int_or (pagination_pageSize endpoint) 50)]> ∅),
       {| allResults := allResults st; page := page st;
          offset := offset st + int_or (pagination_pageSize endpoint) 50;
          hasMore := hasMore st; loopCounter := loopCounter st |})
  | _ =>
      (∅,
       {| allResults := allResults st; page := page st; offset := offset st;
          hasMore := false; loopCounter := loopCounter st |})
  end.

(** [endpoint.body ? JSON.parse(replaceVariables(endpoint.body, requestVars)) : {}] *)
Definition parseBody (endpoint : ApiConfig) (requestVars : gmap string JsVal)
  : Completion JsVal :=
  match body endpoint with
  | Some b => if String.eqb b "" then Normal (VObj [])
              else JSON_parse (replaceVariables b requestVars)
  | None => Normal (VObj [])
  end.

(** Lines 319-347: validation, interpolation and the request. *)
Definition buildRequest (endpoint : ApiConfig) (requestVars : gmap string JsVal)
    (options : option RequestOptions) : Completion AxiosRequestConfig :=
  let invalidVars := validateVariables endpoint (keys requestVars) in
  if (0 <? length invalidVars)%nat then
    Threw (Error ("The following variables are not defined: " +:+ join ", " invalidVars))
  else
    let headers :=
      List.map (fun '(key, value) => (key, replaceVariables value requestVars))
               (default [] (headers endpoint)) in
    let queryParams :=
      List.map (fun '(key, value) => (key, replaceVariables value requestVars))
               (default [] (queryParams endpoint)) in
    bind (parseBody endpoint requestVars)
      (fun body =>
         let url := replaceVariables (composeUrl (urlHost endpoint) (urlPath endpoint))
                                     requestVars in
         Normal {| rq_method := method endpoint;
                   rq_url := url;
                   rq_headers := headers;
                   rq_data := body;
                   rq_params := queryParams;
                   rq_timeout := int_or (options ≫= timeout) 60000 |}).

(** Lines 352-378: the checks on the response; the result is
    [response.data]. *)
Definition checkResponse (endpoint : ApiConfig) (rq : AxiosRequestConfig)
    (res : AxiosResult) : Completion JsVal :=
  match res with
  | AxThrew e => Threw e
  | AxUndefined =>
      Threw (TypeError "Cannot read properties of undefined (reading 'status')")
  | AxResponse response =>
      let st := status response in
      if negb (bool_decide (st ∈ [200; 201; 204]%Z))
         || truthy (getPropOpt (data response) "error") then
        let error := stringify (or_else (getPropOpt (data response) "error") (data response)) in
        let message :=
          method_name (method endpoint) +:+ " " +:+ rq_url rq
            +:+ " failed with status " +:+ pretty st +:+ ". Response: "
            +:+ slice0 200 (default "undefined" error) +:+ nl
            +:+ "      Headers: " +:+ stringify_text (obj_of (rq_headers rq)) +:+ nl
            +:+ "      Body: " +:+ stringify_text (rq_data rq) +:+ nl
            +:+ "      Params: " +:+ stringify_text (obj_of (rq_params rq)) +:+ nl
            +:+ "      " in
        let message :=
          if (st =? 429)%Z then
            let retryAfter :=
              match assoc "retry-after" (rs_headers response) with
              | Some h => if String.eqb h "" then "No Retry-After header provided"
                          else "Retry-After: " +:+ h
              | None => "No Retry-After header provided"
              end in
            "Rate limit exceeded. " +:+ retryAfter
              +:+ ". Maximum wait time of 60s exceeded. " +:+ nl
              +:+ "        " +:+ nl +:+ "        " +:+ message
          else message in
        Threw (Error ("API call failed with status " +:+ pretty st
                        +:+ ". Response: " +:+ message))
      else
        match data response with
        | VStr html =>
            let head := toLowerCase (trim (slice0 100 html)) in
            if startsWith head "<!doctype html" || startsWith head "<html" then
              Threw (Error ("Received HTML response instead of expected JSON data from "
                              +:+ rq_url rq +:+ ". " +:+ nl
                              +:+ "        This usually indicates an error page or invalid endpoint."
                              +:+ nl +:+ "Response: " +:+ slice0 2000 html))
            else Normal (data response)
        | _ => Normal (data response)
        end
  end.

(** Lines 387-395: the walk along the parts of dataPath.  The flag
    dataPathSuccess is written and never read, so it is left out. *)
Fixpoint navigate (pathParts : list string) (responseData : JsVal) : Completion JsVal :=
  match pathParts with
  | [] => Normal responseData
  | part :: rest =>
      bind (getProp responseData part)
        (fun next =>
           if negb (truthy next) && negb (String.eqb part "$") then Normal responseData
           else navigate rest (or_else next responseData))
  end.

(** Lines 380-396 *)
Definition extractData (endpoint : ApiConfig) (responseData : JsVal) : Completion JsVal :=
  match dataPath endpoint with
  | Some path =>
      if String.eqb path "" then Normal responseData
      else navigate (split "." path) responseData
  | None => Normal responseData
  end.

(** [responseData.length < endpoint.pagination?.pageSize] *)
Definition shorter_than_page (endpoint : ApiConfig) (n : nat) : bool :=
  match pagination_pageSize endpoint with
  | Some size => (Z.of_nat n <? size)%Z
  | None => false
  end.

(** Lines 398-417 *)
Definition accumulate (endpoint : ApiConfig) (responseData : JsVal) (st : LoopState)
  : LoopState :=
  match responseData with
  | VArr items =>
      let hasMore1 := if shorter_than_page endpoint (length items) then false
                      else hasMore st in
      if negb (bool_decide (stringify (VArr items) = stringify (VArr (allResults st)))) then
        {| allResults := allResults st ++ items; page := page st; offset := offset st;
           hasMore := hasMore1; loopCounter := loopCounter st + 1 |}
      else
        {| allResults := allResults st; page := page st; offset := offset st;
           hasMore := false; loopCounter := loopCounter st + 1 |}
  | _ =>
      if truthy responseData && bool_decide (length (allResults st) = 0%nat) then
        {| allResults := allResults st ++ [responseData]; page := page st;
           offset := offset st; hasMore := false; loopCounter := loopCounter st + 1 |}
      else
        {| allResults := allResults st; page := page st; offset := offset st;
           hasMore := false; loopCounter := loopCounter st + 1 |}
  end.

(** One pass through the body of the while loop. *)
Definition iteration (endpoint : ApiConfig) (allVariables : gmap string JsVal)
    (options : option RequestOptions) (callAxios : HttpCaller)
    (st : LoopState) (tr : Trace) : Completion LoopState * Trace :=
  let '(paginationVars, st1) := paginate endpoint st in
  let requestVars := allVariables ∪ paginationVars in
  let tr1 := log_iteration paginationVars requestVars tr in
  match buildRequest endpoint requestVars options with
  | Threw e => (Threw e, tr1)
  | Normal axiosConfig =>
      let response := callAxios (length (httpCalls tr1)) axiosConfig options in
      let tr2 := log_call axiosConfig tr1 in
      (bind (checkResponse endpoint axiosConfig response)
         (fun responseData =>
            bind (extractData endpoint responseData)
              (fun responseData => Normal (accumulate endpoint responseData st1))),
       tr2)
  end.

Record CallResult := { result_data : JsVal }.

(** Lines 420-422 *)
Definition finish (st : LoopState) : CallResult :=
  {| result_data := match allResults st with
                    | [single] => single
                    | all => VArr all
                    end |}.

(** The while loop of lines 302-418.  [None] means that [fuel] passes
    were not enough to leave the loop. *)
Fixpoint callEndpoint_loop (fuel : nat) (endpoint : ApiConfig)
    (allVariables : gmap string JsVal) (options : option RequestOptions)
    (callAxios : HttpCaller) (st : LoopState) (tr : Trace)
  : option (Completion CallResult) * Trace :=
  if hasMore st && (loopCounter st <=? 500)%Z then
    match fuel with
    | O => (None, tr)
    | S fuel' =>
        match iteration endpoint allVariables options callAxios st tr with
        | (Threw e, tr') => (Some (Threw e), tr')
        | (Normal st', tr') =>
            callEndpoint_loop fuel' endpoint allVariables options callAxios st' tr'
        end
    end
  else (Some (Normal (finish st)), tr).

Definition initial_state : LoopState :=
  {| allResults := []; page := 1; offset := 0; hasMore := true; loopCounter := 0 |}.

(** [{ ...payload, ...credentials }] *)
Definition merge_vars (payload credentials : gmap string JsVal) : gmap string JsVal :=
  credentials ∪ payload.

Definition callEndpoint_fuel : nat := 502.

Definition callEndpoint (endpoint : ApiConfig) (payload credentials : gmap string JsVal)
    (options : option RequestOptions) (callAxios : HttpCaller)
  : option (Completion CallResult) * Trace :=
  callEndpoint_loop callEndpoint_fuel endpoint (merge_vars payload credentials)
    options callAxios initial_state no_trace.

(** The loop heads of a run: the state and trace with which the condition
    of the while loop is evaluated, from the first pass on. *)
Inductive loop_head (endpoint : ApiConfig) (payload credentials : gmap string JsVal)
    (options : option RequestOptions) (callAxios : HttpCaller)
  : LoopState -> Trace -> Prop :=
| head_first :
    loop_head endpoint payload credentials options callAxios initial_state no_trace
| head_next st tr st' tr' :
    loop_head endpoint payload credentials options callAxios st tr ->
    hasMore st = true ->
    (loopCounter st <= 500)%Z ->
    iteration endpoint (merge_vars payload credentials) options callAxios st tr
      = (Normal st', tr') ->
    loop_head endpoint payload credentials options callAxios st' tr'.

End Api.

(* ===================================================================== *)
(** * llm-client.ts                                                      *)
(* ===================================================================== *)

Module LlmClient.
Import Js.

(** [process.env] *)
Definition Environment := string -> option string.

(** [a || b] on strings that may be [undefined]: [undefined] and the
    empty string are falsy. *)
Definition str_or (a b : option string) : option string :=
  match a with
  | Some s => if String.eqb s "" then b else a
  | None => b
  end.

Record ClientOptions := {
  apiKey : option string;
  baseURL : option string;
  defaultHeaders : list (string * string)
}.

Definition useOpenRouter (env : Environment) : bool :=
  bool_decide (env "USE_OPENROUTER" = Some "true").

(** The argument that createLLMClient passes to [new OpenAI(..)] *)
Definition createLLMClient_options (env : Environment) : ClientOptions :=
  if useOpenRouter env then
    {| apiKey := env "OPENROUTER_API_KEY";
       baseURL := str_or (env "OPENROUTER_API_BASE_URL") (Some "https://openrouter.ai/api/v1");
       defaultHeaders := [("HTTP-Referer", "https://superglue.ai");
                          ("X-Title", "Superglue App")] |}
  else
    {| apiKey := env "OPENAI_API_KEY";
       baseURL := env "OPENAI_API_BASE_URL";
       defaultHeaders := [] |}.

Definition getModelName (env : Environment) (schemaGeneration : bool) : option string :=
  if useOpenRouter env then
    if schemaGeneration then
      str_or (env "OPENROUTER_SCHEMA_MODEL")
             (str_or (env "OPENROUTER_MODEL") (Some "openai/gpt-4o"))
    else str_or (env "OPENROUTER_MODEL") (Some "openai/gpt-4o")
  else
    if schemaGeneration then str_or (env "SCHEMA_GENERATION_MODEL") (env "OPENAI_MODEL")
    else env "OPENAI_MODEL".

Definition isOSeriesModel (modelName : option string) : bool :=
  includes (String_opt modelName) "gpt-4o" || includes (String_opt modelName) "o3".

(** ** Chat completions *)

Inductive Role := system | user | assistant.

Record Message := {
  role : Role;
  content : JsVal
}.

Inductive ResponseFormat :=
| json_schema (name : string) (schema : JsVal)
| json_object.

(** The argument of [openai.chat.completions.create]; a [temperature] of
    [None] is the property left [undefined]. *)
Record ChatRequest := {
  model : option string;
  temperature : option Q;
  messages : list Message;
  response_format : ResponseFormat
}.

(** What [await openai.chat.completions.create(..)] followed by
    [.choices[0].message.content] can do: throw (the call rejects, or
    there is no first choice), or give the content, a string or [null]. *)
Inductive LlmResult :=
| LlmThrew (e : JsError)
| LlmContent (content : JsVal).

(** The completions endpoint of a client; the first argument counts the
    calls made before this one. *)
Definition ChatClient := nat -> ChatRequest -> LlmResult.

(** [Math.min(a * b, 1)] *)
Definition ramp (a b : Q) : Q := Qmin (a * b) 1.

(** Everything the synthesizers use that is not in the sources at hand:
    the process environment, the OpenAI constructor and service, the
    clock, the random source, the data store, and the helpers of
    tools.ts, prompts.ts, documentation.ts and of external packages. *)
Record Externals := {
  env : Environment;
  (** [new OpenAI(options)]: throws, or gives a client *)
  openai : ClientOptions -> Completion ChatClient;
  (** [new Date()], as the ISO text that JSON.stringify shows *)
  now : string;
  (** [crypto.randomUUID()] *)
  randomUUID : string;
  (** [createHash('md5').update(text).digest('hex')] *)
  md5 : string -> string;
  (** getSchemaFromData of tools.ts *)
  getSchemaFromData : JsVal -> JsVal;
  (** applyJsonataWithValidation of tools.ts: data, expression, schema *)
  applyJsonataWithValidation : JsVal -> JsVal -> JsVal -> Completion (bool * JsVal * JsVal);
  (** [JSON.stringify(toJsonSchema(payload, ..), null, 2)] and
      [JSON.stringify(sample(payload, 5), null, 2)] of generateMapping,
      and [JSON.stringify(schema, null, 2)] *)
  describeStructure : JsVal -> string;
  describeSample : JsVal -> string;
  stringifyPretty : JsVal -> string;
  (** getDocumentation of documentation.ts: url, headers, query, path *)
  getDocumentation : JsVal -> JsVal -> JsVal -> JsVal -> string;
  (** [datastore.getTransformConfigFromRequest(input, data, orgId)] *)
  getTransformConfigFromRequest : JsVal -> JsVal -> option string -> Completion JsVal;
  (** [new Validator().validate({}, schema)] of the jsonschema package *)
  validateSchema : JsVal -> Completion unit;
  (** the prompts of prompts.ts *)
  PROMPT_MAPPING : string;
  API_PROMPT : string;
  API_ERROR_HANDLING_USER_PROMPT : string;
  GENERATE_SCHEMA_PROMPT : string;
  (** the JSON schemas that zodToJsonSchema derives in generateApiConfig
      and generateExtractConfig *)
  apiDefinitionSchema : JsVal;
  extractDefinitionSchema : JsVal
}.

(** [createLLMClient()] *)
Definition createLLMClient (X : Externals) : Completion ChatClient :=
  openai X (createLLMClient_options (env X)).

End LlmClient.

(* ===================================================================== *)
(** * transform.ts: the transform synthesizer                            *)
(* ===================================================================== *)

Module Transform.
Import Js LlmClient.

Definition jsonataSchema : JsVal :=
  VObj [
    ("$schema", VStr "http://json-schema.org/draft-07/schema#");
    ("title", VStr "JSONata Expression Schema");
    ("description", VStr "Schema for validating JSONata expressions");
    ("type", VStr "object");
    ("properties", VObj [
       ("jsonata", VObj [("type", VStr "string");
                         ("description", VStr "JSONata expression")]);
       ("confidence", VObj [
          ("type", VStr "number");
          ("description", VStr
             ("Confidence score for the JSONata expression between 0 and 100. " +:+ nl
              +:+ "      Give a low confidence score if there are missing fields in the source data. "
              +:+ nl
              +:+ "      Give a low confidence score if there are multiple options for a field and it is unclear which one to choose."
              +:+ nl +:+ "      "))]);
       ("confidence_reasoning", VObj [("type", VStr "string");
                                      ("description", VStr "Reasoning for the confidence score")])]);
    ("required", VArr [VStr "jsonata"; VStr "confidence"; VStr "confidence_reasoning"]);
    ("additionalProperties", VBool false)
  ].

(** Lines 77-90 *)
Definition userPrompt (X : Externals) (schema payload instruction : JsVal) : string :=
  "Given a source data and structure, create a jsonata expression in JSON FORMAT."
  +:+ nl +:+ nl
  +:+ "Important: The output should be a jsonata expression creating an object that matches the following schema:"
  +:+ nl +:+ stringifyPretty X schema +:+ nl +:+ nl
  +:+ (if truthy instruction
       then "The instruction from the user is: " +:+ toString instruction else "")
  +:+ nl +:+ nl +:+ "------" +:+ nl +:+ nl
  +:+ "Source Data Structure:" +:+ nl +:+ describeStructure X payload +:+ nl +:+ nl
  +:+ "Source data Sample:" +:+ nl +:+ slice0 (10 * 1000) (describeSample X payload).

(** Lines 92-97: the messages that an attempt works with *)
Definition initialLog (X : Externals) (schema payload instruction : JsVal)
    (messages : option (list Message)) : list Message :=
  match messages with
  | Some m => m
  | None => [ {| role := system; content := VStr (PROMPT_MAPPING X) |};
              {| role := user;
                 content := VStr (userPrompt X schema payload instruction) |} ]
  end.

(** How the [try] block of generateMapping ends: with the content it
    returns, or in the [catch] block with the thrown value and with the
    variable [messages] as it stands then ([None]: still [undefined]). *)
Inductive Attempt :=
| Mapped (content : JsVal)
| Failed (error : JsError) (messages : option (list Message)).

(** The temperature of lines 99-100 *)
Definition mappingTemperature (X : Externals) (retry : nat) : option Q :=
  if isOSeriesModel (getModelName (env X) false) then None
  else Some (ramp (inject_Z (Z.of_nat retry)) (1 # 10)).

(** Lines 117-128: the completion is parsed, its expression applied to
    the payload and the result validated; the value is the content that
    generateMapping returns. *)
Definition checkMapping (X : Externals) (schema payload : JsVal)
    (assistantResponse : string) : Completion JsVal :=
  bind (JSON_parse assistantResponse)
    (fun content =>
       bind (getProp content "jsonata")
         (fun expression =>
            bind (applyJsonataWithValidation X payload expression schema)
              (fun '(success, _, error) =>
                 if (success : bool) then Normal content
                 else Threw (Error ("Validation failed: " +:+ toString error))))).

(** The argument of [openai.chat.completions.create] in generateMapping *)
Definition mappingRequest (X : Externals) (retry : nat) (messages : list Message)
  : ChatRequest :=
  {| model := getModelName (env X) false;
     temperature := mappingTemperature X retry;
     messages := messages;
     response_format := json_schema "required_format" jsonataSchema |}.

(** Lines 75-128: the [try] block.  [calls] are the requests made to the
    model so far. *)
Definition attemptMapping (X : Externals) (schema payload instruction : JsVal)
    (retry : nat) (messages : option (list Message)) (calls : list ChatRequest)
  : Attempt * list ChatRequest :=
  match createLLMClient X with
  | Threw e => (Failed e messages, calls)
  | Normal openai =>
      let messages := initialLog X schema payload instruction messages in
      let rq := mappingRequest X retry messages in
      let calls' := calls ++ [rq] in
      match openai (length calls) rq with
      | LlmThrew e => (Failed e (Some messages), calls')
      | LlmContent c =>
          let assistantResponse := toString c in
          let messages :=
            messages ++ [ {| role := assistant; content := VStr assistantResponse |} ] in
          match checkMapping X schema payload assistantResponse with
          | Normal content => (Mapped content, calls')
          | Threw e => (Failed e (Some messages), calls')
          end
      end
  end.

(** generateMapping with its recursion unrolled at most [fuel] times.
    The result [None] means that the fuel ran out; [VNull] is the
    [null] that the function returns. *)
Fixpoint generateMapping_loop (fuel : nat) (X : Externals)
    (schema payload instruction : JsVal) (retry : nat)
    (messages : option (list Message)) (calls : list ChatRequest)
  : option (Completion JsVal) * list ChatRequest :=
  match fuel with
  | O => (None, calls)
  | S fuel' =>
      match attemptMapping X schema payload instruction retry messages calls with
      | (Mapped content, calls') => (Some (Normal content), calls')
      | (Failed error messages', calls') =>
          if (retry <? 5)%nat then
            match messages' with
            | None =>
                (Some (Threw (TypeError
                                "Cannot read properties of undefined (reading 'push')")),
                 calls')
            | Some m =>
                generateMapping_loop fuel' X schema payload instruction (S retry)
                  (Some (m ++ [ {| role := user; content := VStr (message error) |} ]))
                  calls'
            end
          else (Some (Normal VNull), calls')
      end
  end.

Definition generateMapping (X : Externals) (schema payload instruction : JsVal)
    (retry : nat) (messages : option (list Message))
  : option (Completion JsVal) * list ChatRequest :=
  generateMapping_loop (S (5 - retry)) X schema payload instruction retry messages [].

(** Lines 26-28 *)
Definition isEmptyData (data : JsVal) : bool :=
  negb (truthy data)
  || match data with
     | VArr xs => bool_decide (length xs = 0%nat)
     | _ => false
     end
  || match data with
     | VArr _ | VObj _ => bool_decide (length (objectKeys data) = 0%nat)
     | _ => false
     end.

Definition requestHash (X : Externals) (input data : JsVal) : string :=
  md5 X (stringify_text (VObj [("request", input);
                               ("payloadKeys", getSchemaFromData X data)])).

Definition prepareTransform (X : Externals) (fromCache : bool) (input data : JsVal)
    (orgId : option string) : option (Completion JsVal) * list ChatRequest :=
  let responseSchema := getPropOpt input "responseSchema" in
  if negb (truthy responseSchema) || bool_decide (length (objectKeys responseSchema) = 0%nat)
  then (Some (Normal VNull), [])
  else if isEmptyData data then (Some (Normal VNull), [])
  else
    let synthesize :=
      let hash := requestHash X input data in
      if truthy (getPropOpt input "responseMapping") then
        (Some (Normal (VObj (spread [("id", VStr hash);
                                     ("createdAt", VStr (now X));
                                     ("updatedAt", VStr (now X));
                                     ("responseMapping", getPropOpt input "responseMapping");
                                     ("responseSchema", responseSchema)]
                                    input))), [])
      else
        match generateMapping X responseSchema data (getPropOpt input "instruction") 0 None with
        | (Some (Normal mapping), calls) =>
            if truthy mapping then
              (Some (Normal (VObj
                 (assoc_set "confidence_reasoning" (getPropOpt mapping "confidence_reasoning")
                 (assoc_set "confidence" (getPropOpt mapping "confidence")
                 (assoc_set "responseMapping" (getPropOpt mapping "jsonata")
                 (assoc_set "responseSchema" responseSchema
                 (spread [("id", VStr hash);
                          ("createdAt", VStr (now X));
                          ("updatedAt", VStr (now X))] input))))))), calls)
            else (Some (Normal VNull), calls)
        | (other, calls) => (other, calls)
        end in
    if fromCache then
      match getTransformConfigFromRequest X input data orgId with
      | Threw e => (Some (Threw e), [])
      | Normal cached =>
          if truthy cached then (Some (Normal (VObj (spread (ownProperties cached) input))), [])
          else synthesize
      end
    else synthesize.

End Transform.

(* ===================================================================== *)
(** * schema.ts: the schema generator                                    *)
(* ===================================================================== *)

Module Schema.
Import Js LlmClient.

(** Lines 264-271: the temperature property of the request; the outer
    [Threw] is the TypeError of [modelName.startsWith] on [undefined]. *)
Definition schemaTemperature (modelName : option string) (retry : nat)
  : Completion (option Q) :=
  let temperature :=
    if isOSeriesModel modelName && (0 <? retry)%nat
    then ramp (3 # 10) (inject_Z (Z.of_nat retry)) else 0%Q in
  match modelName with
  | Some name =>
      if String.eqb name "o3-mini" then Normal (Some 0%Q)
      else if startsWith name "gpt-4" then Normal (Some temperature)
      else Normal None
  | None =>
      Threw (TypeError "Cannot read properties of undefined (reading 'startsWith')")
  end.

Definition attemptSchemaGeneration (X : Externals) (messages : list Message)
    (retry : nat) (calls : list ChatRequest) : Completion JsVal * list ChatRequest :=
  match createLLMClient X with
  | Threw e => (Threw e, calls)
  | Normal openai =>
      let modelName := getModelName (env X) true in
      match schemaTemperature modelName retry with
      | Threw e => (Threw e, calls)
      | Normal temperature =>
          let completionRequest :=
            {| model := modelName; temperature := temperature;
               messages := messages; response_format := json_object |} in
          let calls' := calls ++ [completionRequest] in
          match openai (length calls) completionRequest with
          | LlmThrew e => (Threw e, calls')
          | LlmContent c =>
              (bind (JSON_parse (toString c))
                 (fun generatedSchema =>
                    let generatedSchema :=
                      if truthy (getPropOpt generatedSchema "jsonSchema")
                      then getPropOpt generatedSchema "jsonSchema"
                      else generatedSchema in
                    if negb (truthy generatedSchema)
                       || bool_decide (length (objectKeys generatedSchema) = 0%nat)
                    then Threw (Error "No schema generated")
                    else bind (validateSchema X generatedSchema)
                           (fun _ => Normal generatedSchema)),
               calls')
          end
      end
  end.

(** The while loop of generateSchema; [None]: out of fuel. *)
Fixpoint generateSchema_loop (fuel : nat) (X : Externals) (messages : list Message)
    (retryCount : nat) (calls : list ChatRequest)
  : option (Completion JsVal) * list ChatRequest :=
  if (retryCount <=? 3)%nat then
    match fuel with
    | O => (None, calls)
    | S fuel' =>
        match attemptSchemaGeneration X messages retryCount calls with
        | (Normal schema, calls') => (Some (Normal schema), calls')
        | (Threw error, calls') =>
            if (3 <? S retryCount)%nat then (Some (Threw error), calls')
            else
              generateSchema_loop fuel' X
                (messages ++ [ {| role := user;
                                  content := VStr ("The previous attempt failed with error: "
                                                   +:+ message error
                                                   +:+ ". Please try again.") |} ])
                (S retryCount) calls'
        end
    end
  else (Some (Threw (Error "Unexpected error in schema generation")), calls).

Definition generateSchema (X : Externals) (instruction responseData : string)
  : option (Completion JsVal) * list ChatRequest :=
  generateSchema_loop 4 X
    [ {| role := system; content := VStr (GENERATE_SCHEMA_PROMPT X) |};
      {| role := user;
         content := VStr ("Instruction: " +:+ instruction +:+ nl +:+ nl
                          +:+ "Response Data: " +:+ responseData) |} ]
    0 [].

End Schema.

(* ===================================================================== *)
(** * api.ts: the endpoint synthesizer                                   *)
(* ===================================================================== *)

Module ApiSynth.
Import Js Tools LlmClient.

(** [cond ? text : ''] of the template literal *)
Definition when (cond : JsVal) (text : string) : string :=
  if truthy cond then text else "".

(** Lines 460-482 *)
Definition initialUserMessage (apiConfig : JsVal) (documentation : string)
    (vars : list string) : Message :=
  let field := getPropOpt apiConfig in
  let userProvidedAdditionalInfo :=
    truthy (field "headers") || truthy (field "queryParams") || truthy (field "body")
    || truthy (field "authentication") || truthy (field "dataPath")
    || truthy (field "pagination") || truthy (field "method") in
  {| role := user;
     content := VStr (
       "Generate API configuration for the following:" +:+ nl +:+ nl
       +:+ "Instructions: " +:+ toString (field "instruction") +:+ nl +:+ nl
       +:+ "Base URL: " +:+ composeUrlOf apiConfig +:+ nl +:+ nl
       +:+ (if userProvidedAdditionalInfo
            then "Also, the user provided the following information, which is probably correct: "
            else "") +:+ nl
       +:+ (if userProvidedAdditionalInfo
            then "Ensure to use the provided information. You must try them at least where they make sense."
            else "") +:+ nl
       +:+ when (field "headers") ("Headers: " +:+ stringify_text (field "headers")) +:+ nl
       +:+ when (field "queryParams")
                ("Query Params: " +:+ stringify_text (field "queryParams")) +:+ nl
       +:+ when (field "body") ("Body: " +:+ stringify_text (field "body")) +:+ nl
       +:+ when (field "authentication")
                ("Authentication: " +:+ toString (field "authentication")) +:+ nl
       +:+ when (field "dataPath") ("Data Path: " +:+ toString (field "dataPath")) +:+ nl
       +:+ when (field "pagination")
                ("Pagination: " +:+ stringify_text (field "pagination")) +:+ nl
       +:+ when (field "method") ("Method: " +:+ toString (field "method")) +:+ nl +:+ nl
       +:+ "Available variables: " +:+ join ", " vars +:+ nl +:+ nl
       +:+ "Documentation: " +:+ slice0 (80 * 1000) documentation) |}.

(** Lines 484-491 *)
Definition subsequentUserMessage (X : Externals) (apiConfig : JsVal)
    (lastError : option string) : Message :=
  {| role := user;
     content := VStr (replace_first "{previous_config}" (stringify_text apiConfig)
                        (replace_first "{error}" (default "null" lastError)
                           (API_ERROR_HANDLING_USER_PROMPT X))) |}.

(** Lines 502-503: [(messages.length - 2) / 2], or 0 on the first call *)
Definition retryCount (previousMessages messages : list Message) : Q :=
  if (0 <? length previousMessages)%nat
  then (inject_Z (Z.of_nat (length messages)) - 2) / 2
  else 0.

(** Lines 505-508 *)
Definition synthesisTemperature (X : Externals) (previousMessages messages : list Message)
  : option Q :=
  if isOSeriesModel (getModelName (env X) false) then None
  else Some (ramp (retryCount previousMessages messages) (1 # 10)).

(** generateApiConfig: the result is the pair of the configuration and
    the message log; the second component lists the requests made to the
    model. *)
Definition generateApiConfig (X : Externals) (apiConfig : JsVal) (documentation : string)
    (vars : list string) (lastError : option string) (previousMessages : list Message)
  : Completion (JsVal * list Message) * list ChatRequest :=
  match createLLMClient X with
  | Threw e => (Threw e, [])
  | Normal openai =>
      let systemMessage := {| role := system; content := VStr (API_PROMPT X) |} in
      let messages :=
        if (0 <? length previousMessages)%nat
        then previousMessages ++ [subsequentUserMessage X apiConfig lastError]
        else [systemMessage; initialUserMessage apiConfig documentation vars] in
      let modelName := getModelName (env X) false in
      let rq := {| model := modelName;
                   temperature := synthesisTemperature X previousMessages messages;
                   messages := messages;
                   response_format := json_schema "api_definition" (apiDefinitionSchema X) |} in
      match openai 0%nat rq with
      | LlmThrew e => (Threw e, [rq])
      | LlmContent c =>
          (bind (JSON_parse (toString c))
             (fun generatedConfig =>
                let messages := messages ++ [ {| role := assistant; content := c |} ] in
                let own := getPropOpt apiConfig in
                bind (getProp generatedConfig "urlHost")
                  (fun urlHost =>
                     let gen := getPropOpt generatedConfig in
                     Normal
                       (VObj [ ("instruction", own "instruction");
                               ("urlHost", urlHost);
                               ("urlPath", gen "urlPath");
                               ("method", gen "method");
                               ("queryParams", gen "queryParams");
                               ("headers", gen "headers");
                               ("body", gen "body");
                               ("authentication", gen "authentication");
                               ("pagination", or_else (own "pagination") (gen "pagination"));
                               ("dataPath", or_else (own "dataPath") (gen "dataPath"));
                               ("documentationUrl", own "documentationUrl");
                               ("responseSchema", own "responseSchema");
                               ("responseMapping", own "responseMapping");
                               ("createdAt", or_else (own "createdAt") (VStr (now X)));
                               ("updatedAt", VStr (now X));
                               ("id", own "id") ],
                        messages))),
           [rq])
      end
  end.

(** [payload || {}] followed by [Object.keys] *)
Definition keysOf (v : JsVal) : list string :=
  if truthy v then objectKeys v else [].

Definition prepareEndpoint (X : Externals) (endpointInput payload credentials : JsVal)
    (lastError : option string) (previousMessages : list Message)
  : Completion (JsVal * list Message) * list ChatRequest :=
  let currentTime := VStr (now X) in
  let apiCallConfig :=
    VObj (assoc_set "id" (VStr (randomUUID X))
            (assoc_set "updatedAt" currentTime
               (assoc_set "createdAt" currentTime (spread [] endpointInput)))) in
  let field := getPropOpt apiCallConfig in
  let documentation :=
    getDocumentation X (or_else (field "documentationUrl") (VStr (composeUrlOf apiCallConfig)))
      (field "headers") (field "queryParams") (field "urlPath") in
  let availableVars := keysOf payload ++ keysOf credentials in
  generateApiConfig X apiCallConfig documentation availableVars lastError previousMessages.

End ApiSynth.

(* ===================================================================== *)
(** * extract.ts: the extract synthesizer                                *)
(* ===================================================================== *)

Module Extract.
Import Js Tools LlmClient.

Definition generateExtractConfig (X : Externals) (extractConfig : JsVal)
    (documentation : string) (vars : list string) (lastError : option string)
  : Completion JsVal * list ChatRequest :=
  match createLLMClient X with
  | Threw e => (Threw e, [])
  | Normal openai =>
      let modelName := getModelName (env X) false in
      let rq :=
        {| model := modelName;
           temperature := None;
           messages :=
             [ {| role := system; content := VStr (API_PROMPT X) |};
               {| role := user;
                  content := VStr (
                    "Generate API configuration for the following:" +:+ nl +:+ nl
                    +:+ "Instructions: " +:+ toString (getPropOpt extractConfig "instruction")
                    +:+ nl +:+ nl
                    +:+ "Base URL: " +:+ composeUrlOf extractConfig +:+ nl +:+ nl
                    +:+ "Documentation: " +:+ documentation +:+ nl +:+ nl
                    +:+ "Available variables: " +:+ join ", " vars +:+ nl +:+ nl
                    +:+ match lastError with
                        | Some err =>
                            if String.eqb err "" then ""
                            else "We tried to call the API but it failed with the following error:"
                                 +:+ nl +:+ err
                        | None => ""
                        end) |} ];
           response_format := json_schema "api_definition" (extractDefinitionSchema X) |} in
      match openai 0%nat rq with
      | LlmThrew e => (Threw e, [rq])
      | LlmContent c =>
          (bind (JSON_parse (toString c))
             (fun generatedConfig =>
                Normal (VObj (spread (ownProperties extractConfig) generatedConfig))),
           [rq])
      end
  end.

Definition prepareExtract (X : Externals) (extractInput payload credentials : JsVal)
    (lastError : option string) : Completion JsVal * list ChatRequest :=
  let currentTime := VStr (now X) in
  let hash :=
    md5 X (stringify_text (VObj [("request", extractInput);
                                 ("payloadKeys", getSchemaFromData X payload)])) in
  let extractConfig :=
    VObj (assoc_set "id" (VStr hash)
            (assoc_set "updatedAt" currentTime
               (assoc_set "createdAt" currentTime (spread [] extractInput)))) in
  let field := getPropOpt extractConfig in
  let documentation :=
    getDocumentation X (field "documentationUrl") (field "headers") (field "queryParams")
      VUndefined in
  let availableVars := ApiSynth.keysOf payload ++ ApiSynth.keysOf credentials in
  generateExtractConfig X extractConfig documentation availableVars lastError.

End Extract.

(* ===================================================================== *)
(** * The Queue class                                                    *)
(* ===================================================================== *)

(** JavaScript runs the methods of a Queue on one thread.  processQueue
    is an async function: called from enqueue it runs up to its [await],
    and it resumes there when the promise of the running task settles.
    So an instance changes state at two kinds of events only: a call of
    enqueue, and the settling of the task that processQueue awaits.  The
    type [T] stands for the task closures. *)

Module Queue.

Section WithTasks.
Context {T : Type}.

Record Process := {
  id : string;
  task : T
}.

(** The fields of the class, the job that processQueue has taken from
    the queue and is awaiting, and a log of the ids whose task has been
    started. *)
Record State := {
  queue : list Process;
  isProcessing : bool;
  jobSet : gset string;
  awaiting : option Process;
  started : list string
}.

(** [new Queue()] *)
Definition empty : State :=
  {| queue := []; isProcessing := false; jobSet := ∅; awaiting := None; started := [] |}.

(** The while loop of processQueue, from its condition to the [await]
    or to the assignment after the loop. *)
Definition processNext (s : State) : State :=
  match queue s with
  | job :: rest =>
      {| queue := rest; isProcessing := isProcessing s; jobSet := jobSet s;
         awaiting := Some job; started := started s ++ [id job] |}
  | [] =>
      {| queue := []; isProcessing := false; jobSet := jobSet s;
         awaiting := None; started := started s |}
  end.

(** A call of processQueue *)
Definition processQueue (s : State) : State :=
  if isProcessing s then s
  else processNext {| queue := queue s; isProcessing := true; jobSet := jobSet s;
                      awaiting := awaiting s; started := started s |}.

Definition enqueue (i : string) (t : T) (s : State) : State :=
  if bool_decide (i ∉ jobSet s) then
    processQueue {| queue := queue s ++ [ {| id := i; task := t |} ];
                    isProcessing := isProcessing s;
                    jobSet := {[ i ]} ∪ jobSet s;
                    awaiting := awaiting s; started := started s |}
  else s.

(** The awaited task settles: [succeeded] tells whether its promise was
    fulfilled or rejected.  The catch block only logs; the finally block
    deletes the id; the loop goes on. *)
Definition settle (succeeded : bool) (s : State) : State :=
  match awaiting s with
  | Some job =>
      processNext {| queue := queue s; isProcessing := isProcessing s;
                     jobSet := jobSet s ∖ {[ id job ]};
                     awaiting := None; started := started s |}
  | None => s
  end.

Inductive Event :=
| Enqueue (i : string) (t : T)
| Settle (succeeded : bool).

Definition step (s : State) (e : Event) : State :=
  match e with
  | Enqueue i t => enqueue i t s
  | Settle ok => settle ok s
  end.

(** The states of an instance: those that events lead to from the new
    instance. *)
Definition run (events : list Event) : State := fold_left step events empty.

(** The jobs in flight: the one being awaited, then the queued ones. *)
Definition inFlight (s : State) : list Process :=
  match awaiting s with
  | Some job => job :: queue s
  | None => queue s
  end.

Definition inFlightIds (s : State) : list string := id <$> inFlight s.

(** Several tasks settling one after the other *)
Definition settleAll (outcomes : list bool) (s : State) : State :=
  fold_left (fun s ok => settle ok s) outcomes s.

(** What holds of every state of an instance: no id is in flight twice,
    jobSet holds exactly the ids in flight, and processQueue is awaiting
    a task exactly while isProcessing is set. *)
Definition consistent (s : State) : Prop :=
  NoDup (inFlightIds s)
  ∧ (∀ i, i ∈ jobSet s ↔ i ∈ inFlightIds s)
  ∧ (isProcessing s = false → inFlight s = [])
  ∧ (isProcessing s = true → is_Some (awaiting s)).

End WithTasks.

Arguments Process : clear implicits.
Arguments State : clear implicits.
Arguments Event : clear implicits.

End Queue.

(* ===================================================================== *)
(** * The specification's own words, for comparison with the code        *)
(* ===================================================================== *)

Module Spec.
Import Js Tools Api.



Definition reserved : list string := ["page"; "offset"; "limit"].


(** Section 4.5: a name contains a text. *)
Definition contains (name text : string) : Prop :=
  ∃ pre post : string, name = pre +:+ text +:+ post.




(** The pagination variables of pass number [i] (from 0) when pageSize is
    unset. *)
Definition default_vars (endpoint : ApiConfig) (i : nat) (pv : gmap string JsVal) : Prop :=
  pv !! "limit" = Some (VInt 50)
  ∧ (pagination_type endpoint = Some OFFSET_BASED →
     pv !! "offset" = Some (VInt (50 * Z.of_nat i)))
  ∧ (pagination_type endpoint = Some PAGE_BASED →
     pv !! "page" = Some (VInt (1 + Z.of_nat i))).

End Spec.

(* ===================================================================== *)
(** * Concrete configurations and servers                                *)
(* ===================================================================== *)

Module Examples.
Import Js Tools Api.

Definition config (path : option string) (query hdrs : option (list (string * string)))
    (body : option string) (pag : option Pagination) (dp : option string) : ApiConfig :=
  {| id := "cfg"; urlHost := "https://api.example.com"; urlPath := path;
     instruction := "list the items"; method := GET;
     queryParams := query; headers := hdrs; body := body;
     authentication := None; pagination := pag; dataPath := dp |}.

Definition ok (d : JsVal) : AxiosResult :=
  AxResponse {| status := 200; data := d; rs_headers := [] |}.

(** A server that answers the n-th call with the n-th page of a list and
    with an empty array afterwards. *)
Definition serve (pages : list JsVal) : HttpCaller :=
  fun n _ _ => ok (default (VArr []) (pages !! n)).

(** An endpoint with one item per page and no last page in sight *)
Definition endless : HttpCaller := fun n _ _ => ok (VArr [VInt (Z.of_nat n)]).

Definition paged (t : PaginationType) (size : option Z) : ApiConfig :=
  config (Some "/items") (Some [("page", "{page}"); ("offset", "{offset}");
                                ("limit", "{limit}")])
         None None (Some {| ptype := t; pageSize := size |}) None.

(** The configuration of scenario 2 of the specification: the header
    refers to [apikey] while the credentials hold [token]. *)
Definition cfg_apikey : ApiConfig :=
  config (Some "/users/{userId}") (Some [("q", "{term}")])
         (Some [("Authorization", "Bearer {apikey}")]) None None None.

Definition creds_token : gmap string JsVal := {[ "token" := VStr "x" ]}.
Definition payload_user : gmap string JsVal := {[ "userId" := VInt 7 ]}.

(** A JSON body whose only placeholder is bound *)
Definition cfg_search : ApiConfig :=
  config (Some "/search") None None (Some (dq "{'q': '{term}'}")) None None.


Definition payload_plain : gmap string JsVal := {[ "term" := VStr "rocq" ]}.

(** ** A world for the synthesizers

    The theorems hold for every [Externals]; the examples need one to run
    in.  Its digest, schema inference and expression evaluator are
    stand-ins with the right types, not the real functions. *)

Import LlmClient.

Definition env_of (vars : list (string * string)) : Environment :=
  fun name => assoc name vars.

(** Accepts exactly one expression, the good one of scenario 4. *)
Definition evaluator (data expression schema : JsVal)
  : Completion (bool * JsVal * JsVal) :=
  match expression with
  | VStr e =>
      if String.eqb e (dq "{'name': user.first & ' ' & user.last}")
      then Normal (true, VObj [("name", VStr "J D")], VUndefined)
      else Normal (false, VUndefined, VStr "instance requires property name")
  | _ => Normal (false, VUndefined, VStr "no expression")
  end.

Definition world (vars : list (string * string)) (llm : ChatClient) (uuid : string)
  : Externals :=
  {| env := env_of vars;
     openai := fun _ => Normal llm;
     now := "2025-01-01T00:00:00.000Z";
     randomUUID := uuid;
     md5 := fun text => "digest of " +:+ text;
     getSchemaFromData := fun data => VArr (VStr <$> objectKeys data);
     applyJsonataWithValidation := evaluator;
     describeStructure := stringify_text;
     describeSample := stringify_text;
     stringifyPretty := stringify_text;
     getDocumentation := fun _ _ _ _ => "GET /items lists the items";
     getTransformConfigFromRequest := fun _ _ _ => Normal VNull;
     validateSchema := fun _ => Normal tt;
     PROMPT_MAPPING := "You write JSONata expressions.";
     API_PROMPT := "You write API configurations.";
     API_ERROR_HANDLING_USER_PROMPT := "The call failed: {error}. Previous: {previous_config}";
     GENERATE_SCHEMA_PROMPT := "You write JSON schemas.";
     apiDefinitionSchema := VObj [("type", VStr "object")];
     extractDefinitionSchema := VObj [("type", VStr "object")] |}.

(** Scenario 4: the first draft uses fields that do not exist, the second
    one is right. *)
Definition drafts : ChatClient :=
  fun n _ =>
    if (n =? 0)%nat
    then LlmContent (VStr (dq "{'jsonata': 'user.firstName & user.lastName', 'confidence': 60, 'confidence_reasoning': 'guess'}"))
    else LlmContent (VStr (dq "{'jsonata': '{\'name\': user.first & \' \' & user.last}', 'confidence': 95, 'confidence_reasoning': 'direct'}")).

Definition name_schema : JsVal :=
  VObj [("type", VStr "object");
        ("properties", VObj [("name", VObj [("type", VStr "string")])])].

Definition user_data : JsVal :=
  VObj [("user", VObj [("first", VStr "J"); ("last", VStr "D")])].

Definition turbo : list (string * string) := [("OPENAI_MODEL", "gpt-4-turbo")].
Definition gpt4o : list (string * string) := [("OPENAI_MODEL", "gpt-4o")].

(** A model that answers every request with the same configuration *)
Definition answers (text : string) : ChatClient := fun _ _ => LlmContent (VStr text).

Definition items_config : string :=
  dq "{'urlHost': 'https://api.example.com', 'urlPath': '/items', 'method': 'GET', 'authentication': 'NONE'}".

Definition items_input : JsVal :=
  VObj [("urlHost", VStr "https://api.example.com");
        ("instruction", VStr "list the items")].

Definition full_name_input : JsVal :=
  VObj [("instruction", VStr "full name");
        ("responseSchema", name_schema);
        ("responseMapping", VStr (dq "{'name': user.first & ' ' & user.last}"))].

End Examples.

(* ===================================================================== *)
(** * extract.ts: the download and the processing of the file            *)
(* ===================================================================== *)

Module DecompressionMethod.
Inductive t := GZIP | DEFLATE | NONE | AUTO | ZIP.
End DecompressionMethod.

Module FileType.
Inductive t := CSV | JSON | XML | AUTO.
End FileType.

Module ExtractCall.
Import Js Tools Api.

(** The fields of an ExtractConfig that callExtract and processFile
    read. *)
Record ExtractConfig := {
  urlHost : string;
  urlPath : option string;
  method : HttpMethod;
  queryParams : option (list (string * string));
  headers : option (list (string * string));
  body : option string;
  decompressionMethod : option DecompressionMethod.t;
  fileType : option FileType.t;
  dataPath : option string
}.

(** The argument of callAxios in callExtract: the properties of the
    executor's request and [responseType]. *)
Record ExtractRequest := {
  config : AxiosRequestConfig;
  responseType : string
}.

(** callAxios of tools.ts as callExtract uses it: one call. *)
Definition FileCaller := ExtractRequest -> option RequestOptions -> AxiosResult.

(** Lines 38-55 *)
Definition extractRequest (extract : ExtractConfig) (payload credentials : gmap string JsVal)
    (options : option RequestOptions) : ExtractRequest :=
  let allVariables := merge_vars payload credentials in
  let headers :=
    List.map (fun '(key, value) => (key, replaceVariables value allVariables))
             (default [] (headers extract)) in
  let queryParams :=
    List.map (fun '(key, value) => (key, replaceVariables value allVariables))
             (default [] (queryParams extract)) in
  let body :=
    match body extract with
    | Some b => if String.eqb b "" then VUndefined
                else VStr (replaceVariables b allVariables)
    | None => VUndefined
    end in
  let url := composeUrl (urlHost extract) (urlPath extract) in
  {| config := {| rq_method := method extract;
                  rq_url := url;
                  rq_headers := headers;
                  rq_data := body;
                  rq_params := queryParams;
                  rq_timeout := int_or (options ≫= timeout) 300000 |};
     responseType := "arraybuffer" |}.

(** Lines 59-70: the check of the response; the result is
    [response.data]. *)
Definition checkDownload (extract : ExtractConfig) (rq : ExtractRequest)
    (res : AxiosResult) : Completion JsVal :=
  match res with
  | AxThrew e => Threw e
  | AxUndefined =>
      Threw (TypeError "Cannot read properties of undefined (reading 'status')")
  | AxResponse response =>
      let st := status response in
      if negb (bool_decide (st ∈ [200; 201; 204]%Z))
         || truthy (getPropOpt (data response) "error") then
        let error :=
          quote (toString (or_else (getPropOpt (data response) "error") (data response))) in
        let message :=
          method_name (method extract) +:+ " " +:+ rq_url (config rq)
            +:+ " failed with status " +:+ pretty st +:+ ". Response: " +:+ error +:+ nl
            +:+ "    Headers: " +:+ stringify_text (obj_of (rq_headers (config rq))) +:+ nl
            +:+ "    Body: " +:+ stringify_text (rq_data (config rq)) +:+ nl
            +:+ "    Params: " +:+ stringify_text (obj_of (rq_params (config rq))) +:+ nl
            +:+ "    " in
        Threw (Error ("API call failed with status " +:+ pretty st
                        +:+ ". Response: " +:+ message))
      else Normal (data response)
  end.

(** callExtract: the result and the request that was handed to
    callAxios. *)
Definition callExtract (extract : ExtractConfig) (payload credentials : gmap string JsVal)
    (options : option RequestOptions) (callAxios : FileCaller)
  : Completion JsVal * ExtractRequest :=
  let axiosConfig := extractRequest extract payload credentials options in
  (checkDownload extract axiosConfig (callAxios axiosConfig options), axiosConfig).


Section WithFiles.

(** decompressData and parseFile of file.ts are not among the sources;
    the buffers are whatever they work on. *)
Context {Buffer : Type}
        (decompressData : Buffer -> DecompressionMethod.t -> Completion Buffer)
        (parseFile : Buffer -> option FileType.t -> Completion JsVal).


End WithFiles.

End ExtractCall.

(* ===================================================================== *)
(** * Notions for the statements about runs                              *)
(* ===================================================================== *)

Module Props.
Import Js Tools Api.

(** The pagination variables of pass number [i] (from 0) of the
    executor's loop: [limit] is [pageSize || 50], [page] counts from 1,
    [offset] advances by the limit. *)
Definition pass_vars (endpoint : ApiConfig) (i : nat) : gmap string JsVal :=
  let limit := int_or (pagination_pageSize endpoint) 50 in
  match pagination_type endpoint with
  | Some PAGE_BASED =>
      <["page" := VInt (1 + Z.of_nat i)]> (<["limit" := VInt limit]> ∅)
  | Some OFFSET_BASED =>
      <["offset" := VInt (limit * Z.of_nat i)]> (<["limit" := VInt limit]> ∅)
  | _ => ∅
  end.

(** The value at the end of a path of property names, where every name
    on the way is a property with a truthy value. *)
Fixpoint follow (parts : list string) (v : JsVal) : option JsVal :=
  match parts with
  | [] => Some v
  | part :: rest =>
      match getProp v part with
      | Normal next => if truthy next then follow rest next else None
      | Threw _ => None
      end
  end.

(** Neither [null] nor [undefined] *)
Definition defined (v : JsVal) : Prop := v ≠ VUndefined ∧ v ≠ VNull.

End Props.

(* ===================================================================== *)
(** * The request executor: general facts about the loop                 *)
(* ===================================================================== *)

Section ExecutorLoop.
Import Js Tools Api.

Context (endpoint : ApiConfig) (allVariables : gmap string JsVal)
        (options : option RequestOptions) (callAxios : HttpCaller).

Lemma paginate_keeps st :
  allResults (paginate endpoint st).2 = allResults st
  ∧ loopCounter (paginate endpoint st).2 = loopCounter st.
Proof.
  unfold paginate. destruct (pagination_type endpoint) as [[]|]; done.
Qed.

Lemma accumulate_counter responseData st :
  loopCounter (accumulate endpoint responseData st) = (loopCounter st + 1)%Z.
Proof.
  unfold accumulate.
  destruct responseData; repeat case_match; done.
Qed.

(** What one pass adds to the trace, and what it computes. *)
Lemma iteration_unfold st tr :
  let pv := (paginate endpoint st).1 in
  let st1 := (paginate endpoint st).2 in
  let r := iteration endpoint allVariables options callAxios st tr in
  iterations r.2 = iterations tr ++ [pv]
  ∧ bindings r.2 = bindings tr ++ [allVariables ∪ pv]
  ∧ match buildRequest endpoint (allVariables ∪ pv) options with
    | Threw e => r.1 = Threw e ∧ httpCalls r.2 = httpCalls tr
    | Normal rq =>
        httpCalls r.2 = httpCalls tr ++ [rq]
        ∧ r.1 = bind (checkResponse endpoint rq
                        (callAxios (length (httpCalls tr)) rq options))
                  (fun d => bind (extractData endpoint d)
                     (fun v => Normal (accumulate endpoint v st1)))
    end.
Proof.
  unfold iteration. destruct (paginate endpoint st) as [pv st1]. simpl.
  destruct (buildRequest endpoint (allVariables ∪ pv) options); simpl; auto.
Qed.

Lemma iteration_counter st tr st' tr' :
  iteration endpoint allVariables options callAxios st tr = (Normal st', tr') →
  loopCounter st' = (loopCounter st + 1)%Z.
Proof.
  intros H. pose proof (iteration_unfold st tr) as (_ & _ & Hb).
  rewrite H in Hb. simpl in Hb.
  destruct (buildRequest _ _ _) as [e|rq]; [by destruct Hb|].
  destruct Hb as [_ Hr].
  destruct (checkResponse _ _ _) as [|d]; simpl in Hr; [done|].
  destruct (extractData _ _) as [|v]; simpl in Hr; [done|].
  injection Hr as ->. rewrite accumulate_counter.
  by rewrite (proj2 (paginate_keeps st)).
Qed.

Lemma iteration_trace_lengths st tr :
  let r := iteration endpoint allVariables options callAxios st tr in
  length (iterations r.2) = S (length (iterations tr))
  ∧ length (httpCalls tr) ≤ length (httpCalls r.2) ≤ S (length (httpCalls tr))
  ∧ (∀ st', r.1 = Normal st' → length (httpCalls r.2) = S (length (httpCalls tr))).
Proof.
  pose proof (iteration_unfold st tr) as (Hi & _ & Hb). simpl in *.
  rewrite Hi, length_app. simpl.
  destruct (buildRequest _ _ _) as [e|rq].
  - destruct Hb as [Hr ->]. rewrite Hr. split; [lia|]. split; [lia|]. done.
  - destruct Hb as [-> _]. rewrite length_app. simpl. split; [lia|]. split; lia.
Qed.

(** The loop never makes more than [501 - loopCounter] passes. *)
Lemma loop_bound fuel st tr :
  (0 ≤ loopCounter st)%Z →
  let r := callEndpoint_loop fuel endpoint allVariables options callAxios st tr in
  length (iterations r.2) ≤ length (iterations tr) + Z.to_nat (501 - loopCounter st)
  ∧ length (httpCalls r.2) ≤ length (httpCalls tr) + Z.to_nat (501 - loopCounter st).
Proof.
  revert st tr. induction fuel as [|fuel IH]; intros st tr Hc; simpl.
  - destruct (hasMore st && (loopCounter st <=? 500)%Z); simpl; lia.
  - destruct (hasMore st && (loopCounter st <=? 500)%Z) eqn:Hg; simpl; [|lia].
    apply andb_true_iff in Hg as [_ Hle%Z.leb_le].
    pose proof (iteration_trace_lengths st tr) as (Hi & Hh & _).
    pose proof (iteration_counter st tr) as Hn.
    destruct (iteration endpoint allVariables options callAxios st tr) as [[e|st'] tr'];
      simpl in *.
    + lia.
    + specialize (Hn st' tr' eq_refl).
      destruct (IH st' tr') as [H1 H2]; [lia|]. rewrite Hn in H1, H2. lia.
Qed.

(** Enough fuel always leaves the loop. *)
Lemma loop_fuel fuel st tr :
  (0 ≤ loopCounter st)%Z →
  Z.to_nat (501 - loopCounter st) ≤ fuel →
  is_Some (callEndpoint_loop fuel endpoint allVariables options callAxios st tr).1.
Proof.
  revert st tr. induction fuel as [|fuel IH]; intros st tr Hc Hf; simpl.
  - destruct (hasMore st && (loopCounter st <=? 500)%Z) eqn:Hg; simpl; [|eauto].
    apply andb_true_iff in Hg as [_ Hle%Z.leb_le]. lia.
  - destruct (hasMore st && (loopCounter st <=? 500)%Z) eqn:Hg; simpl; [|eauto].
    apply andb_true_iff in Hg as [_ Hle%Z.leb_le].
    pose proof (iteration_counter st tr) as Hn.
    destruct (iteration endpoint allVariables options callAxios st tr) as [[e|st'] tr'];
      simpl; [eauto|].
    specialize (Hn st' tr' eq_refl). apply IH; lia.
Qed.

End ExecutorLoop.

(** callEndpoint always comes back: with a result or with an exception. *)
Lemma callEndpoint_total endpoint payload credentials options callAxios :
  is_Some (Api.callEndpoint endpoint payload credentials options callAxios).1.
Proof.
  unfold Api.callEndpoint. apply loop_fuel; simpl; [lia|].
  unfold Api.callEndpoint_fuel. lia.
Qed.

(** Every run makes at most 501 passes and at most 501 HTTP calls. *)
Lemma callEndpoint_at_most_501 endpoint payload credentials options callAxios :
  let tr := (Api.callEndpoint endpoint payload credentials options callAxios).2 in
  length (Api.iterations tr) ≤ 501 ∧ length (Api.httpCalls tr) ≤ 501.
Proof.
  unfold Api.callEndpoint.
  pose proof (loop_bound endpoint (Api.merge_vars payload credentials) options callAxios
                Api.callEndpoint_fuel Api.initial_state Api.no_trace) as H.
  simpl in H. specialize (H ltac:(lia)). simpl. lia.
Qed.

(* ===================================================================== *)
(** * validateVariables finds exactly the unbound placeholders           *)
(* ===================================================================== *)

Section Placeholders.
Import Js Tools Api Spec.















End Placeholders.

Section Validation.
Import Js Tools Api Spec.



Lemma elem_of_keys (V : gmap string JsVal) k : k ∈ keys V ↔ is_Some (V !! k).
Proof.
  unfold keys. rewrite list_elem_of_fmap. split.
  - intros ([k' v] & -> & H%elem_of_map_to_list). eauto.
  - intros [v H]. exists (k, v). split; [done|]. by apply elem_of_map_to_list.
Qed.

Lemma includes_str_true l v : includes_str l v = true ↔ v ∈ l.
Proof. unfold includes_str. by rewrite bool_decide_eq_true. Qed.



(** The pagination variables are reserved names, so they do not change
    the verdict. *)
Lemma validateVariables_reserved C (V pv : gmap string JsVal) :
  (∀ k, is_Some (pv !! k) → k ∈ Spec.reserved) →
  validateVariables C (keys (V ∪ pv)) = validateVariables C (keys V).
Proof.
  intros Hpv. unfold validateVariables. apply filter_ext. intros v. f_equal.
  apply eq_true_iff_eq. rewrite !includes_str_true, !elem_of_app, !elem_of_keys.
  rewrite lookup_union_is_Some. specialize (Hpv v). unfold Spec.reserved in Hpv.
  rewrite !elem_of_cons, !elem_of_nil in *. tauto.
Qed.

Lemma paginate_reserved C st k :
  is_Some ((paginate C st).1 !! k) → k ∈ Spec.reserved.
Proof.
  unfold paginate, Spec.reserved. rewrite !elem_of_cons.
  destruct (pagination_type C) as [[]|]; simpl; intros H;
    try (by apply is_Some_None in H);
    apply lookup_insert_is_Some in H as [<-|[_ H]]; auto;
    apply lookup_insert_is_Some in H as [<-|[_ H]]; auto;
    by apply is_Some_None in H.
Qed.

End Validation.

(* ===================================================================== *)
(** * Runs of callEndpoint                                               *)
(* ===================================================================== *)

Section Runs.
Import Js Tools Api.

Context (endpoint : ApiConfig) (payload credentials : gmap string JsVal)
        (options : option RequestOptions) (callAxios : HttpCaller).

Local Abbreviation V := (merge_vars payload credentials).
Local Abbreviation run := (callEndpoint endpoint payload credentials options callAxios).
Local Abbreviation head := (loop_head endpoint payload credentials options callAxios).


(** At a loop head the counter is the number of passes made so far. *)
Lemma head_counter st tr :
  head st tr →
  (0 ≤ loopCounter st)%Z ∧ loopCounter st = Z.of_nat (length (iterations tr))
  ∧ length (httpCalls tr) = length (iterations tr).
Proof.
  induction 1 as [|st tr st' tr' _ IH Hm Hle Hit]; simpl; [done|].
  pose proof (iteration_counter endpoint V options callAxios st tr st' tr' Hit) as Hc.
  pose proof (iteration_trace_lengths endpoint V options callAxios st tr) as (Hi & _ & Hh).
  rewrite Hit in Hi, Hh. simpl in Hi, Hh. specialize (Hh st' eq_refl). lia.
Qed.

(** The run is the loop continued from any of its heads. *)
Lemma run_from_head st tr :
  head st tr →
  run = callEndpoint_loop (502 - Z.to_nat (loopCounter st)) endpoint V options
          callAxios st tr.
Proof.
  induction 1 as [|st tr st' tr' Hh IH Hm Hle Hit]; [done|].
  pose proof (head_counter st tr Hh) as (H0 & _).
  pose proof (iteration_counter endpoint V options callAxios st tr st' tr' Hit) as Hc.
  rewrite IH.
  replace (502 - Z.to_nat (loopCounter st)) with (S (502 - Z.to_nat (loopCounter st'))) by lia.
  simpl. rewrite Hm. simpl.
  replace (loopCounter st <=? 500)%Z with true by (symmetry; by apply Z.leb_le).
  by rewrite Hit.
Qed.

(** A pass that ends with [hasMore = false] is the last one. *)
Lemma last_pass st tr st' tr' :
  head st tr → hasMore st = true → (loopCounter st ≤ 500)%Z →
  iteration endpoint V options callAxios st tr = (Normal st', tr') →
  hasMore st' = false →
  run = (Some (Normal (finish st')), tr').
Proof.
  intros Hh Hm Hle Hit Hs.
  rewrite (run_from_head st' tr') by (by eapply head_next).
  destruct (502 - Z.to_nat (loopCounter st')); simpl; by rewrite Hs.
Qed.

(** A pass that throws ends the run with that exception. *)
Lemma throwing_pass st tr e tr' :
  head st tr → hasMore st = true → (loopCounter st ≤ 500)%Z →
  iteration endpoint V options callAxios st tr = (Threw e, tr') →
  run = (Some (Threw e), tr').
Proof.
  intros Hh Hm Hle Hit.
  pose proof (head_counter st tr Hh) as (H0 & _).
  rewrite (run_from_head st tr Hh).
  replace (502 - Z.to_nat (loopCounter st)) with (S (501 - Z.to_nat (loopCounter st))) by lia.
  simpl. rewrite Hm. simpl.
  replace (loopCounter st <=? 500)%Z with true by (symmetry; by apply Z.leb_le).
  by rewrite Hit.
Qed.

Lemma accumulate_stops responseData st :
  hasMore st = false → hasMore (accumulate endpoint responseData st) = false.
Proof.
  intros H. unfold accumulate. destruct responseData; repeat case_match; done.
Qed.

End Runs.

(* ===================================================================== *)
(** * Unresolved variables (C1)                                          *)
(* ===================================================================== *)

Section UnresolvedVariables.
Import Js Tools Api.


Lemma buildRequest_valid endpoint (V pv : gmap string JsVal) options body :
  (∀ k, is_Some (pv !! k) → k ∈ Spec.reserved) →
  validateVariables endpoint (keys V) = [] →
  parseBody endpoint (V ∪ pv) = Normal body →
  ∃ rq, buildRequest endpoint (V ∪ pv) options = Normal rq ∧ rq_data rq = body.
Proof.
  intros Hpv Hv Hb. unfold buildRequest.
  rewrite (validateVariables_reserved endpoint V pv Hpv), Hv, Hb. simpl. eauto.
Qed.





End UnresolvedVariables.

(* ===================================================================== *)
(** * Pagination (C3, C6, C7, C9, C10)                                   *)
(* ===================================================================== *)

Section Pagination.
Import Js Tools Api Spec.

(** C3: the run on which the iteration ceiling is exceeded.  Against an
    endpoint that keeps delivering fresh full pages, callEndpoint makes
    501 passes and 501 HTTP calls: the counter starts at 0 and the loop
    condition is [loopCounter <= 500]. *)
Theorem C3_ceiling_is_501 :
  let run := callEndpoint (Examples.paged PAGE_BASED (Some 1%Z)) ∅ ∅ None
               Examples.endless in
  length (iterations run.2) = 501 ∧ length (httpCalls run.2) = 501
  ∧ ∃ r, run.1 = Some (Normal r).
Proof. vm_compute. eauto. Qed.

(** C6, as amended.  When pagination is absent or DISABLED, callEndpoint
    makes exactly one pass through the loop.  The pass makes one HTTP
    call if the request can be built; if validation or JSON.parse of the
    body throws, the run ends with that exception and without a call. *)
Theorem C6_single_pass endpoint payload credentials options callAxios :
  pagination_type endpoint = None ∨ pagination_type endpoint = Some DISABLED →
  let run := callEndpoint endpoint payload credentials options callAxios in
  length (iterations run.2) = 1
  ∧ match buildRequest endpoint (merge_vars payload credentials) options with
    | Normal rq => httpCalls run.2 = [rq]
    | Threw e => httpCalls run.2 = [] ∧ run.1 = Some (Threw e)
    end.
Proof.
  intros Hp run.
  set (V := merge_vars payload credentials).
  assert (paginate endpoint initial_state
          = (∅, {| allResults := []; page := 1; offset := 0; hasMore := false;
                   loopCounter := 0 |})) as Hpag.
  { unfold paginate. by destruct Hp as [-> | ->]. }
  pose proof (iteration_unfold endpoint V options callAxios initial_state no_trace)
    as (Hi & _ & Hb). simpl in Hi, Hb.
  rewrite Hpag in Hi, Hb. simpl in Hi, Hb.
  replace (V ∪ ∅) with V in Hb by (by rewrite (right_id_L ∅ (∪))).
  destruct (iteration endpoint V options callAxios initial_state no_trace)
    as [[e|st'] tr'] eqn:Hit; simpl in Hi, Hb.
  - unfold run.
    rewrite (throwing_pass endpoint payload credentials options callAxios
               initial_state no_trace e tr'); [| constructor | done | done | done].
    simpl. rewrite Hi. split; [done|].
    destruct (buildRequest endpoint V options) as [e'|rq]; destruct Hb as [H1 H2].
    + by injection H1 as ->.
    + done.
  - assert (hasMore st' = false) as Hs.
    { destruct (buildRequest endpoint V options) as [e'|rq]; destruct Hb as [H1 H2];
        [done|].
      destruct (checkResponse _ _ _); simpl in H2; [done|].
      destruct (extractData _ _); simpl in H2; [done|].
      injection H2 as ->. by apply accumulate_stops. }
    unfold run.
    rewrite (last_pass endpoint payload credentials options callAxios
               initial_state no_trace st' tr'); [| constructor | done | done | done | done].
    simpl. rewrite Hi. split; [done|].
    destruct (buildRequest endpoint V options) as [e'|rq]; destruct Hb as [H1 H2]; done.
Qed.

Lemma C6_single_pass_witness :
  let run := callEndpoint Examples.cfg_search Examples.payload_plain ∅ None
               Examples.endless in
  pagination_type Examples.cfg_search = None
  ∧ length (iterations run.2) = 1
  ∧ match buildRequest Examples.cfg_search (merge_vars Examples.payload_plain ∅) None with
    | Normal rq => httpCalls run.2 = [rq]
    | Threw e => httpCalls run.2 = [] ∧ run.1 = Some (Threw e)
    end.
Proof.
  split; [reflexivity|].
  exact (C6_single_pass Examples.cfg_search Examples.payload_plain ∅ None
           Examples.endless (or_introl eq_refl)).
Defined.

(** C6 as stated fails where the single pass throws before it reaches
    callAxios: pagination is absent and the run makes no HTTP call. *)
Lemma C6_counterexample :
  let run := callEndpoint Examples.cfg_apikey Examples.payload_user
               Examples.creds_token None Examples.endless in
  pagination Examples.cfg_apikey = None
  ∧ length (iterations run.2) = 1
  ∧ length (httpCalls run.2) = 0.
Proof. vm_compute. done. Qed.

Lemma iteration_built endpoint V options callAxios st tr rq :
  buildRequest endpoint (V ∪ (paginate endpoint st).1) options = Normal rq →
  iteration endpoint V options callAxios st tr
  = (bind (checkResponse endpoint rq (callAxios (length (httpCalls tr)) rq options))
       (fun d => bind (extractData endpoint d)
          (fun v => Normal (accumulate endpoint v (paginate endpoint st).2))),
     log_call rq (log_iteration (paginate endpoint st).1
                    (V ∪ (paginate endpoint st).1) tr)).
Proof.
  intros Hb. unfold iteration. destruct (paginate endpoint st) as [pv st1].
  simpl in *. by rewrite Hb.
Qed.

(** C7, as amended.  At any pass of a run: if the page just fetched, after
    dataPath extraction, is an array whose JSON text equals the JSON text
    of the results accumulated so far, the run ends with this pass and
    returns what had been accumulated before it; the page is not
    appended. *)
Theorem C7_page_equal_to_accumulated
    endpoint payload credentials options callAxios st tr rq d items :
  loop_head endpoint payload credentials options callAxios st tr →
  hasMore st = true → (loopCounter st ≤ 500)%Z →
  let V := merge_vars payload credentials in
  let pv := (paginate endpoint st).1 in
  buildRequest endpoint (V ∪ pv) options = Normal rq →
  checkResponse endpoint rq (callAxios (length (httpCalls tr)) rq options) = Normal d →
  extractData endpoint d = Normal (VArr items) →
  stringify (VArr items) = stringify (VArr (allResults st)) →
  callEndpoint endpoint payload credentials options callAxios
  = (Some (Normal (finish st)), log_call rq (log_iteration pv (V ∪ pv) tr)).
Proof.
  intros Hh Hm Hle V pv Hb Hc He Heq.
  pose proof (iteration_built endpoint V options callAxios st tr rq Hb) as Hit.
  rewrite Hc in Hit. simpl in Hit. rewrite He in Hit. simpl in Hit.
  destruct (paginate_keeps endpoint st) as [Ha _].
  rewrite <- Ha in Heq. rewrite bool_decide_eq_true_2 in Hit by done. simpl in Hit.
  rewrite (last_pass endpoint payload credentials options callAxios st tr _ _
             Hh Hm Hle Hit eq_refl).
  unfold finish. simpl. by rewrite Ha.
Qed.

(** An endpoint that ignores the paging parameters: the second page is
    the first one again, and the run stops there. *)
Lemma C7_page_equal_to_accumulated_witness :
  let run := callEndpoint (Examples.paged PAGE_BASED (Some 2%Z)) ∅ ∅ None
               (Examples.serve [VArr [VInt 1; VInt 2]; VArr [VInt 1; VInt 2];
                                VArr [VInt 3]]) in
  run.1 = Some (Normal {| result_data := VArr [VInt 1; VInt 2] |})
  ∧ length (httpCalls run.2) = 2.
Proof.
  cbv zeta.
  eassert (loop_head (Examples.paged PAGE_BASED (Some 2%Z)) ∅ ∅ None
             (Examples.serve [VArr [VInt 1; VInt 2]; VArr [VInt 1; VInt 2]; VArr [VInt 3]])
             _ _) as Hh.
  { eapply head_next; [apply head_first | reflexivity | vm_compute; discriminate |].
    vm_compute. reflexivity. }
  erewrite (C7_page_equal_to_accumulated _ _ _ _ _ _ _ _ _ _ Hh);
    [ vm_compute; split; reflexivity
    | reflexivity
    | vm_compute; discriminate
    | vm_compute; reflexivity
    | vm_compute; reflexivity
    | vm_compute; reflexivity
    | vm_compute; reflexivity ].
Defined.

(** C7 as stated fails for a page that repeats the previous page but not
    the whole accumulation: the third page equals the second, it is
    appended again, and a fourth call is made. *)
Lemma C7_counterexample :
  let run := callEndpoint (Examples.paged PAGE_BASED (Some 1%Z)) ∅ ∅ None
               (Examples.serve [VArr [VInt 1]; VArr [VInt 2]; VArr [VInt 2]]) in
  run.1 = Some (Normal {| result_data := VArr [VInt 1; VInt 2; VInt 2] |})
  ∧ length (httpCalls run.2) = 4.
Proof. vm_compute. done. Qed.

Lemma accumulate_keeps_counters endpoint v st :
  page (accumulate endpoint v st) = page st
  ∧ offset (accumulate endpoint v st) = offset st.
Proof. unfold accumulate. destruct v; repeat case_match; done. Qed.

Lemma loop_default_vars endpoint V options callAxios fuel : ∀ st tr,
  pagination_type endpoint = Some PAGE_BASED
  ∨ pagination_type endpoint = Some OFFSET_BASED →
  pagination_pageSize endpoint = None →
  length (bindings tr) = length (iterations tr) →
  (pagination_type endpoint = Some PAGE_BASED →
   page st = (1 + Z.of_nat (length (iterations tr)))%Z) →
  (pagination_type endpoint = Some OFFSET_BASED →
   offset st = (50 * Z.of_nat (length (iterations tr)))%Z) →
  (∀ i pv, iterations tr !! i = Some pv → default_vars endpoint i pv) →
  (∀ i rv, bindings tr !! i = Some rv →
           V !! "limit" = None → rv !! "limit" = Some (VInt 50)) →
  let r := callEndpoint_loop fuel endpoint V options callAxios st tr in
  (∀ i pv, iterations r.2 !! i = Some pv → default_vars endpoint i pv)
  ∧ (∀ i rv, bindings r.2 !! i = Some rv →
             V !! "limit" = None → rv !! "limit" = Some (VInt 50)).
Proof.
  induction fuel as [|fuel IH]; intros st tr Hp Hs Hlen Hpage Hoff Hi Hb; simpl.
  { destruct (hasMore st && _); done. }
  destruct (hasMore st && _); [|done].
  pose proof (iteration_unfold endpoint V options callAxios st tr) as (Hit & Hbt & Hr).
  simpl in Hit, Hbt, Hr.
  assert (default_vars endpoint (length (iterations tr)) (paginate endpoint st).1) as Hnew.
  { unfold default_vars, paginate. rewrite Hs. simpl.
    destruct Hp as [Hp|Hp]; rewrite Hp; simpl.
    - split; [done|]. split; [done|]. intros _. by rewrite Hpage.
    - split; [done|]. split; [|done]. intros _. by rewrite Hoff. }
  assert (∀ i pv, (iterations tr ++ [(paginate endpoint st).1]) !! i = Some pv →
                  default_vars endpoint i pv) as Hi'.
  { intros i pv [H|[Hge H]]%lookup_app_Some; [by apply Hi|].
    apply list_lookup_singleton_Some in H as [Hz <-].
    replace i with (length (iterations tr)) by lia. done. }
  assert (∀ i rv, (bindings tr ++ [V ∪ (paginate endpoint st).1]) !! i = Some rv →
                  V !! "limit" = None → rv !! "limit" = Some (VInt 50)) as Hb'.
  { intros i rv [H|[Hge H]]%lookup_app_Some HV; [by eapply Hb|].
    apply list_lookup_singleton_Some in H as [_ <-].
    rewrite lookup_union_r by done. apply Hnew. }
  destruct (iteration endpoint V options callAxios st tr) as [[e|st'] tr'] eqn:Heq;
    simpl in Hit, Hbt, Hr; simpl.
  - rewrite Hit, Hbt. done.
  - assert (page st' = page (paginate endpoint st).2
            ∧ offset st' = offset (paginate endpoint st).2) as [Hp1 Hp2].
    { destruct (buildRequest _ _ _); destruct Hr as [Hr0 Hr]; [done|].
      destruct (checkResponse _ _ _); simpl in Hr; [done|].
      destruct (extractData _ _); simpl in Hr; [done|].
      injection Hr as ->. apply accumulate_keeps_counters. }
    apply IH; try done.
    + rewrite Hit, Hbt, !length_app. simpl. lia.
    + intros Hpb. rewrite Hp1, Hit, length_app. simpl.
      unfold paginate. rewrite Hpb. simpl. rewrite (Hpage Hpb). lia.
    + intros Hob. rewrite Hp2, Hit, length_app. simpl.
      unfold paginate. rewrite Hob, Hs. simpl. rewrite (Hoff Hob). lia.
    + by rewrite Hit.
    + by rewrite Hbt.
Qed.

(** C9.  With PAGE_BASED or OFFSET_BASED pagination and pageSize unset,
    the pagination variables of every pass bind limit to 50; with
    OFFSET_BASED they bind offset to 0, 50, 100, ... and with PAGE_BASED
    they bind page to 1, 2, 3, ...  The variables that the pass
    interpolates with bind limit to 50 as well, unless payload or
    credentials carry a variable of that name (those come last in the
    spread and win). *)
Theorem C9_default_page_size endpoint payload credentials options callAxios :
  pagination_type endpoint = Some PAGE_BASED
  ∨ pagination_type endpoint = Some OFFSET_BASED →
  pagination_pageSize endpoint = None →
  let run := callEndpoint endpoint payload credentials options callAxios in
  (∀ i pv, iterations run.2 !! i = Some pv →
     pv !! "limit" = Some (VInt 50)
     ∧ (pagination_type endpoint = Some OFFSET_BASED →
        pv !! "offset" = Some (VInt (50 * Z.of_nat i)))
     ∧ (pagination_type endpoint = Some PAGE_BASED →
        pv !! "page" = Some (VInt (1 + Z.of_nat i))))
  ∧ (∀ i rv, bindings run.2 !! i = Some rv →
       merge_vars payload credentials !! "limit" = None →
       rv !! "limit" = Some (VInt 50)).
Proof.
  intros Hp Hs run.
  apply (loop_default_vars endpoint (merge_vars payload credentials) options callAxios
           callEndpoint_fuel initial_state no_trace Hp Hs); simpl; try done.
Qed.

Lemma C9_default_page_size_witness :
  let run := callEndpoint (Examples.paged OFFSET_BASED None) ∅ ∅ None
               (Examples.serve [VArr [VInt 1]; VArr [VInt 2]; VObj []]) in
  ∃ pv, iterations run.2 !! 2 = Some pv
        ∧ pv !! "limit" = Some (VInt 50) ∧ pv !! "offset" = Some (VInt 100).
Proof.
  eexists. split; [vm_compute; reflexivity|].
  destruct (C9_default_page_size (Examples.paged OFFSET_BASED None) ∅ ∅ None
              (Examples.serve [VArr [VInt 1]; VArr [VInt 2]; VObj []])
              (or_intror eq_refl) eq_refl) as [H _].
  destruct (H 2 _ ltac:(vm_compute; reflexivity)) as (Hl & Ho & _).
  split; [exact Hl | exact (Ho eq_refl)].
Defined.



End Pagination.

(* ===================================================================== *)
(** * The job queue (C5)                                                 *)
(* ===================================================================== *)

Section JobQueue.
Import Queue.
Context {T : Type}.

Implicit Types (s : State T) (job : Process T).

Lemma consistent_empty : consistent (@empty T).
Proof.
  unfold consistent, inFlightIds, inFlight. simpl.
  split; [constructor|]. split; [set_solver|]. split; [done|]. done.
Qed.

Lemma awaiting_head s job rest :
  consistent s → inFlight s = job :: rest → awaiting s = Some job ∧ queue s = rest.
Proof.
  intros (_ & _ & Hidle & Hbusy) Hf. unfold inFlight in *.
  destruct (awaiting s) as [j|] eqn:Ha.
  - by injection Hf as -> ->.
  - destruct (isProcessing s) eqn:Hp.
    + destruct (Hbusy eq_refl) as [? ?]. done.
    + rewrite (Hidle eq_refl) in Hf. done.
Qed.

(** An accepted enqueue puts the job behind the jobs in flight. *)
Lemma enqueue_fresh s i t :
  consistent s → i ∉ inFlightIds s →
  inFlight (enqueue i t s) = inFlight s ++ [ {| id := i; task := t |} ]
  ∧ jobSet (enqueue i t s) = {[ i ]} ∪ jobSet s
  ∧ isProcessing (enqueue i t s) = true
  ∧ is_Some (awaiting (enqueue i t s)).
Proof.
  intros (Hnd & Hset & Hidle & Hbusy) Hi.
  unfold enqueue. rewrite bool_decide_eq_true_2 by (by rewrite Hset).
  unfold processQueue. simpl. destruct (isProcessing s) eqn:Hp.
  - destruct (Hbusy eq_refl) as [j Hj]. unfold inFlight. simpl. rewrite Hj.
    repeat split; eauto.
  - specialize (Hidle eq_refl). unfold inFlight in Hidle.
    destruct (awaiting s) eqn:Ha; [done|]. rewrite Hidle.
    unfold processNext, inFlight. simpl. rewrite Ha, Hidle.
    repeat split; eauto.
Qed.

Lemma enqueue_known s i t : consistent s → i ∈ inFlightIds s → enqueue i t s = s.
Proof.
  intros (_ & Hset & _) Hi. unfold enqueue.
  rewrite bool_decide_eq_false_2; [done|]. intros Hn. apply Hn. by apply Hset.
Qed.

(** The settling of the awaited task takes it out of flight and starts
    the next job, whatever the outcome. *)
Lemma settle_head s job ok :
  consistent s → awaiting s = Some job →
  inFlight (settle ok s) = queue s
  ∧ jobSet (settle ok s) = jobSet s ∖ {[ id job ]}
  ∧ (isProcessing (settle ok s) = false → queue s = [])
  ∧ (isProcessing (settle ok s) = true → is_Some (awaiting (settle ok s))).
Proof.
  intros (_ & _ & Hidle & _) Ha. unfold settle. rewrite Ha.
  assert (isProcessing s = true) as Hp.
  { destruct (isProcessing s) eqn:Hp; [done|]. specialize (Hidle eq_refl).
    unfold inFlight in Hidle. by rewrite Ha in Hidle. }
  unfold processNext, inFlight. simpl. destruct (queue s) as [|j rest]; simpl.
  - repeat split; eauto. done.
  - rewrite Hp. repeat split; eauto. done.
Qed.

Lemma consistent_step s e : consistent s → consistent (step s e).
Proof.
  intros Hs. pose proof Hs as (Hnd & Hset & Hidle & Hbusy).
  destruct e as [i t|ok]; simpl.
  - destruct (decide (i ∈ inFlightIds s)) as [Hi|Hi].
    { by rewrite enqueue_known. }
    destruct (enqueue_fresh s i t Hs Hi) as (Hf & Hj & Hp & Ha).
    unfold consistent, inFlightIds. rewrite Hf, Hj, Hp, fmap_app. simpl.
    split; [|split; [|split]]; [| |done|done].
    + apply NoDup_app. split; [done|]. split; [|apply NoDup_singleton].
      intros x Hx ->%list_elem_of_singleton. done.
    + intros x. rewrite elem_of_union, elem_of_singleton, elem_of_app,
        list_elem_of_singleton, Hset. unfold inFlightIds. tauto.
  - destruct (awaiting s) as [job|] eqn:Ha.
    2:{ unfold settle. by rewrite Ha. }
    destruct (settle_head s job ok Hs Ha) as (Hf & Hj & Hp0 & Hp1).
    assert (inFlightIds s = id job :: (id <$> queue s)) as Hids.
    { unfold inFlightIds, inFlight. by rewrite Ha. }
    rewrite Hids in Hnd. apply NoDup_cons in Hnd as [Hfresh Hnd].
    unfold consistent, inFlightIds. rewrite Hf, Hj.
    split; [done|]. split; [|split; [|done]].
    + intros x. rewrite elem_of_difference, elem_of_singleton, Hset, Hids, elem_of_cons.
      split; [tauto|]. intros Hx. split; [tauto|]. by intros ->.
    + intros H. by rewrite (Hp0 H).
Qed.

Lemma consistent_run (events : list (Event T)) : consistent (run events).
Proof.
  unfold run. generalize (@consistent_empty). generalize (@empty T).
  induction events as [|e events IH]; intros s Hs; simpl; [done|].
  apply IH. by apply consistent_step.
Qed.

Lemma consistent_settleAll outcomes : ∀ s, consistent s → consistent (settleAll outcomes s).
Proof.
  induction outcomes as [|ok outcomes IH]; intros s Hs; simpl; [done|].
  apply IH. apply (consistent_step s (Settle ok) Hs).
Qed.

(** First in, first out: a job with [n] jobs in flight before it is the
    awaited one after [n] tasks have settled. *)
Lemma settleAll_reaches outcomes : ∀ s job rest before,
  consistent s → inFlight s = before ++ job :: rest →
  length outcomes = length before →
  awaiting (settleAll outcomes s) = Some job
  ∧ id job ∈ jobSet (settleAll outcomes s).
Proof.
  induction outcomes as [|ok outcomes IH]; intros s job rest before Hs Hf Hlen.
  - destruct before; [|done]. simpl in *.
    destruct (awaiting_head s job rest Hs Hf) as [Ha _]. split; [done|].
    apply Hs. unfold inFlightIds. rewrite Hf. simpl. by left.
  - destruct before as [|j before]; [done|]. simpl in *.
    destruct (awaiting_head s j _ Hs Hf) as [Ha Hq].
    destruct (settle_head s j ok Hs Ha) as (Hf' & _).
    apply (IH (settle ok s) job rest before).
    + apply (consistent_step s (Settle ok) Hs).
    + by rewrite Hf', Hq.
    + lia.
Qed.

(** C5.  In every state that calls of enqueue and settling tasks lead
    to from a new Queue: no id is in flight (awaited or queued) twice and
    jobSet holds exactly the ids in flight; enqueue of an id in flight
    changes nothing; when the awaited task settles, fulfilled or
    rejected, its id leaves jobSet and is no longer in flight; and
    enqueue of an id that is not in flight puts the job behind the jobs
    in flight, so that it is the job being run once those have settled
    (at once if there are none). *)
Theorem C5_single_flight (events : list (Event T)) :
  let s := run events in
  NoDup (inFlightIds s)
  ∧ (∀ i, i ∈ jobSet s ↔ i ∈ inFlightIds s)
  ∧ (∀ i t, i ∈ inFlightIds s → enqueue i t s = s)
  ∧ (∀ job ok, awaiting s = Some job →
       (id job ∉ jobSet (settle ok s)) ∧ (id job ∉ inFlightIds (settle ok s)))
  ∧ (∀ i t, i ∉ inFlightIds s →
       inFlight (enqueue i t s) = inFlight s ++ [ {| id := i; task := t |} ]
       ∧ ∀ outcomes, length outcomes = length (inFlight s) →
           awaiting (settleAll outcomes (enqueue i t s)) = Some {| id := i; task := t |}
           ∧ i ∈ jobSet (settleAll outcomes (enqueue i t s))).
Proof.
  intros s. pose proof (consistent_run events) as Hs. fold s in Hs.
  pose proof Hs as (Hnd & Hset & _).
  split; [done|]. split; [done|]. split; [|split].
  - intros i t Hi. by apply enqueue_known.
  - intros job ok Ha.
    pose proof (consistent_step s (Settle ok) Hs) as (_ & Hset' & _). simpl in Hset'.
    destruct (settle_head s job ok Hs Ha) as (Hf & Hj & _).
    assert (id job ∉ jobSet (settle ok s)) as Hout.
    { rewrite Hj. rewrite elem_of_difference, elem_of_singleton. tauto. }
    split; [done|]. by rewrite <- Hset'.
  - intros i t Hi. destruct (enqueue_fresh s i t Hs Hi) as (Hf & _).
    split; [done|]. intros outcomes Hlen.
    apply (settleAll_reaches outcomes (enqueue i t s) {| id := i; task := t |} [] (inFlight s)).
    + apply (consistent_step s (Enqueue i t) Hs).
    + done.
    + done.
Qed.

End JobQueue.

(** Scenario 6 of the specification: a second enqueue of j1 while the
    first is running changes nothing; once the task has settled (here:
    rejected), j1 is gone from jobSet and a third enqueue runs its task. *)
Lemma C5_single_flight_witness :
  let first := Queue.run [Queue.Enqueue "j1" 1] in
  let settled := Queue.run [Queue.Enqueue "j1" 1; Queue.Enqueue "j1" 2; Queue.Settle false] in
  Queue.enqueue "j1" 2 first = first
  ∧ ("j1" ∉ Queue.jobSet (Queue.settle false first))
  ∧ Queue.awaiting (Queue.enqueue "j1" 3 settled) = Some {| Queue.id := "j1"; Queue.task := 3 |}
  ∧ Queue.started (Queue.enqueue "j1" 3 settled) = ["j1"; "j1"].
Proof.
  intros first settled.
  destruct (C5_single_flight [Queue.Enqueue "j1" 1]) as (_ & _ & Hnoop & Hgone & _).
  destruct (C5_single_flight [Queue.Enqueue "j1" 1; Queue.Enqueue "j1" 2; Queue.Settle false])
    as (_ & _ & _ & _ & Hagain).
  split; [|split; [|split]].
  - apply Hnoop. vm_compute. apply list_elem_of_here.
  - apply (Hgone {| Queue.id := "j1"; Queue.task := 1 |} false). reflexivity.
  - refine (proj1 (proj2 (Hagain "j1" 3 _) [] eq_refl)).
    intros H. vm_compute in H. inversion H.
  - reflexivity.
Defined.

(* ===================================================================== *)
(** * The transform synthesizer (C2)                                     *)
(* ===================================================================== *)

Section MappingLoop.
Import Js LlmClient Transform.

Context (X : Externals) (schema payload instruction : JsVal).

Local Abbreviation loop := (fun fuel => generateMapping_loop fuel X schema payload instruction).
Local Abbreviation attempt := (attemptMapping X schema payload instruction).

(** A content that checkMapping lets through has an expression that
    applies to the payload with a result that validates. *)
Lemma checkMapping_sound text content :
  checkMapping X schema payload text = Normal content →
  content ≠ VNull
  ∧ ∃ expression data error,
      getProp content "jsonata" = Normal expression
      ∧ applyJsonataWithValidation X payload expression schema
        = Normal (true, data, error).
Proof.
  unfold checkMapping. destruct (JSON_parse text) as [|c]; simpl; [done|].
  destruct (getProp c "jsonata") as [|expression] eqn:Hp; simpl; [done|].
  destruct (applyJsonataWithValidation X payload expression schema)
    as [|[[ok data] error]] eqn:Ha; simpl; [done|].
  destruct ok; [|done]. intros [= <-]. split; [by intros ->|]. eauto.
Qed.

Local Abbreviation log_of := (initialLog X schema payload instruction).

Lemma attempt_with_client client retry messages calls :
  createLLMClient X = Normal client →
  attempt retry messages calls
  = let m := log_of messages in
    let rq := mappingRequest X retry m in
    match client (length calls) rq with
    | LlmThrew e => (Failed e (Some m), calls ++ [rq])
    | LlmContent c =>
        match checkMapping X schema payload (toString c) with
        | Normal content => (Mapped content, calls ++ [rq])
        | Threw e =>
            (Failed e (Some (m ++ [ {| role := assistant; content := VStr (toString c) |} ])),
             calls ++ [rq])
        end
    end.
Proof.
  intros Hc. unfold attemptMapping. by rewrite Hc.
Qed.

Lemma attempt_calls retry messages calls :
  (attempt retry messages calls).2 = calls
  ∨ (attempt retry messages calls).2
    = calls ++ [mappingRequest X retry (log_of messages)].
Proof.
  destruct (createLLMClient X) as [e|client] eqn:Hc.
  - left. unfold attemptMapping. by rewrite Hc.
  - right. rewrite (attempt_with_client client) by done. simpl.
    destruct (client _ _); [done|]. by destruct (checkMapping _ _ _ _).
Qed.

Lemma attempt_mapped retry messages calls content calls' :
  attempt retry messages calls = (Mapped content, calls') →
  ∃ text, checkMapping X schema payload text = Normal content.
Proof.
  unfold attemptMapping. destruct (createLLMClient X) as [|client]; [done|].
  destruct (client _ _) as [|c]; [done|].
  destruct (checkMapping X schema payload (toString c)) eqn:Hk; [done|].
  intros [= <- _]. eauto.
Qed.

(** The loop only appends requests, at most one per unit of fuel. *)
Lemma loop_calls fuel : ∀ retry messages calls,
  ∃ more, (loop fuel retry messages calls).2 = calls ++ more ∧ length more ≤ fuel.
Proof.
  induction fuel as [|fuel IH]; intros retry messages calls; simpl.
  { exists []. by rewrite app_nil_r. }
  pose proof (attempt_calls retry messages calls) as Ha.
  destruct (attempt retry messages calls) as [[content|e m'] calls']; simpl in Ha.
  - destruct Ha as [->| ->]; simpl.
    + exists []. rewrite app_nil_r. split; [done|simpl; lia].
    + eexists. split; [done|simpl; lia].
  - assert (∃ one, calls' = calls ++ one ∧ length one ≤ 1) as (one & -> & Hone).
    { destruct Ha as [->| ->].
      - exists []. rewrite app_nil_r. split; [done|simpl; lia].
      - eexists. split; [done|simpl; lia]. }
    destruct (retry <? 5).
    + destruct m' as [m|]; simpl.
      * destruct (IH (S retry)
                    (Some (m ++ [{| role := user; content := VStr (message e) |}]))
                    (calls ++ one)) as (more & -> & Hm).
        exists (one ++ more). rewrite length_app, app_assoc. split; [done|lia].
      * exists one. split; [done|lia].
    + simpl. exists one. split; [done|lia].
Qed.

(** With enough fuel the recursion comes to an end. *)
Lemma loop_returns fuel : ∀ retry messages calls,
  1 ≤ fuel → 6 ≤ fuel + retry → is_Some (loop fuel retry messages calls).1.
Proof.
  induction fuel as [|fuel IH]; intros retry messages calls H1 Hf; [lia|]. simpl.
  destruct (attempt retry messages calls) as [[content|e m'] calls']; simpl; [eauto|].
  destruct (retry <? 5) eqn:Hr; [|simpl; eauto].
  apply Nat.ltb_lt in Hr. destruct m'; simpl; [|eauto]. apply IH; lia.
Qed.

(** Whatever follows, the request of the first attempt is logged. *)
Lemma loop_first_request client fuel retry messages calls :
  createLLMClient X = Normal client →
  (loop (S fuel) retry messages calls).2 !! length calls
  = Some (mappingRequest X retry (log_of messages)).
Proof.
  intros Hc. simpl. rewrite (attempt_with_client client) by done. simpl.
  set (rq := mappingRequest X retry (log_of messages)).
  assert (∀ r : option (Completion JsVal) * list ChatRequest,
            (∃ more, r.2 = (calls ++ [rq]) ++ more) → r.2 !! length calls = Some rq) as Hend.
  { intros r [more ->]. rewrite <- app_assoc. by apply list_lookup_middle. }
  assert (∀ (o : option (Completion JsVal)),
            (o, calls ++ [rq]).2 !! length calls = Some rq) as Hnow.
  { intros o. apply Hend. exists []. by rewrite app_nil_r. }
  destruct (client (length calls) rq) as [e|c].
  - destruct (retry <? 5); [|apply Hnow].
    apply Hend. destruct (loop_calls fuel (S retry)
      (Some (log_of messages ++ [{| role := user; content := VStr (message e) |}]))
      (calls ++ [rq])) as (more & -> & _). eauto.
  - destruct (checkMapping X schema payload (toString c)) as [e|content]; [|apply Hnow].
    destruct (retry <? 5); [|apply Hnow].
    apply Hend. destruct (loop_calls fuel (S retry)
      (Some ((log_of messages ++ [{| role := assistant; content := VStr (toString c) |}])
               ++ [{| role := user; content := VStr (message e) |}]))
      (calls ++ [rq])) as (more & -> & _). eauto.
Qed.

(** The two halves of the claim about generateMapping, for the recursion
    started at any retry count. *)
Lemma loop_sound fuel : ∀ retry messages calls content,
  (loop fuel retry messages calls).1 = Some (Normal content) →
  content ≠ VNull →
  ∃ text, checkMapping X schema payload text = Normal content.
Proof.
  induction fuel as [|fuel IH]; intros retry messages calls content; simpl; [done|].
  destruct (attempt retry messages calls) as [[c|e m'] calls'] eqn:Ha; simpl.
  - intros [= <-] _. by eapply attempt_mapped.
  - destruct (retry <? 5).
    + destruct m'; simpl; [apply IH|done].
    + simpl. by intros [= <-].
Qed.

Lemma loop_retries client fuel : ∀ retry msgs calls n rq c e,
  createLLMClient X = Normal client →
  fuel + retry = 6 → 1 ≤ fuel →
  let r := loop fuel retry msgs calls in
  r.2 !! n = Some rq → length calls ≤ n →
  client n rq = LlmContent c →
  checkMapping X schema payload (toString c) = Threw e →
  (retry + (n - length calls) < 5 →
     ∃ rq', r.2 !! S n = Some rq'
            ∧ messages rq' = messages rq
                ++ [ {| role := assistant; content := VStr (toString c) |};
                     {| role := user; content := VStr (message e) |} ])
  ∧ (retry + (n - length calls) = 5 → r.1 = Some (Normal VNull) ∧ length r.2 = S n).
Proof.
  intros retry msgs calls n rq c e Hc.
  revert retry msgs calls.
  induction fuel as [|fuel IH]; intros retry msgs calls Hf H1; [lia|].
  intros r. subst r. intros Hn Hle Hllm Hcheck.
  pose proof (loop_first_request client fuel retry msgs calls Hc) as Hfirst.
  set (m := log_of msgs) in *. set (rq0 := mappingRequest X retry m) in *.
  destruct (decide (n = length calls)) as [->|Hne].
  - (* the attempt at hand *)
    rewrite Hfirst in Hn. injection Hn as <-.
    simpl. rewrite (attempt_with_client client) by done. simpl.
    fold m. fold rq0. rewrite Hllm, Hcheck. rewrite Nat.sub_diag, Nat.add_0_r.
    destruct (retry <? 5) eqn:Hr.
    + apply Nat.ltb_lt in Hr. split; [intros _|lia].
      destruct fuel as [|fuel]; [lia|].
      eexists. split.
      * replace (S (length calls)) with (length (calls ++ [rq0]))
          by (rewrite length_app; simpl; lia).
        by apply (loop_first_request client).
      * simpl. by rewrite <- app_assoc.
    + apply Nat.ltb_ge in Hr. split; [lia|]. intros _. simpl.
      split; [done|]. rewrite length_app. simpl. lia.
  - (* a later attempt *)
    assert (S (length calls) ≤ n) as Hlt by lia.
    simpl in Hn |- *.
    rewrite (attempt_with_client client) in Hn |- * by done. simpl in Hn |- *.
    fold m in Hn |- *. fold rq0 in Hn |- *.
    assert (∀ o : option (Completion JsVal), (o, calls ++ [rq0]).2 !! n = Some rq → False)
      as Hnone.
    { intros o H. simpl in H. apply lookup_lt_Some in H. rewrite length_app in H.
      simpl in H. lia. }
    assert (length (calls ++ [rq0]) = S (length calls)) as Hlen
      by (rewrite length_app; simpl; lia).
    destruct (client (length calls) rq0) as [e0|c0].
    + destruct (retry <? 5) eqn:Hr; [|by destruct (Hnone _ Hn)].
      apply Nat.ltb_lt in Hr.
      destruct (IH (S retry) (Some (m ++ [{| role := user; content := VStr (message e0) |}]))
                  (calls ++ [rq0]) ltac:(lia) ltac:(lia) Hn ltac:(lia) Hllm Hcheck)
        as [IH1 IH2].
      rewrite Hlen in IH1, IH2.
      split; intros Ha; [apply IH1|apply IH2]; lia.
    + destruct (checkMapping X schema payload (toString c0)) as [e0|content];
        [|by destruct (Hnone _ Hn)].
      destruct (retry <? 5) eqn:Hr; [|by destruct (Hnone _ Hn)].
      apply Nat.ltb_lt in Hr.
      destruct (IH (S retry)
                  (Some ((m ++ [{| role := assistant; content := VStr (toString c0) |}])
                           ++ [{| role := user; content := VStr (message e0) |}]))
                  (calls ++ [rq0]) ltac:(lia) ltac:(lia) Hn ltac:(lia) Hllm Hcheck)
        as [IH1 IH2].
      rewrite Hlen in IH1, IH2.
      split; intros Ha; [apply IH1|apply IH2]; lia.
Qed.

End MappingLoop.

Section GenerateMapping.
Import Js LlmClient Transform.

(** C2.  generateMapping, called as prepareTransform calls it, always
    returns.  When its result is not null, the result carries an
    expression that applyJsonataWithValidation applies to the data with
    success, schema validation included.  It calls the model at most six
    times, that is with at most five retries.  When the check of an
    answer throws (the answer is not JSON, the expression does not apply,
    or the result does not validate), then before the sixth attempt the
    next request carries the same messages followed by the answer and by
    the message of the error as a user message; and when the sixth
    attempt fails so, generateMapping returns null. *)
Theorem C2_generateMapping X schema payload instruction :
  let run := generateMapping X schema payload instruction 0 None in
  is_Some run.1
  ∧ length run.2 ≤ 6
  ∧ (∀ content, run.1 = Some (Normal content) → content ≠ VNull →
       ∃ expression data error,
         getProp content "jsonata" = Normal expression
         ∧ applyJsonataWithValidation X payload expression schema
           = Normal (true, data, error))
  ∧ (∀ client n rq c e,
       createLLMClient X = Normal client →
       run.2 !! n = Some rq →
       client n rq = LlmContent c →
       checkMapping X schema payload (toString c) = Threw e →
       (n < 5 →
          ∃ rq', run.2 !! S n = Some rq'
                 ∧ messages rq' = messages rq
                     ++ [ {| role := assistant; content := VStr (toString c) |};
                          {| role := user; content := VStr (message e) |} ])
       ∧ (n = 5 → run.1 = Some (Normal VNull) ∧ length run.2 = 6)).
Proof.
  intros run. unfold run, generateMapping. simpl (S (5 - 0)).
  split; [apply loop_returns; lia|]. split; [|split].
  - destruct (loop_calls X schema payload instruction 6 0 None []) as (more & -> & H).
    done.
  - intros content Hr Hn.
    destruct (loop_sound X schema payload instruction 6 0 None [] content Hr Hn)
      as [text Ht].
    by apply checkMapping_sound in Ht as [_ Ht].
  - intros client n rq c e Hc Hn Hllm Hcheck.
    pose proof (loop_retries X schema payload instruction client 6 0 None [] n rq c e
                  Hc eq_refl ltac:(lia) Hn ltac:(simpl; lia) Hllm Hcheck) as [H1 H2].
    simpl in H1, H2. rewrite Nat.sub_0_r in H1, H2. split; [done|].
    intros ->. by apply H2.
Qed.

(** Scenario 4 of the specification: the first draft fails validation,
    the second request carries the draft and the error, and its answer
    is returned. *)
Lemma C2_generateMapping_witness :
  let X := Examples.world Examples.turbo Examples.drafts "u1" in
  let run := generateMapping X Examples.name_schema Examples.user_data
               (VStr "full name") 0 None in
  (∃ rq rq',
      run.2 !! 0 = Some rq ∧ run.2 !! 1 = Some rq'
      ∧ messages rq' = messages rq
          ++ [ {| role := assistant;
                  content := VStr (dq "{'jsonata': 'user.firstName & user.lastName', 'confidence': 60, 'confidence_reasoning': 'guess'}") |};
               {| role := user;
                  content := VStr "Validation failed: instance requires property name" |} ])
  ∧ ∃ content data error,
      run.1 = Some (Normal content)
      ∧ applyJsonataWithValidation X Examples.user_data
          (VStr (dq "{'name': user.first & ' ' & user.last}")) Examples.name_schema
        = Normal (true, data, error).
Proof.
  intros X run.
  destruct (C2_generateMapping X Examples.name_schema Examples.user_data (VStr "full name"))
    as (_ & _ & Hsound & Hretry).
  split.
  - eexists.
    destruct (Hretry Examples.drafts 0 _ _ _ eq_refl
                ltac:(vm_compute; reflexivity) ltac:(vm_compute; reflexivity)
                ltac:(vm_compute; reflexivity)) as [H _].
    destruct (H ltac:(lia)) as (rq' & H1 & H2).
    exists rq'. split; [vm_compute; reflexivity|]. split; [exact H1|exact H2].
  - eexists.
    destruct (Hsound _ ltac:(vm_compute; reflexivity) ltac:(discriminate))
      as (expression & data & error & H1 & H2).
    exists data, error. split; [vm_compute; reflexivity|].
    vm_compute in H1. injection H1 as <-. exact H2.
Defined.

End GenerateMapping.

(* ===================================================================== *)
(** * Reasoning models and the temperature (C8)                          *)
(* ===================================================================== *)

Section Temperature.
Import Js LlmClient.

Lemma prefix_app (p s : string) : String.prefix p s = true ↔ ∃ post, s = p +:+ post.
Proof.
  revert s. induction p as [|a p IH]; intros s; simpl.
  - split; [eauto|]. by destruct s.
  - destruct s as [|b s]; simpl.
    + split; [done|]. by intros [post ?].
    + destruct (ascii_dec a b) as [->|Hab].
      * rewrite IH. split; intros [post H]; exists post; [by rewrite H|].
        by injection H.
      * split; [done|]. intros [post H]. injection H as -> _. done.
Qed.

(** [includes] is containment. *)
Lemma includes_contains (s text : string) :
  includes s text = true ↔ Spec.contains s text.
Proof.
  unfold Spec.contains. induction s as [|c s IH].
  - change (includes "" text) with (String.prefix text "" || false).
    rewrite orb_false_r, prefix_app. split.
    + intros [post H]. by exists "", post.
    + intros (pre & post & H). destruct pre; [by exists post|done].
  - change (includes (String c s) text)
      with (String.prefix text (String c s) || includes s text).
    rewrite orb_true_iff, IH, prefix_app. split.
    + intros [[post H]|(pre & post & H)].
      * by exists "", post.
      * exists (String c pre), post. simpl. by rewrite H.
    + intros (pre & post & H). destruct pre as [|c' pre]; simpl in H.
      * left. by exists post.
      * right. injection H as _ H. by exists pre, post.
Qed.

Lemma mapping_requests X schema payload instruction fuel : ∀ retry msgs calls rq,
  rq ∈ (Transform.generateMapping_loop fuel X schema payload instruction retry msgs calls).2 →
  rq ∈ calls ∨ ∃ r m, rq = Transform.mappingRequest X r m.
Proof.
  induction fuel as [|fuel IH]; intros retry msgs calls rq; simpl; [auto|].
  pose proof (attempt_calls X schema payload instruction retry msgs calls) as Ha.
  destruct (Transform.attemptMapping X schema payload instruction retry msgs calls)
    as [[content|e m'] calls']; simpl in Ha.
  - simpl. destruct Ha as [->| ->]; [auto|].
    intros [H|H%list_elem_of_singleton]%elem_of_app; [auto|]. right. eauto.
  - assert (∀ q, q ∈ calls' → q ∈ calls ∨ ∃ r m, q = Transform.mappingRequest X r m)
      as Hc'.
    { intros q. destruct Ha as [->| ->]; [auto|].
      intros [H|H%list_elem_of_singleton]%elem_of_app; [auto|]. right. eauto. }
    destruct (retry <? 5); [|simpl; auto].
    destruct m'; simpl; [|auto].
    intros [H|H]%IH; [|auto]. auto.
Qed.

Lemma schema_attempt_requests X msgs retry calls rq :
  rq ∈ (Schema.attemptSchemaGeneration X msgs retry calls).2 →
  rq ∈ calls
  ∨ Schema.schemaTemperature (getModelName (env X) true) retry = Normal (temperature rq).
Proof.
  unfold Schema.attemptSchemaGeneration.
  destruct (createLLMClient X) as [|client]; simpl; [auto|].
  destruct (Schema.schemaTemperature _ retry) as [|t] eqn:Ht; simpl; [auto|].
  destruct (client _ _); simpl;
    intros [H|H%list_elem_of_singleton]%elem_of_app; auto; subst rq; auto.
Qed.

Lemma schema_requests X fuel : ∀ msgs retry calls rq,
  rq ∈ (Schema.generateSchema_loop fuel X msgs retry calls).2 →
  rq ∈ calls
  ∨ ∃ r, Schema.schemaTemperature (getModelName (env X) true) r = Normal (temperature rq).
Proof.
  induction fuel as [|fuel IH]; intros msgs retry calls rq; simpl.
  { destruct (retry <=? 3); simpl; auto. }
  destruct (retry <=? 3); simpl; [|auto].
  pose proof (schema_attempt_requests X msgs retry calls) as Ha.
  destruct (Schema.attemptSchemaGeneration X msgs retry calls) as [[e|schema] calls'];
    simpl in Ha.
  - destruct (retry =? 3) eqn:Hr.
    + replace (3 <? S retry) with true
        by (symmetry; apply Nat.ltb_lt; apply Nat.eqb_eq in Hr; lia).
      simpl. intros [H|H]%Ha; eauto.
    + destruct (3 <? S retry); simpl.
      * intros [H|H]%Ha; eauto.
      * intros [[H|H]%Ha|H]%IH; eauto.
  - simpl. intros [H|H]%Ha; eauto.
Qed.

Lemma schemaTemperature_cases name retry t :
  Schema.schemaTemperature (Some name) retry = Normal t →
  (name = "o3-mini" → t = Some 0%Q)
  ∧ (name ≠ "o3-mini" → startsWith name "gpt-4" = true → is_Some t)
  ∧ (name ≠ "o3-mini" → startsWith name "gpt-4" = false → t = None).
Proof.
  unfold Schema.schemaTemperature.
  destruct (String.eqb name "o3-mini") eqn:He.
  - apply String.eqb_eq in He. intros [= <-]. split; [done|]. split; done.
  - apply String.eqb_neq in He. destruct (startsWith name "gpt-4").
    + intros [= <-]. split; [done|]. split; [eauto|done].
    + intros [= <-]. split; [done|]. split; done.
Qed.

(** C8, as amended.  isOSeriesModel is true of every name that contains
    gpt-4o or o3.  With such a default model the requests of endpoint
    synthesis and of mapping generation leave the temperature undefined.
    Schema generation goes by the name of its own model instead: the
    temperature is 0 for o3-mini, defined for every other name that
    starts with gpt-4, and undefined for the rest. *)
Theorem C8_reasoning_models :
  (∀ name, Spec.contains name "gpt-4o" ∨ Spec.contains name "o3" →
           isOSeriesModel (Some name) = true)
  ∧ (∀ X, isOSeriesModel (getModelName (env X) false) = true →
       (∀ endpointInput payload credentials lastError previousMessages rq,
          rq ∈ (ApiSynth.prepareEndpoint X endpointInput payload credentials lastError
                  previousMessages).2 →
          temperature rq = None)
       ∧ (∀ schema payload instruction retry msgs rq,
            rq ∈ (Transform.generateMapping X schema payload instruction retry msgs).2 →
            temperature rq = None))
  ∧ (∀ X instruction responseData name rq,
       getModelName (env X) true = Some name →
       rq ∈ (Schema.generateSchema X instruction responseData).2 →
       (name = "o3-mini" → temperature rq = Some 0%Q)
       ∧ (name ≠ "o3-mini" → startsWith name "gpt-4" = true → is_Some (temperature rq))
       ∧ (name ≠ "o3-mini" → startsWith name "gpt-4" = false → temperature rq = None)).
Proof.
  split; [|split].
  - intros name H. unfold isOSeriesModel. simpl. apply orb_true_iff.
    destruct H as [H|H]; [left|right]; by apply includes_contains.
  - intros X HO. split.
    + intros endpointInput payload credentials lastError previousMessages rq.
      unfold ApiSynth.prepareEndpoint, ApiSynth.generateApiConfig.
      destruct (createLLMClient X) as [|client]; simpl; [by intros ?%elem_of_nil|].
      destruct (client _ _); simpl; intros ->%list_elem_of_singleton; simpl;
        unfold ApiSynth.synthesisTemperature; by rewrite HO.
    + intros schema payload instruction retry msgs rq H.
      apply mapping_requests in H as [H|(r & m & ->)]; [by apply elem_of_nil in H|].
      simpl. unfold Transform.mappingTemperature. by rewrite HO.
  - intros X instruction responseData name rq Hname H.
    apply schema_requests in H as [H|[r H]]; [by apply elem_of_nil in H|].
    rewrite Hname in H. by apply schemaTemperature_cases in H.
Qed.

Lemma C8_reasoning_models_witness :
  let X := Examples.world Examples.gpt4o Examples.drafts "u1" in
  isOSeriesModel (Some "openai/gpt-4o-mini") = true
  ∧ (∀ rq, rq ∈ (Transform.generateMapping X Examples.name_schema Examples.user_data
                   (VStr "full name") 0 None).2 → temperature rq = None)
  ∧ (∀ rq, rq ∈ (Schema.generateSchema X "names only" "[]").2 → is_Some (temperature rq)).
Proof.
  intros X. destruct C8_reasoning_models as (Hname & Hsynth & Hschema).
  split; [|split].
  - apply Hname. left. exists "openai/", "-mini". reflexivity.
  - intros rq. apply (Hsynth X eq_refl).
  - intros rq H.
    apply (Hschema X "names only" "[]" "gpt-4o" rq eq_refl H);
      [discriminate | reflexivity].
Defined.

(** C8 as stated fails for schema generation: gpt-4o is a reasoning model
    by the predicate, and the request of generateSchema carries the
    temperature 0; so does the request for o3-mini. *)
Lemma C8_counterexample :
  isOSeriesModel (Some "gpt-4o") = true
  ∧ temperature <$> (Schema.generateSchema
                       (Examples.world Examples.gpt4o
                          (fun _ _ => LlmContent (VStr (dq "{'jsonSchema': {'type': 'object'}}")))
                          "u1")
                       "names only" "[]").2 = [Some 0%Q]
  ∧ isOSeriesModel (Some "o3-mini") = true
  ∧ temperature <$> (Schema.generateSchema
                       (Examples.world [("OPENAI_MODEL", "o3-mini")]
                          (fun _ _ => LlmContent (VStr (dq "{'jsonSchema': {'type': 'object'}}")))
                          "u1")
                       "names only" "[]").2 = [Some 0%Q].
Proof. vm_compute. done. Qed.

End Temperature.

(* ===================================================================== *)
(** * The ids of synthesized configurations (C4)                         *)
(* ===================================================================== *)

Section ConfigIds.
Import Js LlmClient.

Lemma assoc_assoc_set {A} k k' (v : A) l :
  assoc k (assoc_set k' v l) = if String.eqb k k' then Some v else assoc k l.
Proof.
  induction l as [|[k0 v0] l IH]; simpl.
  - done.
  - destruct (String.eqb k' k0) eqn:H0; simpl.
    + apply String.eqb_eq in H0 as ->. by destruct (String.eqb k k0).
    + destruct (String.eqb k k0) eqn:H1; [|done].
      apply String.eqb_eq in H1 as ->.
      by rewrite String.eqb_sym, H0.
Qed.

Lemma assoc_fold_set k (source target : list (string * JsVal)) :
  assoc k source = None →
  assoc k (fold_left (fun acc '(k', v) => assoc_set k' v acc) source target)
  = assoc k target.
Proof.
  revert target. induction source as [|[k0 v0] source IH]; intros target; simpl; [done|].
  destruct (String.eqb k k0) eqn:H0; [done|]. intros H.
  by rewrite IH, assoc_assoc_set, H0.
Qed.

(** A spread leaves a property alone that its source does not have. *)
Lemma assoc_spread k target source :
  assoc k (ownProperties source) = None →
  assoc k (spread target source) = assoc k target.
Proof. apply assoc_fold_set. Qed.

(** The digest that prepareExtract and prepareTransform compute *)
Lemma prepareExtract_id X extractInput payload credentials lastError config calls :
  Extract.prepareExtract X extractInput payload credentials lastError
  = (Normal config, calls) →
  ∃ client c generated,
    createLLMClient X = Normal client
    ∧ (∃ rq, calls = [rq] ∧ client 0 rq = LlmContent c)
    ∧ JSON_parse (toString c) = Normal generated
    ∧ (assoc "id" (ownProperties generated) = None →
       getProp config "id" = Normal (VStr (Transform.requestHash X extractInput payload))).
Proof.
  unfold Extract.prepareExtract, Extract.generateExtractConfig.
  destruct (createLLMClient X) as [|client]; [done|].
  match goal with |- context [client 0 ?r] => set (rq := r) end.
  destruct (client 0 rq) as [|c] eqn:Hc; [done|].
  destruct (JSON_parse (toString c)) as [|generated] eqn:Hp; simpl; [done|].
  intros [= <- <-]. exists client, c, generated.
  split; [done|]. split; [eauto|]. split; [done|].
  intros Hid. simpl. rewrite assoc_spread by done.
  by rewrite !assoc_assoc_set.
Qed.

Lemma prepareTransform_id X fromCache input data orgId config calls :
  Transform.prepareTransform X fromCache input data orgId = (Some (Normal config), calls) →
  config ≠ VNull →
  assoc "id" (ownProperties input) = None →
  getProp config "id" = Normal (VStr (Transform.requestHash X input data))
  ∨ (fromCache = true
     ∧ ∃ cached, getTransformConfigFromRequest X input data orgId = Normal cached
                 ∧ truthy cached = true
                 ∧ config = VObj (spread (ownProperties cached) input)).
Proof.
  intros H Hn Hid. unfold Transform.prepareTransform in H.
  destruct (_ || _) in H; [by injection H as <-|].
  destruct (Transform.isEmptyData data); [by injection H as <-|].
  match type of H with
  | (if fromCache then _ else ?s) = _ =>
      assert (s = (Some (Normal config), calls) →
              getProp config "id" = Normal (VStr (Transform.requestHash X input data)))
        as Hsyn
  end.
  { clear H. destruct (truthy (getPropOpt input "responseMapping")).
    - intros [= <- <-]. simpl. by rewrite assoc_spread.
    - destruct (Transform.generateMapping _ _ _ _ _ _) as [[[|mapping]|] cs]; try done.
      destruct (truthy mapping); [|by intros [= <-]].
      intros [= <- <-]. simpl. rewrite !assoc_assoc_set. simpl.
      by rewrite assoc_spread. }
  destruct fromCache; [|left; by apply Hsyn].
  destruct (getTransformConfigFromRequest X input data orgId) as [|cached] eqn:Hc; [done|].
  destruct (truthy cached) eqn:Ht; [|left; by apply Hsyn].
  injection H as <- <-. right. split; [done|]. eauto.
Qed.

Lemma prepareEndpoint_id X endpointInput payload credentials lastError previousMessages
    config log calls :
  ApiSynth.prepareEndpoint X endpointInput payload credentials lastError previousMessages
  = (Normal (config, log), calls) →
  getProp config "id" = Normal (VStr (randomUUID X)).
Proof.
  unfold ApiSynth.prepareEndpoint, ApiSynth.generateApiConfig.
  destruct (createLLMClient X) as [|client]; [done|].
  destruct (client 0 _) as [|c]; [done|].
  destruct (JSON_parse (toString c)) as [|generated]; simpl; [done|].
  destruct (getProp generated "urlHost"); simpl; [done|].
  intros [= <- _ _]. simpl. unfold getPropOpt. simpl.
  by rewrite assoc_assoc_set.
Qed.

(** C4, as amended.  The id of a configuration that prepareExtract or
    prepareTransform builds is the MD5 digest of the JSON text of
    [{request: input, payloadKeys: getSchemaFromData(payload)}], where no
    id property of the model's answer (extract) or of the input
    (transform) overrides it and prepareTransform does not return the
    cached configuration; the digest is the same for equal inputs and
    payloads of equal inferred schema.  The id of a configuration that
    prepareEndpoint builds is the value of crypto.randomUUID(). *)
Theorem C4_config_ids X :
  (∀ extractInput payload credentials lastError config calls,
     Extract.prepareExtract X extractInput payload credentials lastError
     = (Normal config, calls) →
     ∃ client c generated,
       createLLMClient X = Normal client
       ∧ (∃ rq, calls = [rq] ∧ client 0 rq = LlmContent c)
       ∧ JSON_parse (toString c) = Normal generated
       ∧ (assoc "id" (ownProperties generated) = None →
          getProp config "id"
          = Normal (VStr (md5 X (stringify_text
                                   (VObj [("request", extractInput);
                                          ("payloadKeys", getSchemaFromData X payload)]))))))
  ∧ (∀ fromCache input data orgId config calls,
       Transform.prepareTransform X fromCache input data orgId
       = (Some (Normal config), calls) →
       config ≠ VNull →
       assoc "id" (ownProperties input) = None →
       getProp config "id"
       = Normal (VStr (md5 X (stringify_text
                                (VObj [("request", input);
                                       ("payloadKeys", getSchemaFromData X data)]))))
       ∨ (fromCache = true
          ∧ ∃ cached, getTransformConfigFromRequest X input data orgId = Normal cached
                      ∧ truthy cached = true
                      ∧ config = VObj (spread (ownProperties cached) input)))
  ∧ (∀ input data data',
       getSchemaFromData X data = getSchemaFromData X data' →
       Transform.requestHash X input data = Transform.requestHash X input data')
  ∧ (∀ endpointInput payload credentials lastError previousMessages config log calls,
       ApiSynth.prepareEndpoint X endpointInput payload credentials lastError
         previousMessages = (Normal (config, log), calls) →
       getProp config "id" = Normal (VStr (randomUUID X))).
Proof.
  split; [|split; [|split]].
  - intros *. apply prepareExtract_id.
  - intros *. apply prepareTransform_id.
  - intros input data data' H. unfold Transform.requestHash. by rewrite H.
  - intros *. apply prepareEndpoint_id.
Qed.

(** A transform with a mapping of its own and an extract: both ids are
    digests, and a payload of the same shape gives the same one. *)
Lemma C4_config_ids_witness :
  let X := Examples.world Examples.turbo (Examples.answers Examples.items_config) "uuid-1" in
  (∃ config,
      (Transform.prepareTransform X false Examples.full_name_input Examples.user_data None).1
      = Some (Normal config)
      ∧ getProp config "id"
        = Normal (VStr (md5 X (stringify_text
             (VObj [("request", Examples.full_name_input);
                    ("payloadKeys", getSchemaFromData X Examples.user_data)])))))
  ∧ Transform.requestHash X Examples.full_name_input Examples.user_data
    = Transform.requestHash X Examples.full_name_input
        (VObj [("user", VObj [("first", VStr "A"); ("last", VStr "B")])]).
Proof.
  intros X. destruct (C4_config_ids X) as (_ & Htransform & Hstable & _).
  split.
  - eexists. split; [vm_compute; reflexivity|].
    destruct (Htransform false Examples.full_name_input Examples.user_data None _ _
                ltac:(vm_compute; reflexivity) ltac:(discriminate) eq_refl)
      as [H|[H _]]; [exact H|discriminate H].
  - apply Hstable. reflexivity.
Defined.

(** C4 as stated fails for endpoint configurations: two calls of
    prepareEndpoint with the same input and the same payload, in worlds
    that differ in the random source only, give different ids. *)
Lemma C4_counterexample :
  let synth := fun uuid =>
    ApiSynth.prepareEndpoint
      (Examples.world Examples.turbo (Examples.answers Examples.items_config) uuid)
      Examples.items_input (VObj [("a", VInt 1)]) VNull None [] in
  ∃ c1 l1 c2 l2,
    (synth "6f1c-uuid-1").1 = Normal (c1, l1)
    ∧ (synth "9a2e-uuid-2").1 = Normal (c2, l2)
    ∧ getProp c1 "id" = Normal (VStr "6f1c-uuid-1")
    ∧ getProp c2 "id" = Normal (VStr "9a2e-uuid-2")
    ∧ getProp c1 "id" ≠ getProp c2 "id".
Proof.
  do 4 eexists. split; [vm_compute; reflexivity|]. split; [vm_compute; reflexivity|].
  split; [reflexivity|]. split; [reflexivity|]. discriminate.
Qed.

End ConfigIds.

(* ===================================================================== *)
(** * The request executor: pagination variables and precedence          *)
(* ===================================================================== *)

Section PassVariables.
Import Js Tools Api Props.

Lemma paginate_pass_vars endpoint st n :
  (pagination_type endpoint = Some PAGE_BASED → page st = (1 + Z.of_nat n)%Z) →
  (pagination_type endpoint = Some OFFSET_BASED →
   offset st = (int_or (pagination_pageSize endpoint) 50 * Z.of_nat n)%Z) →
  (paginate endpoint st).1 = pass_vars endpoint n.
Proof.
  intros Hp Ho. unfold paginate, pass_vars.
  destruct (pagination_type endpoint) as [[]|]; simpl; [ | | done | done].
  - by rewrite Ho.
  - by rewrite Hp.
Qed.

(** The counters after a pass: page and offset have advanced by one step. *)
Lemma paginate_advances endpoint st n :
  (pagination_type endpoint = Some PAGE_BASED → page st = (1 + Z.of_nat n)%Z) →
  (pagination_type endpoint = Some OFFSET_BASED →
   offset st = (int_or (pagination_pageSize endpoint) 50 * Z.of_nat n)%Z) →
  (pagination_type endpoint = Some PAGE_BASED →
   page (paginate endpoint st).2 = (1 + Z.of_nat (S n))%Z)
  ∧ (pagination_type endpoint = Some OFFSET_BASED →
     offset (paginate endpoint st).2
     = (int_or (pagination_pageSize endpoint) 50 * Z.of_nat (S n))%Z).
Proof.
  intros Hp Ho. unfold paginate.
  destruct (pagination_type endpoint) as [[]|]; simpl; split; try done.
  - intros _. rewrite Ho by done. lia.
  - intros _. rewrite Hp by done. lia.
Qed.

Lemma iteration_keeps_counters endpoint V options callAxios st tr st' tr' :
  iteration endpoint V options callAxios st tr = (Normal st', tr') →
  page st' = page (paginate endpoint st).2 ∧ offset st' = offset (paginate endpoint st).2.
Proof.
  intros Hit.
  pose proof (iteration_unfold endpoint V options callAxios st tr) as (_ & _ & Hr).
  rewrite Hit in Hr. simpl in Hr.
  destruct (buildRequest _ _ _); destruct Hr as [Hr0 Hr]; [done|].
  destruct (checkResponse _ _ _); simpl in Hr; [done|].
  destruct (extractData _ _); simpl in Hr; [done|].
  injection Hr as ->. apply accumulate_keeps_counters.
Qed.

Lemma loop_pass_vars endpoint V options callAxios fuel : ∀ st tr,
  length (bindings tr) = length (iterations tr) →
  (pagination_type endpoint = Some PAGE_BASED →
   page st = (1 + Z.of_nat (length (iterations tr)))%Z) →
  (pagination_type endpoint = Some OFFSET_BASED →
   offset st = (int_or (pagination_pageSize endpoint) 50
                * Z.of_nat (length (iterations tr)))%Z) →
  (∀ i pv, iterations tr !! i = Some pv → pv = pass_vars endpoint i) →
  (∀ i rv, bindings tr !! i = Some rv → rv = V ∪ pass_vars endpoint i) →
  let r := callEndpoint_loop fuel endpoint V options callAxios st tr in
  (∀ i pv, iterations r.2 !! i = Some pv → pv = pass_vars endpoint i)
  ∧ (∀ i rv, bindings r.2 !! i = Some rv → rv = V ∪ pass_vars endpoint i).
Proof.
  induction fuel as [|fuel IH]; intros st tr Hlen Hpage Hoff Hi Hb; simpl.
  { destruct (hasMore st && _); done. }
  destruct (hasMore st && _); [|done].
  pose proof (iteration_unfold endpoint V options callAxios st tr) as (Hit & Hbt & _).
  simpl in Hit, Hbt.
  pose proof (paginate_pass_vars endpoint st _ Hpage Hoff) as Hnew.
  pose proof (paginate_advances endpoint st _ Hpage Hoff) as [Hpage' Hoff'].
  rewrite Hnew in Hit, Hbt.
  assert (∀ i pv, (iterations tr ++ [pass_vars endpoint (length (iterations tr))]) !! i
                  = Some pv → pv = pass_vars endpoint i) as Hi'.
  { intros i pv [H|[Hge H]]%lookup_app_Some; [by apply Hi|].
    apply list_lookup_singleton_Some in H as [Hz <-].
    replace i with (length (iterations tr)) by lia. done. }
  assert (∀ i rv, (bindings tr ++ [V ∪ pass_vars endpoint (length (iterations tr))]) !! i
                  = Some rv → rv = V ∪ pass_vars endpoint i) as Hb'.
  { intros i rv [H|[Hge H]]%lookup_app_Some; [by apply Hb|].
    apply list_lookup_singleton_Some in H as [Hz <-].
    replace i with (length (iterations tr)) by lia. done. }
  pose proof (iteration_keeps_counters endpoint V options callAxios st tr) as Hk.
  destruct (iteration endpoint V options callAxios st tr) as [[e|st'] tr'];
    simpl in Hit, Hbt; simpl.
  - rewrite Hit, Hbt. done.
  - destruct (Hk st' tr' eq_refl) as [Hp1 Hp2].
    apply IH.
    + rewrite Hit, Hbt, !length_app. simpl. lia.
    + intros Hpb. rewrite Hp1, Hit, length_app. simpl.
      rewrite (Hpage' Hpb). f_equal. lia.
    + intros Hob. rewrite Hp2, Hit, length_app. simpl.
      rewrite (Hoff' Hob). f_equal. lia.
    + by rewrite Hit.
    + by rewrite Hbt.
Qed.

Lemma list_by_index {A} (f : nat → A) (l : list A) :
  (∀ i x, l !! i = Some x → x = f i) → l = f <$> seq 0 (length l).
Proof.
  intros H. apply list_eq. intros i. rewrite list_lookup_fmap.
  destruct (l !! i) as [x|] eqn:E.
  - rewrite (H i x E), lookup_seq_lt by (by eapply lookup_lt_Some). done.
  - rewrite lookup_seq_ge by (by apply lookup_ge_None). done.
Qed.

Lemma loop_bindings endpoint V options callAxios fuel : ∀ st tr,
  bindings tr = (V ∪.) <$> iterations tr →
  let r := callEndpoint_loop fuel endpoint V options callAxios st tr in
  bindings r.2 = (V ∪.) <$> iterations r.2.
Proof.
  induction fuel as [|fuel IH]; intros st tr Hb; simpl.
  { destruct (hasMore st && _); done. }
  destruct (hasMore st && _); [|done].
  pose proof (iteration_unfold endpoint V options callAxios st tr) as (Hit & Hbt & _).
  simpl in Hit, Hbt.
  assert (bindings (iteration endpoint V options callAxios st tr).2
          = (V ∪.) <$> iterations (iteration endpoint V options callAxios st tr).2) as Hb'.
  { by rewrite Hit, Hbt, fmap_app, Hb. }
  destruct (iteration endpoint V options callAxios st tr) as [[e|st'] tr']; simpl in *;
    [done|]. by apply IH.
Qed.

(** X1.  In every run of callEndpoint, whatever the page size, the pagination
    variables generated by the passes are, in order, those of pass 0, 1,
    2, ...: with PAGE_BASED pagination page = i + 1, with OFFSET_BASED
    pagination offset = i * limit, and in both cases
    limit = pageSize || 50, so that a page size of 0 counts as 50;
    without pagination, none. *)
Theorem pagination_variables endpoint payload credentials options callAxios :
  let run := callEndpoint endpoint payload credentials options callAxios in
  iterations run.2
  = (fun i : nat =>
       match pagination_type endpoint with
       | Some PAGE_BASED =>
           <["page" := VInt (1 + Z.of_nat i)]>
             (<["limit" := VInt (int_or (pagination_pageSize endpoint) 50)]> ∅)
       | Some OFFSET_BASED =>
           <["offset" := VInt (int_or (pagination_pageSize endpoint) 50 * Z.of_nat i)]>
             (<["limit" := VInt (int_or (pagination_pageSize endpoint) 50)]> ∅)
       | _ => ∅
       end) <$> seq 0 (length (iterations run.2)).
Proof.
  intros run. apply (list_by_index (pass_vars endpoint)).
  apply (loop_pass_vars endpoint (merge_vars payload credentials) options callAxios
           callEndpoint_fuel initial_state no_trace); simpl; try done.
  intros _. lia.
Qed.

(** X2.  The variables a pass interpolates with are the credentials, the
    payload and the pagination variables of the pass, in this order of
    precedence: a name bound by the credentials has the credentials'
    value, otherwise a name bound by the payload has the payload's value,
    and only a name that neither binds has the value of the pagination
    variable.  So a payload variable called page, offset or limit
    replaces the counter of the loop in every pass. *)
Theorem variable_precedence endpoint payload credentials options callAxios :
  let run := callEndpoint endpoint payload credentials options callAxios in
  bindings run.2 = (fun pv => credentials ∪ (payload ∪ pv)) <$> iterations run.2
  ∧ ∀ (pv : gmap string JsVal) k,
      (credentials ∪ (payload ∪ pv)) !! k
      = match credentials !! k with
        | Some v => Some v
        | None => match payload !! k with
                  | Some v => Some v
                  | None => pv !! k
                  end
        end.
Proof.
  intros run. split.
  - unfold run, callEndpoint.
    rewrite (loop_bindings endpoint (merge_vars payload credentials) options callAxios
               callEndpoint_fuel initial_state no_trace eq_refl).
    apply list_fmap_ext. intros _ pv _. unfold merge_vars. by rewrite (assoc_L (∪)).
  - intros pv k. rewrite !lookup_union.
    destruct (credentials !! k), (payload !! k), (pv !! k); done.
Qed.

End PassVariables.

(* ===================================================================== *)
(** * The request executor: how runs end                                 *)
(* ===================================================================== *)

Section Endings.
Import Js Tools Api Props.

(** The loop is left where its condition fails. *)
Lemma loop_done fuel endpoint V options callAxios st tr :
  hasMore st && (loopCounter st <=? 500)%Z = false →
  callEndpoint_loop fuel endpoint V options callAxios st tr
  = (Some (Normal (finish st)), tr).
Proof. intros H. destruct fuel; simpl; by rewrite H. Qed.

Lemma loop_step fuel endpoint V options callAxios st tr :
  hasMore st = true → (loopCounter st ≤ 500)%Z →
  callEndpoint_loop (S fuel) endpoint V options callAxios st tr
  = match iteration endpoint V options callAxios st tr with
    | (Threw e, tr') => (Some (Threw e), tr')
    | (Normal st', tr') => callEndpoint_loop fuel endpoint V options callAxios st' tr'
    end.
Proof.
  intros Hm Hle. simpl. rewrite Hm. simpl.
  by replace (loopCounter st <=? 500)%Z with true by (symmetry; by apply Z.leb_le).
Qed.

(** With PAGE_BASED or OFFSET_BASED pagination the head of a pass leaves
    hasMore alone. *)
Lemma paginate_goes_on endpoint st :
  pagination_type endpoint = Some PAGE_BASED
  ∨ pagination_type endpoint = Some OFFSET_BASED →
  hasMore (paginate endpoint st).2 = hasMore st.
Proof. unfold paginate. by intros [-> | ->]. Qed.

(** What accumulate does with a page that is not the text of the
    accumulated results. *)
Lemma accumulate_page endpoint items st :
  stringify (VArr items) ≠ stringify (VArr (allResults st)) →
  accumulate endpoint (VArr items) st
  = {| allResults := allResults st ++ items; page := page st; offset := offset st;
       hasMore := if shorter_than_page endpoint (length items) then false else hasMore st;
       loopCounter := loopCounter st + 1 |}.
Proof.
  intros H. unfold accumulate. by rewrite bool_decide_eq_false_2.
Qed.

Section Collect.

Context (endpoint : ApiConfig) (payload credentials : gmap string JsVal)
        (options : option RequestOptions) (callAxios : HttpCaller)
        (pages : list (list JsVal)).

Local Abbreviation V := (merge_vars payload credentials).

Hypothesis Htype :
  pagination_type endpoint = Some PAGE_BASED
  ∨ pagination_type endpoint = Some OFFSET_BASED.
Hypothesis Hvalid : validateVariables endpoint (keys V) = [].
Hypothesis Hbody : ∀ pv, ∃ b, parseBody endpoint (V ∪ pv) = Normal b.
Hypothesis Hserve : ∀ i items rq,
  pages !! i = Some items →
  buildRequest endpoint (V ∪ pass_vars endpoint i) options = Normal rq →
  bind (checkResponse endpoint rq (callAxios i rq options)) (extractData endpoint)
  = Normal (VArr items).
Hypothesis Hfull : ∀ i items,
  pages !! i = Some items → S i < length pages →
  shorter_than_page endpoint (length items) = false.
Hypothesis Hnew : ∀ i items,
  pages !! i = Some items →
  stringify (VArr items) ≠ stringify (VArr (concat (take i pages))).
Hypothesis Hend :
  (∃ items, last pages = Some items ∧ shorter_than_page endpoint (length items) = true)
  ∨ length pages = 501.
Hypothesis Hmax : length pages ≤ 501.

Lemma collect_from rest : ∀ before st tr fuel,
  pages = before ++ rest → rest ≠ [] →
  hasMore st = true →
  loopCounter st = Z.of_nat (length before) →
  length (httpCalls tr) = length before →
  allResults st = concat before →
  (pagination_type endpoint = Some PAGE_BASED →
   page st = (1 + Z.of_nat (length before))%Z) →
  (pagination_type endpoint = Some OFFSET_BASED →
   offset st = (int_or (pagination_pageSize endpoint) 50 * Z.of_nat (length before))%Z) →
  length rest ≤ fuel →
  let r := callEndpoint_loop fuel endpoint V options callAxios st tr in
  r.1 = Some (Normal {| result_data := match concat pages with
                                       | [single] => single
                                       | all => VArr all
                                       end |})
  ∧ length (httpCalls r.2) = length pages.
Proof.
  induction rest as [|items rest IH];
    intros before st tr fuel Hpages Hne Hm Hc Hcalls Hacc Hpage Hoff Hfuel; [done|].
  assert (length pages = length before + S (length rest)) as Hlen
    by (rewrite Hpages, length_app; simpl; lia).
  assert (pages !! length before = Some items) as Hi
    by (rewrite Hpages; apply list_lookup_middle; done).
  destruct fuel as [|fuel]; [simpl in Hfuel; lia|].
  rewrite loop_step by (done || lia).
  pose proof (paginate_pass_vars endpoint st _ Hpage Hoff) as Hpv.
  pose proof (paginate_advances endpoint st _ Hpage Hoff) as [Hpage' Hoff'].
  destruct (paginate_keeps endpoint st) as [Ha1 Hc1].
  pose proof (paginate_goes_on endpoint st Htype) as Hm1.
  destruct (Hbody (paginate endpoint st).1) as [b Hb].
  destruct (buildRequest_valid endpoint V (paginate endpoint st).1 options b
              (paginate_reserved endpoint st) Hvalid Hb) as (rq & Hrq & _).
  rewrite (iteration_built endpoint V options callAxios st tr rq Hrq).
  rewrite Hpv in Hrq. pose proof (Hserve _ items rq Hi Hrq) as Hs.
  rewrite Hcalls.
  destruct (checkResponse endpoint rq (callAxios (length before) rq options)) as [|d];
    simpl in Hs; [done|]. cbn [bind]. rewrite Hs. cbn [bind].
  rewrite accumulate_page.
  2:{ rewrite Ha1, Hacc. specialize (Hnew _ items Hi).
      by rewrite Hpages, take_app_length in Hnew. }
  rewrite Ha1, Hc1, Hm1, Hm, Hacc, Hc.
  set (st' := {| allResults := concat before ++ items |}).
  set (tr' := log_call rq _).
  assert (length (httpCalls tr') = S (length before)) as Hcalls'.
  { unfold tr'. simpl. rewrite length_app. simpl. lia. }
  assert (concat before ++ items = concat (before ++ [items])) as Hcat.
  { by rewrite concat_app, (concat_cons items []), app_nil_r. }
  destruct rest as [|next rest].
  - (* the last page *)
    assert (last pages = Some items) as Hl by (by rewrite Hpages, last_snoc).
    rewrite loop_done.
    + cbv zeta. cbn [fst snd]. rewrite Hcalls'. split; [|simpl in Hlen; lia].
      unfold finish, st'. cbn [allResults]. by rewrite Hcat, <- Hpages.
    + unfold st'. simpl. destruct Hend as [(items' & Hl' & Hshort)|H501].
      * rewrite Hl in Hl'. injection Hl' as <-. by rewrite Hshort.
      * rewrite andb_false_iff. right. apply Z.leb_gt. simpl in Hlen. lia.
  - (* more pages follow *)
    assert (shorter_than_page endpoint (length items) = false) as Hlong.
    { apply (Hfull (length before)); [done|]. simpl in Hlen. lia. }
    apply (IH (before ++ [items]) st' tr' fuel).
    + by rewrite <- app_assoc.
    + done.
    + unfold st'. simpl. by rewrite Hlong.
    + unfold st'. simpl. rewrite length_app. simpl. lia.
    + rewrite Hcalls', length_app. simpl. lia.
    + done.
    + intros Hp. unfold st'. simpl. rewrite (Hpage' Hp), length_app. simpl. f_equal. lia.
    + intros Ho. unfold st'. simpl. rewrite (Hoff' Ho), length_app. simpl. f_equal. lia.
    + simpl in Hfuel |- *. lia.
Qed.

End Collect.

(** X3.  A server that paginates as asked has all its pages collected.  Let
    the request of every pass be buildable (no unbound placeholder, a
    body that parses), and let the server answer the request of pass [i]
    with page [i] of a list of pages, each page different as JSON text
    from all that came before it, every page but the last at least
    pageSize long, and the last one shorter than pageSize (or the 501st).
    Then callEndpoint makes exactly one call per page and returns the
    items of all pages in order (the item itself if there is exactly
    one). *)
Theorem pages_collected endpoint payload credentials options callAxios
    (pages : list (list JsVal)) :
  pagination_type endpoint = Some PAGE_BASED
  ∨ pagination_type endpoint = Some OFFSET_BASED →
  validateVariables endpoint (keys (merge_vars payload credentials)) = [] →
  (∀ pv, ∃ b, parseBody endpoint (merge_vars payload credentials ∪ pv) = Normal b) →
  (∀ i items rq,
     pages !! i = Some items →
     buildRequest endpoint (merge_vars payload credentials ∪ pass_vars endpoint i) options
     = Normal rq →
     bind (checkResponse endpoint rq (callAxios i rq options)) (extractData endpoint)
     = Normal (VArr items)) →
  (∀ i items, pages !! i = Some items → S i < length pages →
              shorter_than_page endpoint (length items) = false) →
  (∀ i items, pages !! i = Some items →
              stringify (VArr items) ≠ stringify (VArr (concat (take i pages)))) →
  (∃ items, last pages = Some items ∧ shorter_than_page endpoint (length items) = true)
  ∨ length pages = 501 →
  length pages ≤ 501 →
  let run := callEndpoint endpoint payload credentials options callAxios in
  run.1 = Some (Normal {| result_data := match concat pages with
                                         | [single] => single
                                         | all => VArr all
                                         end |})
  ∧ length (httpCalls run.2) = length pages.
Proof.
  intros Htype Hvalid Hbody Hserve Hfull Hnew Hend Hmax run.
  assert (pages ≠ []) as Hne.
  { destruct Hend as [(items & Hl & _)|H]; intros ->; done. }
  apply (collect_from endpoint payload credentials options callAxios pages
           Htype Hvalid Hbody Hserve Hfull Hnew Hend Hmax pages [] initial_state no_trace
           callEndpoint_fuel); simpl; try done.
  - intros _. lia.
  - unfold callEndpoint_fuel. lia.
Qed.

Section Passes.

Context (endpoint : ApiConfig) (payload credentials : gmap string JsVal)
        (options : option RequestOptions) (callAxios : HttpCaller).

Local Abbreviation V := (merge_vars payload credentials).
Local Abbreviation run := (callEndpoint endpoint payload credentials options callAxios).
Local Abbreviation head := (loop_head endpoint payload credentials options callAxios).

(** A pass whose response is accepted and that clears hasMore ends the
    run with the results it leaves. *)
Lemma accepted_last_pass st tr rq d v :
  head st tr → hasMore st = true → (loopCounter st ≤ 500)%Z →
  buildRequest endpoint (V ∪ (paginate endpoint st).1) options = Normal rq →
  checkResponse endpoint rq (callAxios (length (httpCalls tr)) rq options) = Normal d →
  extractData endpoint d = Normal v →
  hasMore (accumulate endpoint v (paginate endpoint st).2) = false →
  run.1 = Some (Normal (finish (accumulate endpoint v (paginate endpoint st).2)))
  ∧ httpCalls run.2 = httpCalls tr ++ [rq].
Proof.
  intros Hh Hm Hle Hb Hc He Hs.
  pose proof (iteration_built endpoint V options callAxios st tr rq Hb) as Hit.
  rewrite Hc in Hit. cbn [bind] in Hit. rewrite He in Hit. cbn [bind] in Hit.
  by rewrite (last_pass endpoint payload credentials options callAxios st tr _ _
                Hh Hm Hle Hit Hs).
Qed.

(** A pass whose response is rejected ends the run with the exception. *)
Lemma rejected_pass st tr rq e :
  head st tr → hasMore st = true → (loopCounter st ≤ 500)%Z →
  buildRequest endpoint (V ∪ (paginate endpoint st).1) options = Normal rq →
  checkResponse endpoint rq (callAxios (length (httpCalls tr)) rq options) = Threw e →
  run.1 = Some (Threw e) ∧ httpCalls run.2 = httpCalls tr ++ [rq].
Proof.
  intros Hh Hm Hle Hb Hc.
  pose proof (iteration_built endpoint V options callAxios st tr rq Hb) as Hit.
  rewrite Hc in Hit. cbn [bind] in Hit.
  by rewrite (throwing_pass endpoint payload credentials options callAxios st tr _ _
                Hh Hm Hle Hit).
Qed.

(** X4.  At any pass of a run: a page (the response after dataPath
    extraction, an array) that is shorter than pageSize and is not, as
    JSON text, the accumulated results, is appended to the results and
    ends the run; no further call is made. *)
Theorem short_page_ends st tr rq d items size :
  loop_head endpoint payload credentials options callAxios st tr →
  hasMore st = true → (loopCounter st ≤ 500)%Z →
  buildRequest endpoint (merge_vars payload credentials ∪ (paginate endpoint st).1) options
  = Normal rq →
  checkResponse endpoint rq (callAxios (length (httpCalls tr)) rq options) = Normal d →
  extractData endpoint d = Normal (VArr items) →
  stringify (VArr items) ≠ stringify (VArr (allResults st)) →
  pagination_pageSize endpoint = Some size → (Z.of_nat (length items) < size)%Z →
  let run := callEndpoint endpoint payload credentials options callAxios in
  run.1 = Some (Normal {| result_data := match allResults st ++ items with
                                         | [single] => single
                                         | all => VArr all
                                         end |})
  ∧ httpCalls run.2 = httpCalls tr ++ [rq].
Proof.
  intros Hh Hm Hle Hb Hc He Hne Hsize Hlt.
  destruct (paginate_keeps endpoint st) as [Ha _].
  assert (shorter_than_page endpoint (length items) = true) as Hshort.
  { unfold shorter_than_page. rewrite Hsize. by apply Z.ltb_lt. }
  pose proof (accepted_last_pass st tr rq d (VArr items) Hh Hm Hle Hb Hc He) as H.
  rewrite accumulate_page, Hshort, Ha in H by (by rewrite Ha). by apply H.
Qed.


(** X6.  At any pass of a run: a response whose status is not 200, 201 or 204,
    or whose body has a truthy error property (whatever the status), makes
    callEndpoint throw an error that names the status; the results of
    the earlier passes are lost and no further call is made.  For
    status 429 the text says that the rate limit was exceeded. *)
Theorem failed_response_throws st tr rq response :
  loop_head endpoint payload credentials options callAxios st tr →
  hasMore st = true → (loopCounter st ≤ 500)%Z →
  buildRequest endpoint (merge_vars payload credentials ∪ (paginate endpoint st).1) options
  = Normal rq →
  callAxios (length (httpCalls tr)) rq options = AxResponse response →
  status response ∉ [200; 201; 204]%Z
  ∨ truthy (getPropOpt (data response) "error") = true →
  let run := callEndpoint endpoint payload credentials options callAxios in
  ∃ detail,
    run.1 = Some (Threw (Error ("API call failed with status " +:+ pretty (status response)
                                  +:+ ". Response: " +:+ detail)))
    ∧ httpCalls run.2 = httpCalls tr ++ [rq]
    ∧ (status response = 429%Z → ∃ more, detail = "Rate limit exceeded. " +:+ more).
Proof.
  intros Hh Hm Hle Hb Hc Hbad.
  assert (negb (bool_decide (status response ∈ [200; 201; 204]%Z))
          || truthy (getPropOpt (data response) "error") = true) as Hcond.
  { apply orb_true_iff. destruct Hbad as [H|H]; [left|by right].
    by rewrite bool_decide_eq_false_2. }
  pose proof (rejected_pass st tr rq) as H.
  unfold checkResponse in H. rewrite Hc, Hcond in H.
  destruct (status response =? 429)%Z eqn:H429.
  - eexists. destruct (H _ Hh Hm Hle Hb eq_refl) as [H1 H2].
    split; [exact H1|]. split; [exact H2|]. intros _. eexists. reflexivity.
  - eexists. destruct (H _ Hh Hm Hle Hb eq_refl) as [H1 H2].
    split; [exact H1|]. split; [exact H2|]. intros H'. rewrite H' in H429. done.
Qed.


End Passes.

End Endings.

Lemma pages_collected_witness :
  let endpoint := Examples.paged Api.PAGE_BASED (Some 2%Z) in
  let pages := [[Js.VInt 1; Js.VInt 2]; [Js.VInt 3; Js.VInt 4]; [Js.VInt 5]] in
  let run := Api.callEndpoint endpoint ∅ ∅ None (Examples.serve (Js.VArr <$> pages)) in
  run.1 = Some (Js.Normal {| Api.result_data := match concat pages with
                                               | [single] => single
                                               | all => Js.VArr all
                                               end |})
  ∧ length (Api.httpCalls run.2) = length pages.
Proof.
  apply (pages_collected (Examples.paged Api.PAGE_BASED (Some 2%Z)) ∅ ∅ None
           (Examples.serve (Js.VArr <$> [[Js.VInt 1; Js.VInt 2]; [Js.VInt 3; Js.VInt 4];
                                         [Js.VInt 5]]))
           [[Js.VInt 1; Js.VInt 2]; [Js.VInt 3; Js.VInt 4]; [Js.VInt 5]]).
  - left. reflexivity.
  - vm_compute. reflexivity.
  - intros pv. eexists. reflexivity.
  - intros [|[|[|i]]] items rq H _; try discriminate H;
      injection H as <-; vm_compute; reflexivity.
  - intros [|[|[|i]]] items H Hi; try discriminate H;
      injection H as <-; try reflexivity; simpl in Hi; lia.
  - intros [|[|[|i]]] items H; try discriminate H;
      injection H as <-; vm_compute; discriminate.
  - left. eexists. split; reflexivity.
  - simpl. lia.
Defined.

Lemma short_page_ends_witness :
  let endpoint := Examples.paged Api.PAGE_BASED (Some 10%Z) in
  let callAxios := Examples.serve [Js.VArr [Js.VInt 1; Js.VInt 2]] in
  let run := Api.callEndpoint endpoint ∅ ∅ None callAxios in
  ∃ rq,
    Api.buildRequest endpoint
      (Api.merge_vars ∅ ∅ ∪ (Api.paginate endpoint Api.initial_state).1) None = Js.Normal rq
    ∧ run.1 = Some (Js.Normal {| Api.result_data :=
                                   match Api.allResults Api.initial_state
                                         ++ [Js.VInt 1; Js.VInt 2] with
                                   | [single] => single
                                   | all => Js.VArr all
                                   end |})
    ∧ Api.httpCalls run.2 = Api.httpCalls Api.no_trace ++ [rq].
Proof.
  eexists. split; [vm_compute; reflexivity|].
  eapply (short_page_ends (Examples.paged Api.PAGE_BASED (Some 10%Z)) ∅ ∅ None
            (Examples.serve [Js.VArr [Js.VInt 1; Js.VInt 2]])
            Api.initial_state Api.no_trace _ _ [Js.VInt 1; Js.VInt 2] 10%Z).
  - constructor.
  - reflexivity.
  - simpl. lia.
  - vm_compute. reflexivity.
  - vm_compute. reflexivity.
  - vm_compute. reflexivity.
  - vm_compute. discriminate.
  - reflexivity.
  - simpl. lia.
Defined.


(** Status 200 with an error property in the body *)
Lemma failed_response_throws_witness :
  let endpoint := Examples.config (Some "/items") None None None None None in
  let response :=
    {| Api.status := 200; Api.data := Js.VObj [("error", Js.VStr "quota exceeded")];
       Api.rs_headers := [] |} in
  let callAxios : Api.HttpCaller := fun _ _ _ => Api.AxResponse response in
  let run := Api.callEndpoint endpoint ∅ ∅ None callAxios in
  ∃ rq,
    Api.buildRequest endpoint
      (Api.merge_vars ∅ ∅ ∪ (Api.paginate endpoint Api.initial_state).1) None = Js.Normal rq
    ∧ ∃ detail,
        run.1 = Some (Js.Threw (Js.Error ("API call failed with status "
                                            +:+ pretty (Api.status response)
                                            +:+ ". Response: " +:+ detail)))
        ∧ Api.httpCalls run.2 = Api.httpCalls Api.no_trace ++ [rq]
        ∧ (Api.status response = 429%Z → ∃ more, detail = "Rate limit exceeded. " +:+ more).
Proof.
  eexists. split; [vm_compute; reflexivity|].
  eapply (failed_response_throws (Examples.config (Some "/items") None None None None None)
            ∅ ∅ None
            (fun _ _ _ =>
               Api.AxResponse {| Api.status := 200;
                                 Api.data := Js.VObj [("error", Js.VStr "quota exceeded")];
                                 Api.rs_headers := [] |})
            Api.initial_state Api.no_trace).
  - constructor.
  - reflexivity.
  - simpl. lia.
  - vm_compute. reflexivity.
  - reflexivity.
  - right. reflexivity.
Defined.


(* ===================================================================== *)
(** * The walk along dataPath, in callEndpoint and in processFile        *)
(* ===================================================================== *)

Section DataPath.
Import Js Tools Api Props.


Lemma truthy_defined v : truthy v = true → defined v.
Proof. by destruct v. Qed.







Lemma follow_defined parts : ∀ d v, defined d → follow parts d = Some v → defined v.
Proof.
  induction parts as [|part parts IH]; intros d v Hd; simpl; [by intros [= <-]|].
  destruct (getProp d part) as [|next]; [done|].
  destruct (truthy next) eqn:Ht; [|done]. apply IH. by apply truthy_defined.
Qed.

(** Where every part of the path names a truthy property, both walks
    arrive at the value that the path leads to. *)
Lemma navigate_follow parts : ∀ d v,
  follow parts d = Some v → navigate parts d = Normal v.
Proof.
  induction parts as [|part parts IH]; intros d v; simpl; [by intros [= <-]|].
  destruct (getProp d part) as [|next]; [done|]. simpl.
  destruct (truthy next) eqn:Ht; [|done]. simpl. intros H.
  unfold or_else. rewrite Ht. by apply IH.
Qed.



(** X9.  Where every part of dataPath names a property with a truthy value,
    one after the other from the response body on, callEndpoint extracts
    the value at the end of the path. *)
Theorem dataPath_resolves endpoint path d v :
  dataPath endpoint = Some path → path ≠ "" →
  follow (split "." path) d = Some v →
  extractData endpoint d = Normal v.
Proof.
  intros Hp Hne Hf. unfold extractData. rewrite Hp.
  apply String.eqb_neq in Hne. rewrite Hne. by apply navigate_follow.
Qed.


End DataPath.

Lemma dataPath_resolves_witness :
  let endpoint := Examples.config (Some "/items") None None None None (Some "data.items") in
  let body := Js.VObj [("data", Js.VObj [("items", Js.VArr [Js.VInt 1]);
                                         ("total", Js.VInt 1)])] in
  Api.extractData endpoint body = Js.Normal (Js.VArr [Js.VInt 1]).
Proof.
  apply (dataPath_resolves
           (Examples.config (Some "/items") None None None None (Some "data.items"))
           "data.items").
  - reflexivity.
  - discriminate.
  - vm_compute. reflexivity.
Defined.


(* ===================================================================== *)
(** * callExtract                                                        *)
(* ===================================================================== *)

Section Download.
Import Js Tools Api ExtractCall.

(** X11.  callExtract returns exactly when callAxios resolves to a response
    with status 200, 201 or 204 whose body has no truthy error property,
    and then it returns the body as it is; in every other case it
    throws. *)
Theorem callExtract_returns extract payload credentials options callAxios d :
  let r := callExtract extract payload credentials options callAxios in
  r.1 = Normal d
  ↔ ∃ response,
      callAxios r.2 options = AxResponse response
      ∧ status response ∈ [200; 201; 204]%Z
      ∧ truthy (getPropOpt (data response) "error") = false
      ∧ d = data response.
Proof.
  unfold callExtract. simpl.
  set (rq := extractRequest extract payload credentials options).
  unfold checkDownload.
  destruct (callAxios rq options) as [e| |response]; simpl.
  - split; [done|]. by intros (response & H & _).
  - split; [done|]. by intros (response & H & _).
  - destruct (bool_decide (status response ∈ [200; 201; 204]%Z)) eqn:Hs; simpl.
    + apply bool_decide_eq_true in Hs.
      destruct (truthy (getPropOpt (data response) "error")) eqn:He.
      * split; [done|]. intros (response' & [= <-] & _ & H & _). congruence.
      * split; [intros [= <-]; eauto|]. by intros (response' & [= <-] & _ & _ & ->).
    + apply bool_decide_eq_false in Hs.
      split; [done|]. by intros (response' & [= <-] & H & _).
Qed.


End Download.

(* ===================================================================== *)
(** * The model name                                                     *)
(* ===================================================================== *)

Section ModelName.
Import Js LlmClient.



Lemma schema_requests_model X fuel : ∀ msgs retry calls rq,
  rq ∈ (Schema.generateSchema_loop fuel X msgs retry calls).2 →
  rq ∈ calls ∨ model rq = getModelName (env X) true.
Proof.
  assert (∀ msgs retry calls rq,
            rq ∈ (Schema.attemptSchemaGeneration X msgs retry calls).2 →
            rq ∈ calls ∨ model rq = getModelName (env X) true) as Ha.
  { intros msgs retry calls rq. unfold Schema.attemptSchemaGeneration.
    destruct (createLLMClient X) as [|client]; simpl; [auto|].
    destruct (Schema.schemaTemperature _ retry) as [|t]; simpl; [auto|].
    destruct (client _ _); simpl;
      intros [H|H%list_elem_of_singleton]%elem_of_app; auto; subst rq; auto. }
  induction fuel as [|fuel IH]; intros msgs retry calls rq; simpl.
  { destruct (retry <=? 3); simpl; auto. }
  destruct (retry <=? 3); simpl; [|auto].
  specialize (Ha msgs retry calls).
  destruct (Schema.attemptSchemaGeneration X msgs retry calls) as [[e|schema] calls'];
    simpl in Ha; [|simpl; auto].
  destruct (3 <? S retry); simpl; [auto|].
  intros [[H|H]%Ha|H]%IH; auto.
Qed.

(** X14.  With USE_OPENROUTER set to true and no model configured, every
    request of the three synthesizers names the model openai/gpt-4o and
    leaves the temperature undefined: the name contains gpt-4o, which
    settles it for the mapping and the endpoint synthesis, and it does
    not start with gpt-4, which settles it for the schema generation. *)
Theorem openrouter_defaults X :
  env X "USE_OPENROUTER" = Some "true" →
  env X "OPENROUTER_MODEL" = None →
  env X "OPENROUTER_SCHEMA_MODEL" = None →
  (∀ schema payload instruction rq,
     rq ∈ (Transform.generateMapping X schema payload instruction 0 None).2 →
     model rq = Some "openai/gpt-4o" ∧ temperature rq = None)
  ∧ (∀ endpointInput payload credentials lastError previousMessages rq,
       rq ∈ (ApiSynth.prepareEndpoint X endpointInput payload credentials lastError
               previousMessages).2 →
       model rq = Some "openai/gpt-4o" ∧ temperature rq = None)
  ∧ (∀ instruction responseData rq,
       rq ∈ (Schema.generateSchema X instruction responseData).2 →
       model rq = Some "openai/gpt-4o" ∧ temperature rq = None).
Proof.
  intros Hu Hm Hs.
  assert (∀ b, getModelName (env X) b = Some "openai/gpt-4o") as Hname.
  { intros b. unfold getModelName, useOpenRouter.
    rewrite bool_decide_eq_true_2, Hm, Hs by done. by destruct b. }
  split; [|split].
  - intros schema payload instruction rq H.
    apply mapping_requests in H as [H|(r & m & ->)]; [by apply elem_of_nil in H|].
    simpl. unfold Transform.mappingTemperature. by rewrite Hname.
  - intros endpointInput payload credentials lastError previousMessages rq.
    unfold ApiSynth.prepareEndpoint, ApiSynth.generateApiConfig.
    destruct (createLLMClient X) as [|client]; simpl; [by intros ?%elem_of_nil|].
    destruct (client _ _); simpl; intros ->%list_elem_of_singleton; simpl;
      unfold ApiSynth.synthesisTemperature; by rewrite Hname.
  - intros instruction responseData rq H. split.
    + apply schema_requests_model in H as [H|H]; [by apply elem_of_nil in H|].
      by rewrite H, Hname.
    + apply schema_requests in H as [H|[r H]]; [by apply elem_of_nil in H|].
      rewrite Hname in H. by injection H.
Qed.

End ModelName.


Lemma openrouter_defaults_witness :
  let X := Examples.world [("USE_OPENROUTER", "true")] Examples.drafts "u1" in
  (∀ schema payload instruction rq,
     rq ∈ (Transform.generateMapping X schema payload instruction 0 None).2 →
     LlmClient.model rq = Some "openai/gpt-4o" ∧ LlmClient.temperature rq = None)
  ∧ (∀ endpointInput payload credentials lastError previousMessages rq,
       rq ∈ (ApiSynth.prepareEndpoint X endpointInput payload credentials lastError
               previousMessages).2 →
       LlmClient.model rq = Some "openai/gpt-4o" ∧ LlmClient.temperature rq = None)
  ∧ (∀ instruction responseData rq,
       rq ∈ (Schema.generateSchema X instruction responseData).2 →
       LlmClient.model rq = Some "openai/gpt-4o" ∧ LlmClient.temperature rq = None).
Proof.
  apply (openrouter_defaults (Examples.world [("USE_OPENROUTER", "true")] Examples.drafts "u1"));
    reflexivity.
Defined.

(* ===================================================================== *)
(** * generateSchema                                                     *)
(* ===================================================================== *)

Section SchemaLoop.
Import Js LlmClient Schema.

Lemma schema_attempt_calls X msgs retry calls :
  length (attemptSchemaGeneration X msgs retry calls).2 ≤ S (length calls).
Proof.
  unfold attemptSchemaGeneration.
  destruct (createLLMClient X) as [|client]; simpl; [lia|].
  destruct (schemaTemperature _ retry); simpl; [lia|].
  destruct (client _ _); simpl; rewrite length_app; simpl; lia.
Qed.

Lemma schema_attempt_schema X msgs retry calls schema calls' :
  attemptSchemaGeneration X msgs retry calls = (Normal schema, calls') →
  truthy schema = true ∧ objectKeys schema ≠ [].
Proof.
  unfold attemptSchemaGeneration.
  destruct (createLLMClient X) as [|client]; [done|].
  destruct (schemaTemperature _ retry); [done|].
  destruct (client _ _) as [|c]; [done|].
  destruct (JSON_parse (toString c)) as [|generated]; simpl; [done|].
  set (g := if truthy (getPropOpt generated "jsonSchema")
            then getPropOpt generated "jsonSchema" else generated).
  destruct (truthy g) eqn:Ht; simpl; [|done].
  destruct (bool_decide (length (objectKeys g) = 0)) eqn:Hk; [done|].
  apply bool_decide_eq_false in Hk.
  destruct (validateSchema X g); simpl; [done|]. intros [= <- _].
  split; [done|]. by destruct (objectKeys g).
Qed.

Lemma schema_loop_outcome X fuel : ∀ msgs retry calls,
  retry ≤ 3 → 4 ≤ fuel + retry →
  ∃ res calls',
    generateSchema_loop fuel X msgs retry calls = (Some res, calls')
    ∧ length calls' ≤ length calls + (4 - retry)
    ∧ match res with
      | Normal schema => truthy schema = true ∧ objectKeys schema ≠ []
      | Threw e =>
          ∃ msgs' calls3,
            length msgs' = length msgs + (3 - retry)
            ∧ attemptSchemaGeneration X msgs' 3 calls3 = (Threw e, calls')
      end.
Proof.
  induction fuel as [|fuel IH]; intros msgs retry calls Hr Hf; [lia|]. simpl.
  replace (retry <=? 3) with true by (symmetry; by apply Nat.leb_le).
  pose proof (schema_attempt_calls X msgs retry calls) as Hc.
  pose proof (schema_attempt_schema X msgs retry calls) as Hs.
  destruct (attemptSchemaGeneration X msgs retry calls) as [[e|schema] calls'] eqn:Ha;
    simpl in Hc.
  - destruct (decide (retry = 3)) as [->|Hne].
    + simpl. exists (Threw e), calls'. split; [done|]. split; [lia|].
      exists msgs, calls. split; [lia|done].
    + replace (3 <? S retry) with false by (symmetry; apply Nat.ltb_ge; lia).
      destruct (IH (msgs ++ [ {| role := user;
                                 content := VStr ("The previous attempt failed with error: "
                                                  +:+ message e
                                                  +:+ ". Please try again.") |} ])
                   (S retry) calls' ltac:(lia) ltac:(lia))
        as (res & calls'' & -> & Hlen & Hres).
      exists res, calls''. split; [done|]. split; [lia|].
      destruct res as [e'|schema]; [|done].
      destruct Hres as (msgs' & calls3 & Hm & H3). exists msgs', calls3.
      split; [|done]. rewrite Hm, length_app. simpl. lia.
  - exists (Normal schema), calls'. split; [done|]. split; [lia|]. by eapply Hs.
Qed.

(** X15.  generateSchema comes to an end after at most four attempts and
    at most four requests to the model.  A schema that it returns is
    truthy and has at least one key.  An exception that it throws is the
    one of the fourth attempt, which ran with the two initial messages
    and three reports of failure; so the statement behind the loop
    (Unexpected error in schema generation) is never reached. *)
Theorem generateSchema_outcome X instruction responseData :
  let run := generateSchema X instruction responseData in
  length run.2 ≤ 4
  ∧ match run.1 with
    | Some (Normal schema) => truthy schema = true ∧ objectKeys schema ≠ []
    | Some (Threw e) =>
        ∃ msgs calls,
          length msgs = 5 ∧ attemptSchemaGeneration X msgs 3 calls = (Threw e, run.2)
    | None => False
    end.
Proof.
  intros run. unfold run, generateSchema.
  match goal with |- context [generateSchema_loop 4 X ?m 0 []] =>
    destruct (schema_loop_outcome X 4 m 0 [] ltac:(lia) ltac:(lia))
      as (res & calls' & -> & Hlen & Hres)
  end.
  simpl in *. split; [lia|]. by destruct res.
Qed.

(** X16.  Without a model name for schema generation (OpenAI mode with neither
    OPENAI_MODEL nor SCHEMA_GENERATION_MODEL set) generateSchema makes no
    request to the model: each of its four attempts fails before the
    request, on the constructor of the client or else on
    [modelName.startsWith], and the fourth failure is thrown. *)
Theorem schema_without_model X instruction responseData :
  env X "USE_OPENROUTER" ≠ Some "true" →
  env X "OPENAI_MODEL" = None →
  env X "SCHEMA_GENERATION_MODEL" = None ∨ env X "SCHEMA_GENERATION_MODEL" = Some "" →
  generateSchema X instruction responseData
  = (Some (Threw match createLLMClient X with
                 | Threw e => e
                 | Normal _ =>
                     TypeError "Cannot read properties of undefined (reading 'startsWith')"
                 end), []).
Proof.
  intros Hu Hm Hs.
  assert (getModelName (env X) true = None) as Hname.
  { unfold getModelName, useOpenRouter. rewrite bool_decide_eq_false_2, Hm by done.
    by destruct Hs as [-> | ->]. }
  assert (∀ msgs retry calls,
            attemptSchemaGeneration X msgs retry calls
            = (Threw match createLLMClient X with
                     | Threw e => e
                     | Normal _ =>
                         TypeError "Cannot read properties of undefined (reading 'startsWith')"
                     end, calls)) as Ha.
  { intros msgs retry calls. unfold attemptSchemaGeneration.
    destruct (createLLMClient X); [done|]. by rewrite Hname. }
  assert (∀ fuel msgs retry calls,
            retry ≤ 3 → 4 ≤ fuel + retry →
            generateSchema_loop fuel X msgs retry calls
            = (Some (Threw match createLLMClient X with
                           | Threw e => e
                           | Normal _ =>
                               TypeError
                                 "Cannot read properties of undefined (reading 'startsWith')"
                           end), calls)) as Hloop.
  { induction fuel as [|fuel IH]; intros msgs retry calls Hr Hf; [lia|].
    cbn [generateSchema_loop].
    replace (retry <=? 3) with true by (symmetry; by apply Nat.leb_le).
    rewrite Ha. destruct (decide (retry = 3)) as [->|Hne]; [done|].
    replace (3 <? S retry) with false by (symmetry; apply Nat.ltb_ge; lia).
    apply IH; lia. }
  unfold generateSchema. apply Hloop; lia.
Qed.

End SchemaLoop.

Lemma schema_without_model_witness :
  let X := Examples.world [("OPENAI_API_KEY", "sk-test")] Examples.drafts "u1" in
  Schema.generateSchema X "names only" "[]"
  = (Some (Js.Threw match LlmClient.createLLMClient X with
                    | Js.Threw e => e
                    | Js.Normal _ =>
                        Js.TypeError
                          "Cannot read properties of undefined (reading 'startsWith')"
                    end), []).
Proof.
  apply (schema_without_model
           (Examples.world [("OPENAI_API_KEY", "sk-test")] Examples.drafts "u1")).
  - discriminate.
  - reflexivity.
  - left. reflexivity.
Defined.

(* ===================================================================== *)
(** * generateMapping: exceptions and temperatures                       *)
(* ===================================================================== *)

Section MappingRuns.
Import Js LlmClient Transform.

Context (X : Externals) (schema payload instruction : JsVal).

Local Abbreviation loop := (fun fuel => generateMapping_loop fuel X schema payload instruction).

(** Once the client can be constructed, nothing is thrown. *)
Lemma mapping_loop_no_throw client fuel : ∀ retry msgs calls e,
  createLLMClient X = Normal client →
  (loop fuel retry msgs calls).1 ≠ Some (Threw e).
Proof.
  induction fuel as [|fuel IH]; intros retry msgs calls e Hc; simpl; [done|].
  rewrite (attempt_with_client X schema payload instruction client) by done. simpl.
  destruct (client _ _) as [e0|c].
  - destruct (retry <? 5); simpl; [by apply IH|done].
  - destruct (checkMapping X schema payload (toString c)); simpl; [|done].
    destruct (retry <? 5); simpl; [by apply IH|done].
Qed.



(** X17.  generateMapping, called as prepareTransform calls it, throws in one
    case only: when the client cannot be constructed.  Then the variable
    messages is still undefined in the catch block and what is thrown is
    the TypeError of [messages.push], not the error of the constructor,
    and no request has been made.  With a client, generateMapping returns
    (a mapping or null) after at least one request. *)
Theorem generateMapping_exceptions :
  let run := generateMapping X schema payload instruction 0 None in
  match createLLMClient X with
  | Threw _ =>
      run = (Some (Threw (TypeError "Cannot read properties of undefined (reading 'push')")),
             [])
  | Normal _ => (∃ v, run.1 = Some (Normal v)) ∧ 1 ≤ length run.2
  end.
Proof.
  intros run. unfold run, generateMapping.
  destruct (createLLMClient X) as [e|client] eqn:Hc.
  - simpl. unfold attemptMapping. by rewrite Hc.
  - split.
    + pose proof (loop_returns X schema payload instruction 6 0 None []
                    ltac:(lia) ltac:(lia)) as [r Hr].
      pose proof (mapping_loop_no_throw client 6 0 None [] ) as Hn.
      simpl (S (5 - 0)). destruct r as [e|v]; [by destruct (Hn e Hc)|eauto].
    + pose proof (loop_first_request X schema payload instruction client 5 0 None [] Hc)
        as H.
      apply lookup_lt_Some in H. change (length (@nil ChatRequest)) with 0 in H.
      change (S (5 - 0)) with 6. lia.
Qed.


End MappingRuns.

(* ===================================================================== *)
(** * The job queue: order and draining                                  *)
(* ===================================================================== *)

Section QueueOrder.
Import Queue.
Context {T : Type}.

Implicit Types (s : State T) (job : Process T).

Lemma processNext_schedule s :
  started (processNext s) ++ (id <$> queue (processNext s))
  = started s ++ (id <$> queue s).
Proof.
  unfold processNext. destruct (queue s) as [|job rest]; simpl; [done|].
  by rewrite <- app_assoc.
Qed.

Lemma processNext_started s :
  ∃ more, started (processNext s) = started s ++ more ∧ length more ≤ 1.
Proof.
  unfold processNext. destruct (queue s) as [|job rest]; simpl.
  - exists []. rewrite app_nil_r. split; [done|simpl; lia].
  - eexists. split; [done|simpl; lia].
Qed.

(** X19.  First in, first out.  The ids of the started tasks followed by the
    ids of the queued jobs form one list, the schedule.  An event changes
    it in one way only: an enqueue that is accepted (the id is not in
    jobSet) puts its id at the end.  And an event starts at most one
    task, whose id it puts at the end of the started ones; so tasks are
    started in the order in which their jobs were accepted. *)
Theorem queue_fifo (events : list (Event T)) (e : Event T) :
  let s := run events in
  started (step s e) ++ (id <$> queue (step s e))
  = (started s ++ (id <$> queue s))
    ++ match e with
       | Enqueue i _ => if bool_decide (i ∈ jobSet s) then [] else [i]
       | Settle _ => []
       end
  ∧ ∃ more, started (step s e) = started s ++ more ∧ length more ≤ 1.
Proof.
  intros s. generalize s. clear s events. intros s.
  assert (∃ more : list string, started s = started s ++ more ∧ length more ≤ 1) as Hsame.
  { exists []. rewrite app_nil_r. split; [done|simpl; lia]. }
  destruct e as [i t|ok]; simpl.
  - unfold enqueue. destruct (decide (i ∈ jobSet s)) as [Hi|Hi].
    + rewrite bool_decide_eq_false_2 by tauto. rewrite bool_decide_eq_true_2 by done.
      by rewrite app_nil_r.
    + rewrite bool_decide_eq_true_2 by done. rewrite bool_decide_eq_false_2 by done.
      unfold processQueue. simpl. destruct (isProcessing s).
      * simpl. by rewrite fmap_app, app_assoc.
      * rewrite processNext_schedule. simpl. rewrite fmap_app, app_assoc. split; [done|].
        apply (processNext_started
                 {| queue := queue s ++ [ {| id := i; task := t |} ]; isProcessing := true;
                    jobSet := {[ i ]} ∪ jobSet s; awaiting := awaiting s;
                    started := started s |}).
  - unfold settle. destruct (awaiting s) as [job|]; [|by rewrite app_nil_r].
    rewrite processNext_schedule, app_nil_r. simpl. split; [done|].
    apply (processNext_started
             {| queue := queue s; isProcessing := isProcessing s;
                jobSet := jobSet s ∖ {[ id job ]}; awaiting := None;
                started := started s |}).
Qed.

Lemma drain outcomes : ∀ s,
  consistent s → length outcomes = length (inFlight s) →
  let s' := settleAll outcomes s in
  isProcessing s' = false ∧ awaiting s' = None ∧ queue s' = [] ∧ jobSet s' = ∅
  ∧ started s' = started s ++ (id <$> queue s).
Proof.
  induction outcomes as [|ok outcomes IH]; intros s Hs Hlen; simpl.
  - destruct (inFlight s) eqn:Hf; [|done].
    pose proof Hs as (_ & Hset & _ & Hbusy).
    unfold inFlight in Hf. destruct (awaiting s) as [job|] eqn:Ha; [done|].
    rewrite Hf. simpl. rewrite app_nil_r.
    split; [|split; [done|split; [done|split; [|done]]]].
    + destruct (isProcessing s); [|done]. by destruct (Hbusy eq_refl).
    + apply elem_of_equiv_empty_L. intros i Hi. apply Hset in Hi.
      unfold inFlightIds, inFlight in Hi. rewrite Ha, Hf in Hi. by apply elem_of_nil in Hi.
  - destruct (inFlight s) as [|job rest] eqn:Hf; [done|].
    destruct (awaiting_head s job rest Hs Hf) as [Ha Hq].
    destruct (settle_head s job ok Hs Ha) as (Hf' & _).
    destruct (IH (settle ok s)) as (H1 & H2 & H3 & H4 & H5).
    + apply (consistent_step s (Settle ok) Hs).
    + rewrite Hf', Hq. simpl in Hlen. lia.
    + split; [done|]. split; [done|]. split; [done|]. split; [done|].
      rewrite H5. unfold settle. rewrite Ha. by rewrite processNext_schedule.
Qed.

(** X20.  Draining.  From any state of a queue, once as many tasks have
    settled as there are jobs in flight, whatever their outcomes, the
    queue is idle: isProcessing is false, nothing is awaited or queued,
    jobSet is empty, and the tasks of the jobs that were queued have been
    started in their order. *)
Theorem queue_drains (events : list (Event T)) (outcomes : list bool) :
  let s := run events in
  length outcomes = length (inFlight s) →
  let s' := settleAll outcomes s in
  isProcessing s' = false ∧ awaiting s' = None ∧ queue s' = [] ∧ jobSet s' = ∅
  ∧ started s' = started s ++ (id <$> queue s).
Proof.
  intros s Hlen. apply drain; [apply consistent_run|done].
Qed.

End QueueOrder.

Lemma queue_drains_witness :
  let s := Queue.run [Queue.Enqueue "a" 1; Queue.Enqueue "b" 2; Queue.Enqueue "c" 3] in
  let s' := Queue.settleAll [true; false; true] s in
  Queue.isProcessing s' = false ∧ Queue.awaiting s' = None ∧ Queue.queue s' = []
  ∧ Queue.jobSet s' = ∅
  ∧ Queue.started s' = Queue.started s ++ (Queue.id <$> Queue.queue s).
Proof.
  apply (queue_drains [Queue.Enqueue "a" 1; Queue.Enqueue "b" 2; Queue.Enqueue "c" 3]
           [true; false; true]).
  reflexivity.
Defined.

(* ===================================================================== *)
(** * Spreads: which side wins                                           *)
(* ===================================================================== *)

Section Spreads.
Import Js LlmClient.

Lemma assoc_None {A} k (l : list (string * A)) : assoc k l = None ↔ k ∉ l.*1.
Proof.
  induction l as [|[k0 v0] l IH]; simpl.
  - split; [intros _; apply not_elem_of_nil|done].
  - rewrite not_elem_of_cons, <- IH. destruct (String.eqb k k0) eqn:He.
    + apply String.eqb_eq in He. split; [done|]. by intros [? _].
    + apply String.eqb_neq in He. tauto.
Qed.

Lemma assoc_set_keys {A} k (v : A) l :
  (assoc_set k v l).*1 = if bool_decide (k ∈ l.*1) then l.*1 else l.*1 ++ [k].
Proof.
  induction l as [|[k0 v0] l IH]; [done|]. cbn [assoc_set].
  destruct (String.eqb k k0) eqn:He.
  - apply String.eqb_eq in He as ->. rewrite !fmap_cons. cbn [fst].
    by rewrite bool_decide_eq_true_2 by apply list_elem_of_here.
  - apply String.eqb_neq in He. rewrite !fmap_cons, IH. cbn [fst].
    destruct (decide (k ∈ l.*1)) as [Hin|Hin].
    + rewrite !bool_decide_eq_true_2; [done| by right | done].
    + rewrite !bool_decide_eq_false_2; [done| | done].
      rewrite elem_of_cons. tauto.
Qed.

Lemma assoc_set_NoDup {A} k (v : A) l : NoDup l.*1 → NoDup (assoc_set k v l).*1.
Proof.
  intros H. rewrite assoc_set_keys. destruct (decide (k ∈ l.*1)) as [Hin|Hin].
  - by rewrite bool_decide_eq_true_2.
  - rewrite bool_decide_eq_false_2 by done. apply NoDup_app. split; [done|].
    split; [|apply NoDup_singleton]. intros x Hx ->%list_elem_of_singleton. done.
Qed.

(** A spread gives a property of its source to the result, where the
    source has each key once. *)
Lemma assoc_fold_source k v (source : list (string * JsVal)) : ∀ target,
  NoDup source.*1 → assoc k source = Some v →
  assoc k (fold_left (fun acc '(k', v') => assoc_set k' v' acc) source target) = Some v.
Proof.
  induction source as [|[k0 v0] source IH]; intros target Hnd; simpl; [done|].
  simpl in Hnd. apply NoDup_cons in Hnd as [Hfresh Hnd].
  destruct (String.eqb k k0) eqn:He.
  - apply String.eqb_eq in He as ->. intros [= ->].
    rewrite assoc_fold_set by (by apply assoc_None).
    by rewrite assoc_assoc_set, String.eqb_refl.
  - by apply IH.
Qed.

Lemma assoc_copy k (fields : list (string * JsVal)) :
  NoDup fields.*1 → assoc k (spread [] (VObj fields)) = assoc k fields.
Proof.
  intros Hnd. unfold spread. simpl. destruct (assoc k fields) as [v|] eqn:Hk.
  - by apply assoc_fold_source.
  - by rewrite assoc_fold_set.
Qed.

Lemma parse_number_num cs v rest :
  parse_number cs = Some (v, rest) → ∃ m e, v = VNum m e.
Proof.
  unfold parse_number. repeat case_match; try done; intros [= <- <-]; eauto.
Qed.

(** The objects that JSON.parse builds have each key once. *)
Lemma parse_unique fuel :
  (∀ cs fs rest, parse_value fuel cs = Some (VObj fs, rest) → NoDup fs.*1)
  ∧ (∀ acc cs fs rest, parse_elems fuel acc cs = Some (VObj fs, rest) → False)
  ∧ (∀ acc cs fs rest, NoDup acc.*1 →
       parse_members fuel acc cs = Some (VObj fs, rest) → NoDup fs.*1).
Proof.
  induction fuel as [|fuel (IHv & IHe & IHm)]; [by split; [|split]|].
  split; [|split].
  - intros cs fs rest. simpl.
    repeat case_match; try done; try (intros [= <- <-]; constructor).
    + apply IHm. constructor.
    + by intros ?%IHe.
    + by intros (m & e & ?)%parse_number_num.
  - intros acc cs fs rest. simpl. repeat case_match; try done. apply IHe.
  - intros acc cs fs rest Hnd. simpl. repeat case_match; try done.
    + apply IHm. by apply assoc_set_NoDup.
    + intros [= <- <-]. by apply assoc_set_NoDup.
Qed.

Lemma JSON_parse_unique text fs : JSON_parse text = Normal (VObj fs) → NoDup fs.*1.
Proof.
  unfold JSON_parse. destruct (parse_value _ _) as [[v rest]|] eqn:Hp; [|done].
  destruct (skip_ws rest); [|done]. intros [= ->].
  by eapply (proj1 (parse_unique _)).
Qed.

End Spreads.

(* ===================================================================== *)
(** * What the synthesizers put into a configuration                    *)
(* ===================================================================== *)

Section Provenance.
Import Js LlmClient.

(** X21.  The configuration that prepareExtract returns, property by property,
    for an input object and an answer of the model that parses to an
    object: a property of the answer wins; where the answer has none, id
    is the digest, createdAt and updatedAt are the current time, and
    every other property is the one of the input. *)
Theorem extract_answer_wins X fields payload credentials lastError config calls :
  NoDup fields.*1 →
  Extract.prepareExtract X (VObj fields) payload credentials lastError
  = (Normal config, calls) →
  ∃ client rq c generated,
    createLLMClient X = Normal client
    ∧ calls = [rq] ∧ client 0 rq = LlmContent c
    ∧ JSON_parse (toString c) = Normal generated
    ∧ ∀ answer k,
        generated = VObj answer →
        getProp config k
        = Normal match assoc k answer with
                 | Some v => v
                 | None =>
                     if String.eqb k "id"
                     then VStr (Transform.requestHash X (VObj fields) payload)
                     else if String.eqb k "updatedAt" || String.eqb k "createdAt"
                          then VStr (now X)
                          else default VUndefined (assoc k fields)
                 end.
Proof.
  intros Hnd. unfold Extract.prepareExtract, Extract.generateExtractConfig.
  destruct (createLLMClient X) as [|client]; [done|].
  match goal with |- context [client 0 ?r] => set (rq := r) end.
  destruct (client 0 rq) as [|c] eqn:Hc; [done|].
  destruct (JSON_parse (toString c)) as [|generated] eqn:Hp; [done|].
  cbn [bind]. intros [= <- <-]. exists client, rq, c, generated.
  split; [done|]. split; [done|]. split; [done|]. split; [done|].
  intros answer k ->. apply JSON_parse_unique in Hp.
  cbn [getProp]. f_equal. unfold spread at 1. cbn [ownProperties].
  destruct (assoc k answer) as [v|] eqn:Hk.
  - by rewrite (assoc_fold_source k v).
  - rewrite assoc_fold_set by done. rewrite !assoc_assoc_set, (assoc_copy k fields Hnd).
    unfold Transform.requestHash.
    destruct (String.eqb k "id"); [done|].
    destruct (String.eqb k "updatedAt"); [done|].
    by destruct (String.eqb k "createdAt").
Qed.

(** X22.  The configuration that prepareEndpoint returns for an input object:
    urlHost, urlPath, method, queryParams, headers, body and
    authentication are the model's, whatever the input says about them
    (the input's reach the model in the prompt only); instruction,
    documentationUrl, responseSchema and responseMapping are the
    input's; pagination and dataPath are the input's where those are
    truthy and the model's otherwise.  The log returned is the messages
    of the one request followed by the answer. *)
Theorem endpoint_config_fields X fields payload credentials lastError previousMessages
    config log calls :
  NoDup fields.*1 →
  ApiSynth.prepareEndpoint X (VObj fields) payload credentials lastError previousMessages
  = (Normal (config, log), calls) →
  ∃ client rq c generated,
    createLLMClient X = Normal client
    ∧ calls = [rq] ∧ client 0 rq = LlmContent c
    ∧ JSON_parse (toString c) = Normal generated
    ∧ log = messages rq ++ [ {| role := assistant; content := c |} ]
    ∧ (∀ k, k ∈ ["urlHost"; "urlPath"; "method"; "queryParams"; "headers"; "body";
                 "authentication"] →
            getProp config k = Normal (getPropOpt generated k))
    ∧ (∀ k, k ∈ ["instruction"; "documentationUrl"; "responseSchema"; "responseMapping"] →
            getProp config k = Normal (default VUndefined (assoc k fields)))
    ∧ (∀ k, k ∈ ["pagination"; "dataPath"] →
            getProp config k
            = Normal (or_else (default VUndefined (assoc k fields)) (getPropOpt generated k))).
Proof.
  intros Hnd. unfold ApiSynth.prepareEndpoint, ApiSynth.generateApiConfig.
  destruct (createLLMClient X) as [|client]; [done|].
  match goal with |- context [client 0 ?r] => set (rq := r) end.
  destruct (client 0 rq) as [|c] eqn:Hc; [done|].
  destruct (JSON_parse (toString c)) as [|generated] eqn:Hp; [done|].
  cbn [bind].
  destruct (getProp generated "urlHost") as [|urlHost] eqn:Hu; [done|].
  cbn [bind]. intros [= <- <- <-]. exists client, rq, c, generated.
  split; [done|]. split; [done|]. split; [done|]. split; [done|]. split; [done|].
  assert (∀ k, k ≠ "id" → k ≠ "updatedAt" → k ≠ "createdAt" →
            getPropOpt
              (VObj (assoc_set "id" (VStr (randomUUID X))
                       (assoc_set "updatedAt" (VStr (now X))
                          (assoc_set "createdAt" (VStr (now X))
                             (spread [] (VObj fields)))))) k
            = default VUndefined (assoc k fields)) as Hown.
  { intros k H1 H2 H3. unfold getPropOpt. cbn [getProp].
    rewrite !assoc_assoc_set, (assoc_copy k fields Hnd).
    apply String.eqb_neq in H1, H2, H3. by rewrite H1, H2, H3. }
  assert (getPropOpt generated "urlHost" = urlHost) as Hhost
    by (unfold getPropOpt; by rewrite Hu).
  split; [|split].
  - intros k Hk. rewrite !elem_of_cons, elem_of_nil in Hk.
    destruct Hk as [->|[->|[->|[->|[->|[->|[->|[]]]]]]]]; try reflexivity.
    by rewrite Hhost.
  - intros k Hk. rewrite !elem_of_cons, elem_of_nil in Hk.
    destruct Hk as [->|[->|[->|[->|[]]]]];
      cbn [getProp assoc String.eqb Ascii.eqb Bool.eqb default from_option];
      by rewrite Hown.
  - intros k Hk. rewrite !elem_of_cons, elem_of_nil in Hk.
    destruct Hk as [->|[->|[]]];
      cbn [getProp assoc String.eqb Ascii.eqb Bool.eqb default from_option];
      by rewrite Hown.
Qed.

End Provenance.

(** The model answers with a url and an id of its own: both win. *)
Lemma extract_answer_wins_witness :
  let X := Examples.world Examples.turbo
             (Examples.answers (Js.dq "{'urlHost': 'https://files.example.com', 'id': 'mine'}"))
             "u1" in
  let fields := [("urlHost", Js.VStr "https://example.com");
                 ("instruction", Js.VStr "fetch the file")] in
  ∃ config calls,
    Extract.prepareExtract X (Js.VObj fields) Js.VNull Js.VNull None = (Js.Normal config, calls)
    ∧ ∃ client rq c generated,
        LlmClient.createLLMClient X = Js.Normal client
        ∧ calls = [rq] ∧ client 0 rq = LlmClient.LlmContent c
        ∧ Js.JSON_parse (Js.toString c) = Js.Normal generated
        ∧ ∀ answer k,
            generated = Js.VObj answer →
            Js.getProp config k
            = Js.Normal match Js.assoc k answer with
                        | Some v => v
                        | None =>
                            if String.eqb k "id"
                            then Js.VStr (Transform.requestHash X (Js.VObj fields) Js.VNull)
                            else if String.eqb k "updatedAt" || String.eqb k "createdAt"
                                 then Js.VStr (LlmClient.now X)
                                 else default Js.VUndefined (Js.assoc k fields)
                        end.
Proof.
  do 2 eexists. split; [vm_compute; reflexivity|].
  apply (extract_answer_wins
           (Examples.world Examples.turbo
              (Examples.answers
                 (Js.dq "{'urlHost': 'https://files.example.com', 'id': 'mine'}")) "u1")
           [("urlHost", Js.VStr "https://example.com");
            ("instruction", Js.VStr "fetch the file")] Js.VNull Js.VNull None).
  - refine (bool_decide_unpack _ _). vm_compute. exact I.
  - vm_compute. reflexivity.
Defined.

(** The input names a method and a dataPath: the method is the model's,
    the dataPath the input's. *)
Lemma endpoint_config_fields_witness :
  let X := Examples.world Examples.turbo (Examples.answers Examples.items_config) "u1" in
  let fields := [("urlHost", Js.VStr "https://api.example.com");
                 ("instruction", Js.VStr "list the items");
                 ("method", Js.VStr "POST"); ("dataPath", Js.VStr "items")] in
  ∃ config log calls,
    ApiSynth.prepareEndpoint X (Js.VObj fields) Js.VNull Js.VNull None []
    = (Js.Normal (config, log), calls)
    ∧ ∃ client rq c generated,
        LlmClient.createLLMClient X = Js.Normal client
        ∧ calls = [rq] ∧ client 0 rq = LlmClient.LlmContent c
        ∧ Js.JSON_parse (Js.toString c) = Js.Normal generated
        ∧ log = LlmClient.messages rq
                  ++ [ {| LlmClient.role := LlmClient.assistant; LlmClient.content := c |} ]
        ∧ (∀ k, k ∈ ["urlHost"; "urlPath"; "method"; "queryParams"; "headers"; "body";
                     "authentication"] →
                Js.getProp config k = Js.Normal (Js.getPropOpt generated k))
        ∧ (∀ k, k ∈ ["instruction"; "documentationUrl"; "responseSchema";
                     "responseMapping"] →
                Js.getProp config k = Js.Normal (default Js.VUndefined (Js.assoc k fields)))
        ∧ (∀ k, k ∈ ["pagination"; "dataPath"] →
                Js.getProp config k
                = Js.Normal (Js.or_else (default Js.VUndefined (Js.assoc k fields))
                               (Js.getPropOpt generated k))).
Proof.
  do 3 eexists. split; [vm_compute; reflexivity|].
  apply (endpoint_config_fields
           (Examples.world Examples.turbo (Examples.answers Examples.items_config) "u1")
           [("urlHost", Js.VStr "https://api.example.com");
            ("instruction", Js.VStr "list the items");
            ("method", Js.VStr "POST"); ("dataPath", Js.VStr "items")]
           Js.VNull Js.VNull None []).
  - refine (bool_decide_unpack _ _). vm_compute. exact I.
  - vm_compute. reflexivity.
Defined.

(* ===================================================================== *)
(** * prepareTransform                                                   *)
(* ===================================================================== *)

Section PrepareTransform.
Import Js LlmClient Transform.

(** X23.  Nothing to do: where the input has no response schema, or one
    without keys, or where the data are falsy, an empty array or an
    empty object, prepareTransform returns null at once; the model is not
    called and the cache is not consulted, whatever fromCache says. *)
Theorem transform_nothing_to_do X fromCache input data orgId :
  truthy (getPropOpt input "responseSchema") = false
  ∨ objectKeys (getPropOpt input "responseSchema") = []
  ∨ data = VUndefined ∨ data = VNull ∨ data = VBool false ∨ (∃ e, data = VNum 0 e)
  ∨ data = VStr "" ∨ data = VArr [] ∨ data = VObj [] →
  prepareTransform X fromCache input data orgId = (Some (Normal VNull), []).
Proof.
  intros H. unfold prepareTransform.
  destruct (negb (truthy (getPropOpt input "responseSchema"))
            || bool_decide (length (objectKeys (getPropOpt input "responseSchema")) = 0))
    eqn:Hs; [done|].
  apply orb_false_iff in Hs as [Ht Hk]. apply negb_false_iff in Ht.
  apply bool_decide_eq_false in Hk.
  destruct H as [H|[H|H]]; [congruence| by rewrite H in Hk |].
  assert (isEmptyData data = true) as ->; [|done].
  destruct H as [->|[->|[->|[[e ->]|[->|[->| ->]]]]]]; done.
Qed.

(** X24.  With a response mapping of the caller's own (and a schema and data to
    work on, and no cached configuration asked for), prepareTransform
    does not call the model: it returns a configuration that has every
    property of the input, the mapping among them, and the digest as id
    where the input has no id. *)
Theorem transform_own_mapping X fields data orgId mapping :
  NoDup fields.*1 →
  assoc "responseMapping" fields = Some mapping → truthy mapping = true →
  truthy (getPropOpt (VObj fields) "responseSchema") = true →
  objectKeys (getPropOpt (VObj fields) "responseSchema") ≠ [] →
  isEmptyData data = false →
  ∃ config,
    prepareTransform X false (VObj fields) data orgId = (Some (Normal (VObj config)), [])
    ∧ (∀ k v, assoc k fields = Some v → assoc k config = Some v)
    ∧ (assoc "id" fields = None →
       assoc "id" config = Some (VStr (requestHash X (VObj fields) data))).
Proof.
  intros Hnd Hm Ht Hs Hk Hd. unfold prepareTransform.
  rewrite Hs, Hd. cbn [negb orb].
  rewrite bool_decide_eq_false_2 by (by destruct (objectKeys _)).
  assert (getPropOpt (VObj fields) "responseMapping" = mapping) as Hown.
  { unfold getPropOpt. cbn [getProp]. by rewrite Hm. }
  rewrite Hown, Ht. eexists. split; [done|]. split.
  - intros k v Hkv. unfold spread. cbn [ownProperties]. by apply assoc_fold_source.
  - intros Hid. by rewrite assoc_spread.
Qed.

(** X25.  A configuration that prepareTransform builds with the model's help
    (no mapping in the input, no cached configuration asked for) carries
    as responseMapping an expression that applyJsonataWithValidation has
    applied to the data with success, validation against the response
    schema included. *)
Theorem transform_mapping_validated X input data orgId config calls :
  truthy (getPropOpt input "responseMapping") = false →
  prepareTransform X false input data orgId = (Some (Normal config), calls) →
  config ≠ VNull →
  ∃ expression result error,
    getProp config "responseMapping" = Normal expression
    ∧ applyJsonataWithValidation X data expression (getPropOpt input "responseSchema")
      = Normal (true, result, error).
Proof.
  intros Hm H Hn. unfold prepareTransform in H.
  destruct (_ || _) in H; [by injection H as <-|].
  destruct (isEmptyData data); [by injection H as <-|].
  rewrite Hm in H. unfold generateMapping in H.
  pose proof (loop_sound X (getPropOpt input "responseSchema") data
                (getPropOpt input "instruction") (S (5 - 0)) 0 None []) as Hsound.
  cbv beta in Hsound.
  destruct (generateMapping_loop _ _ _ _ _ _ _ _) as [[[e|content]|] cs]; try done.
  destruct (truthy content) eqn:Ht; [|by injection H as <-].
  destruct (Hsound content eq_refl ltac:(by intros ->)) as [text Hcheck].
  apply checkMapping_sound in Hcheck as (_ & expression & result & error & Hp & Ha).
  injection H as <- <-. exists expression, result, error. split; [|done].
  cbn [getProp]. rewrite !assoc_assoc_set.
  cbn [String.eqb Ascii.eqb Bool.eqb]. unfold getPropOpt. by rewrite Hp.
Qed.

End PrepareTransform.

Lemma transform_nothing_to_do_witness :
  Transform.prepareTransform
    (Examples.world Examples.turbo Examples.drafts "u1") true
    (Js.VObj [("instruction", Js.VStr "full name"); ("responseSchema", Examples.name_schema)])
    (Js.VArr []) None
  = (Some (Js.Normal Js.VNull), []).
Proof.
  apply transform_nothing_to_do. do 7 right. left. reflexivity.
Defined.

Lemma transform_own_mapping_witness :
  let X := Examples.world Examples.turbo Examples.drafts "u1" in
  let fields := [("instruction", Js.VStr "full name");
                 ("responseSchema", Examples.name_schema);
                 ("responseMapping", Js.VStr "user.first")] in
  ∃ config,
    Transform.prepareTransform X false (Js.VObj fields) Examples.user_data None
    = (Some (Js.Normal (Js.VObj config)), [])
    ∧ (∀ k v, Js.assoc k fields = Some v → Js.assoc k config = Some v)
    ∧ (Js.assoc "id" fields = None →
       Js.assoc "id" config
       = Some (Js.VStr (Transform.requestHash X (Js.VObj fields) Examples.user_data))).
Proof.
  apply (transform_own_mapping (Examples.world Examples.turbo Examples.drafts "u1")
           [("instruction", Js.VStr "full name");
            ("responseSchema", Examples.name_schema);
            ("responseMapping", Js.VStr "user.first")]
           Examples.user_data None (Js.VStr "user.first")).
  - refine (bool_decide_unpack _ _). vm_compute. exact I.
  - reflexivity.
  - reflexivity.
  - reflexivity.
  - discriminate.
  - reflexivity.
Defined.

(** Scenario 4 of the specification, seen from prepareTransform *)
Lemma transform_mapping_validated_witness :
  let X := Examples.world Examples.turbo Examples.drafts "u1" in
  let input := Js.VObj [("instruction", Js.VStr "full name");
                        ("responseSchema", Examples.name_schema)] in
  ∃ config calls,
    Transform.prepareTransform X false input Examples.user_data None
    = (Some (Js.Normal config), calls)
    ∧ ∃ expression result error,
        Js.getProp config "responseMapping" = Js.Normal expression
        ∧ LlmClient.applyJsonataWithValidation X Examples.user_data expression
            (Js.getPropOpt input "responseSchema")
          = Js.Normal (true, result, error).
Proof.
  do 2 eexists. split; [vm_compute; reflexivity|].
  eapply (transform_mapping_validated (Examples.world Examples.turbo Examples.drafts "u1")
           (Js.VObj [("instruction", Js.VStr "full name");
                     ("responseSchema", Examples.name_schema)])
           Examples.user_data None).
  - reflexivity.
  - vm_compute. reflexivity.
  - discriminate.
Defined.

(* ===================================================================== *)
(** * The request executor: pages that keep the loop going               *)
(* ===================================================================== *)

Section GoingOn.
Import Js Tools Api.


End GoingOn.


(* ===================================================================== *)
(** * Retries: what the later requests look like                         *)
(* ===================================================================== *)

Section Retries.
Import Js LlmClient.




End Retries.


(* ===================================================================== *)
(** * The requests of a run                                              *)
(* ===================================================================== *)

Section Requests.
Import Js Tools Api Props.

Lemma loop_requests endpoint V options callAxios fuel : ∀ st tr,
  length (httpCalls tr) = length (iterations tr) →
  (pagination_type endpoint = Some PAGE_BASED →
   page st = (1 + Z.of_nat (length (iterations tr)))%Z) →
  (pagination_type endpoint = Some OFFSET_BASED →
   offset st = (int_or (pagination_pageSize endpoint) 50
                * Z.of_nat (length (iterations tr)))%Z) →
  (∀ i rq, httpCalls tr !! i = Some rq →
           buildRequest endpoint (V ∪ pass_vars endpoint i) options = Normal rq) →
  let r := callEndpoint_loop fuel endpoint V options callAxios st tr in
  ∀ i rq, httpCalls r.2 !! i = Some rq →
          buildRequest endpoint (V ∪ pass_vars endpoint i) options = Normal rq.
Proof.
  induction fuel as [|fuel IH]; intros st tr Hlen Hpage Hoff Hrq; simpl.
  { destruct (hasMore st && _); done. }
  destruct (hasMore st && _); [|done].
  pose proof (iteration_unfold endpoint V options callAxios st tr) as (Hit & _ & Hb).
  cbv zeta in Hit, Hb.
  pose proof (paginate_pass_vars endpoint st _ Hpage Hoff) as Hnew.
  pose proof (paginate_advances endpoint st _ Hpage Hoff) as [Hpage' Hoff'].
  pose proof (iteration_keeps_counters endpoint V options callAxios st tr) as Hk.
  pose proof (iteration_trace_lengths endpoint V options callAxios st tr) as (_ & _ & Hn).
  cbv zeta in Hn.
  rewrite Hnew in Hb.
  assert (∀ i rq, httpCalls (iteration endpoint V options callAxios st tr).2 !! i = Some rq →
                  buildRequest endpoint (V ∪ pass_vars endpoint i) options = Normal rq)
    as Hrq'.
  { destruct (buildRequest endpoint (V ∪ pass_vars endpoint (length (iterations tr))) options)
      as [e|rq0] eqn:Hb0; destruct Hb as [H1 H2].
    - rewrite H2. done.
    - rewrite H1. intros i rq [H|[Hge H]]%lookup_app_Some; [by apply Hrq|].
      apply list_lookup_singleton_Some in H as [Hz <-].
      replace i with (length (iterations tr)) by lia. done. }
  destruct (iteration endpoint V options callAxios st tr) as [[e|st'] tr'];
    cbn [fst snd] in *; [done|].
  destruct (Hk st' tr' eq_refl) as [Hp1 Hp2]. specialize (Hn st' eq_refl).
  apply IH.
  - rewrite Hn, Hit, length_app. simpl. lia.
  - intros Hpb. rewrite Hp1, Hit, length_app. simpl. rewrite (Hpage' Hpb). f_equal. lia.
  - intros Hob. rewrite Hp2, Hit, length_app. simpl. rewrite (Hoff' Hob). f_equal. lia.
  - done.
Qed.

(** X29.  The HTTP requests of a run, in order: request number [i] (from 0) is
    the request built from the configuration with the variables of
    credentials and payload and the pagination variables of pass [i];
    with PAGE_BASED pagination, say, every {page} of the configuration
    has become i + 1 in it. *)
Theorem requests_of_a_run endpoint payload credentials options callAxios i rq :
  httpCalls (callEndpoint endpoint payload credentials options callAxios).2 !! i = Some rq →
  buildRequest endpoint (merge_vars payload credentials ∪ pass_vars endpoint i) options
  = Normal rq.
Proof.
  apply (loop_requests endpoint (merge_vars payload credentials) options callAxios
           callEndpoint_fuel initial_state no_trace); simpl; try done.
  intros _. lia.
Qed.

End Requests.

Lemma requests_of_a_run_witness :
  let endpoint := Examples.paged Api.PAGE_BASED (Some 1%Z) in
  let callAxios := Examples.serve [Js.VArr [Js.VInt 1]; Js.VArr [Js.VInt 2]] in
  ∃ rq,
    Api.httpCalls (Api.callEndpoint endpoint ∅ ∅ None callAxios).2 !! 1 = Some rq
    ∧ Api.buildRequest endpoint (Api.merge_vars ∅ ∅ ∪ Props.pass_vars endpoint 1) None
      = Js.Normal rq.
Proof.
  eexists. split; [vm_compute; reflexivity|].
  apply (requests_of_a_run (Examples.paged Api.PAGE_BASED (Some 1%Z)) ∅ ∅ None
           (Examples.serve [Js.VArr [Js.VInt 1]; Js.VArr [Js.VInt 2]]) 1).
  vm_compute. reflexivity.
Defined.

(* ===================================================================== *)
(** * prepareTransform and the cache                                     *)
(* ===================================================================== *)

Section TransformCache.
Import Js LlmClient Transform.

(** X30.  With fromCache set and a cached configuration found, prepareTransform
    does not call the model: it returns the cached configuration with
    the properties of the input laid over it, so that where both have a
    property the input's wins. *)
Theorem transform_cache_hit X fields data orgId cached :
  NoDup fields.*1 →
  truthy (getPropOpt (VObj fields) "responseSchema") = true →
  objectKeys (getPropOpt (VObj fields) "responseSchema") ≠ [] →
  isEmptyData data = false →
  getTransformConfigFromRequest X (VObj fields) data orgId = Normal cached →
  truthy cached = true →
  ∃ config,
    prepareTransform X true (VObj fields) data orgId = (Some (Normal (VObj config)), [])
    ∧ ∀ k, assoc k config = match assoc k fields with
                            | Some v => Some v
                            | None => assoc k (ownProperties cached)
                            end.
Proof.
  intros Hnd Hs Hk Hd Hc Ht. unfold prepareTransform.
  rewrite Hs, Hd, Hc, Ht. cbn [negb orb].
  rewrite bool_decide_eq_false_2 by (by destruct (objectKeys _)).
  eexists. split; [done|]. intros k. unfold spread. cbn [ownProperties].
  destruct (assoc k fields) as [v|] eqn:Hkv.
  - by apply assoc_fold_source.
  - by rewrite assoc_fold_set.
Qed.

End TransformCache.

Lemma transform_cache_hit_witness :
  let cached := Js.VObj [("id", Js.VStr "t1"); ("instruction", Js.VStr "old");
                         ("responseMapping", Js.VStr "user.first")] in
  let X := {| LlmClient.env := Examples.env_of Examples.turbo;
              LlmClient.openai := fun _ => Js.Normal Examples.drafts;
              LlmClient.now := "2025-01-01T00:00:00.000Z";
              LlmClient.randomUUID := "u1";
              LlmClient.md5 := fun text => "digest of " +:+ text;
              LlmClient.getSchemaFromData := fun data => Js.VArr [];
              LlmClient.applyJsonataWithValidation := Examples.evaluator;
              LlmClient.describeStructure := Js.stringify_text;
              LlmClient.describeSample := Js.stringify_text;
              LlmClient.stringifyPretty := Js.stringify_text;
              LlmClient.getDocumentation := fun _ _ _ _ => "";
              LlmClient.getTransformConfigFromRequest := fun _ _ _ => Js.Normal cached;
              LlmClient.validateSchema := fun _ => Js.Normal tt;
              LlmClient.PROMPT_MAPPING := "";
              LlmClient.API_PROMPT := "";
              LlmClient.API_ERROR_HANDLING_USER_PROMPT := "";
              LlmClient.GENERATE_SCHEMA_PROMPT := "";
              LlmClient.apiDefinitionSchema := Js.VObj [];
              LlmClient.extractDefinitionSchema := Js.VObj [] |} in
  let fields := [("instruction", Js.VStr "full name");
                 ("responseSchema", Examples.name_schema)] in
  ∃ config,
    Transform.prepareTransform X true (Js.VObj fields) Examples.user_data None
    = (Some (Js.Normal (Js.VObj config)), [])
    ∧ ∀ k, Js.assoc k config = match Js.assoc k fields with
                               | Some v => Some v
                               | None => Js.assoc k (Js.ownProperties cached)
                               end.
Proof.
  intros cached X fields.
  apply (transform_cache_hit X fields Examples.user_data None cached).
  - refine (bool_decide_unpack _ _). vm_compute. exact I.
  - reflexivity.
  - discriminate.
  - reflexivity.
  - reflexivity.
  - reflexivity.
Defined.
